(** * libspamc: the spamd protocol client of SpamAssassin

    A shallow embedding of [src/spamd/libspamc.c] and of the read and write
    helpers of [src/spamd/utils.c], with the properties the specification
    states about them.

    Conventions of the embedding:
    - a C [char] is a [Z] in 0..255 and a buffer is the list of the bytes it
      holds so far; a read at an index the list does not cover is a read
      of bytes the program never stored, and makes the run [Fault];
    - a C [int] is a [Z]; where the source can overflow one the wrap-around
      is written out ([int_wrap]);
    - a C [float] is the rational number the C expression denotes before
      rounding ([Q]); the rounding of binary floating point is outside the
      model;
    - descriptors are explicit: an input descriptor is the list of what
      successive [read] calls will meet, an output descriptor the list of
      bytes written so far together with the room that is left. *)

From Stdlib Require Import String Ascii DecimalString.
From Stdlib Require Import ZArith QArith Qabs List Lia Bool.
Import ListNotations.

Open Scope Z_scope.

(* ------------------------------------------------------------------ *)
(** ** Bytes and C strings *)

(** The code of a character literal of the source: [chr "D"] is ['D'],
    [chr "010"] is ['\n'] and [chr "013"] is ['\r']. *)
Definition chr (a : ascii) : Z := Z.of_N (N_of_ascii a).
Arguments chr a%_char.

Definition bytes (s : string) : list Z := map chr (list_ascii_of_string s).
Arguments bytes s%_string.

Definition LF : Z := chr "010".
Definition CR : Z := chr "013".
Definition NUL : Z := 0.

Definition len {A : Type} (l : list A) : Z := Z.of_nat (List.length l).

(** The C string stored at the start of a buffer: the bytes before the
    first NUL. *)
Fixpoint cstr (buf : list Z) : list Z :=
  match buf with
  | [] => []
  | c :: t => if c =? NUL then [] else c :: cstr t
  end.

(* ------------------------------------------------------------------ *)
(** ** Runs that leave the model *)

(** [Fault]: the C code read a byte outside what its buffer holds (or
    divided by zero); C gives such a run no meaning. *)
Inductive res (A : Type) : Type :=
| Ret (a : A)
| Fault.
Arguments Ret {A} a.
Arguments Fault {A}.

Definition bind {A B : Type} (r : res A) (k : A -> res B) : res B :=
  match r with
  | Ret a => k a
  | Fault => Fault
  end.

Notation "x <- c ;; k" := (bind c (fun x => k))
  (at level 61, c at next level, right associativity).
Notation "' p <- c ;; k" := (bind c (fun x => let 'p := x in k))
  (at level 61, p pattern, c at next level, right associativity).

(** [buf[i]] *)
Definition rd (buf : list Z) (i : Z) : res Z :=
  if i <? 0 then Fault
  else match nth_error buf (Z.to_nat i) with
       | Some c => Ret c
       | None => Fault
       end.

Fixpoint upd_nat (buf : list Z) (n : nat) (v : Z) : list Z :=
  match buf, n with
  | [], _ => [v]
  | _ :: t, O => v :: t
  | c :: t, S n' => c :: upd_nat t n' v
  end.

(** [buf[i] = v], for [i] inside the bytes stored so far or just behind
    them. *)
Definition wr (buf : list Z) (i : Z) (v : Z) : list Z :=
  upd_nat buf (Z.to_nat i) v.

(* ------------------------------------------------------------------ *)
(** ** The C library functions the client calls *)

(** [isspace] in the C locale. *)
Definition isspace (c : Z) : bool :=
  (c =? chr " ") || ((9 <=? c) && (c <=? 13)).

Definition isdigit (c : Z) : bool :=
  (chr "0" <=? c) && (c <=? chr "9").

Fixpoint skip_space (s : list Z) : list Z :=
  match s with
  | c :: t => if isspace c then skip_space t else s
  | [] => []
  end.

(** The digit run at the head of [s], added to [acc]; returns the value
    and what follows the run. *)
Fixpoint digit_run (acc : Z) (s : list Z) : Z * list Z :=
  match s with
  | c :: t =>
      if isdigit c then digit_run (acc * 10 + (c - chr "0")) t
      else (acc, s)
  | [] => (acc, [])
  end.

(** An optional sign at the head of [s]. *)
Definition take_sign (s : list Z) : bool * list Z :=
  match s with
  | c :: t =>
      if c =? chr "-" then (true, t)
      else if c =? chr "+" then (false, t)
      else (false, s)
  | [] => (false, [])
  end.

Definition starts_with_digit (s : list Z) : bool :=
  match s with
  | c :: _ => isdigit c
  | [] => false
  end.

(** [long] of an LP64 platform. *)
Definition LONG_MAX : Z := 2 ^ 63 - 1.
Definition LONG_MIN : Z := - 2 ^ 63.

Definition clamp_long (v : Z) : Z :=
  if v >? LONG_MAX then LONG_MAX
  else if v <? LONG_MIN then LONG_MIN
  else v.

(** [strtol (s, &end, 10)]: the value and [end].  Without a digit
    nothing is consumed: the value is 0 and [end] is [s]. *)
Definition strtol (s : list Z) : Z * list Z :=
  let '(neg, s1) := take_sign (skip_space s) in
  if starts_with_digit s1 then
    let '(v, rest) := digit_run 0 s1 in
    (clamp_long (if neg then - v else v), rest)
  else (0, s).

(** A 32-bit [int] after an operation that may leave its range. *)
Definition int_wrap (v : Z) : Z :=
  (v + 2 ^ 31) mod 2 ^ 32 - 2 ^ 31.

(* ------------------------------------------------------------------ *)
(** ** _locale_safe_string_to_float *)

(** The value of a C [float] expression, before rounding. *)
Definition float : Type := Q.

(** [divider = 1; while ( *cp != '\0') { divider *= 10; cp++; }] *)
Fixpoint count_divider (divider : Z) (cp : list Z) : Z :=
  match cp with
  | [] => divider
  | _ :: t => count_divider (int_wrap (divider * 10)) t
  end.

(** [buf] is the C string held by the caller's array of [siz] chars.
    [strtol] always sets its end pointer, so the source's test
    [dot == NULL] never holds. *)
Definition _locale_safe_string_to_float (buf : list Z) (siz : Z) : float :=
  (* buf[siz-1] = '\0' *)
  let buf := firstn (Z.to_nat (siz - 1)) buf in
  let is_neg := match buf with c :: _ => c =? chr "-" | [] => false end in
  let '(n, dot) := strtol buf in
  let ret : float := inject_Z n in
  match dot with
  | [] => ret
  | d :: cp =>
      if negb (d =? chr ".") then ret
      else
        let postdot : float := inject_Z (fst (strtol cp)) in
        if Qeq_bool postdot 0 then ret
        else
          let divider := count_divider 1 cp in
          if is_neg then (ret - postdot / inject_Z divider)%Q
          else (ret + postdot / inject_Z divider)%Q
  end.


(* ------------------------------------------------------------------ *)
(** ** Exit codes and flags *)

(** The codes of the system header [sysexits.h]. *)
Definition EX_OK : Z := 0.
Definition EX_USAGE : Z := 64.
Definition EX_DATAERR : Z := 65.
Definition EX_NOHOST : Z := 68.
Definition EX_UNAVAILABLE : Z := 69.
Definition EX_SOFTWARE : Z := 70.
Definition EX_OSERR : Z := 71.
Definition EX_IOERR : Z := 74.
Definition EX_TEMPFAIL : Z := 75.
Definition EX_PROTOCOL : Z := 76.
Definition EX_NOPERM : Z := 77.

(** Modelled from the spec: the verdict codes of [libspamc.h], a header
    that is not among the sources.  The specification lists IsSpam,
    NotSpam, TooBig and OutputMessage as separate members of the outcome
    taxonomy; they are given four different values here, none of them
    one of the failure codes above. *)
Definition EX_NOTSPAM : Z := 0.
Definition EX_ISSPAM : Z := 1.
Definition EX_TOOBIG : Z := 866.
Definition EX_OUTPUTMESSAGE : Z := 867.

(** Modelled from the spec: the flag bits of [libspamc.h]; the mode is
    the lowest bit, every option a bit of its own. *)
Definition SPAMC_MODE_MASK : Z := 1.
Definition SPAMC_RAW_MODE : Z := 0.
Definition SPAMC_BSMTP_MODE : Z := 1.
Definition SPAMC_SYMBOLS : Z := Z.shiftl 1 24.
Definition SPAMC_REPORT_IFSPAM : Z := Z.shiftl 1 25.
Definition SPAMC_REPORT : Z := Z.shiftl 1 26.
Definition SPAMC_USE_SSL : Z := Z.shiftl 1 27.
Definition SPAMC_SAFE_FALLBACK : Z := Z.shiftl 1 28.
Definition SPAMC_CHECK_ONLY : Z := Z.shiftl 1 29.

(** [flags & bit], as a C condition. *)
Definition flag_set (flags bit : Z) : bool := negb (Z.land flags bit =? 0).

Definition MAX_CONNECT_RETRIES : Z := 3.
Definition CONNECT_RETRY_SLEEP : Z := 1.
Definition EXPANSION_ALLOWANCE : Z := 16384.
Definition PROTOCOL_VERSION : list Z := bytes "SPAMC/1.3".

(* ------------------------------------------------------------------ *)
(** ** Descriptors *)

(** What one [read] on an input descriptor meets: bytes that are ready
    (more than asked for stay queued), or an error.  A descriptor whose
    list is empty is at end of input. *)
Inductive read_event : Type :=
| Bytes (bs : list Z)
| ReadError.

Definition stream : Type := list read_event.

(** [read (fd, buf, nbytes)]: the count returned, the bytes stored and
    the descriptor afterwards. *)
Definition sys_read (s : stream) (nbytes : Z) : Z * list Z * stream :=
  match s with
  | [] => (0, [], [])
  | ReadError :: s' => (-1, [], s')
  | Bytes bs :: s' =>
      if len bs <=? nbytes then (len bs, bs, s')
      else (Z.max 0 nbytes, firstn (Z.to_nat nbytes) bs,
            Bytes (skipn (Z.to_nat nbytes) bs) :: s')
  end.

(** [timeout_read] of utils.c.  The alarm that bounds the call and the
    retry on [EAGAIN] are not modelled: an interrupted or failed read is
    a [ReadError] of the descriptor. *)
Definition timeout_read (s : stream) (nbytes : Z) : Z * list Z * stream :=
  sys_read s nbytes.

(** The loop of [full_read].  Every round that goes on has stored at least
    one byte, so [min - total] rounds are enough: when [fuel] is used up
    the test [total < min] of the source fails. *)
Fixpoint full_read_loop (fuel : nat) (s : stream) (min len total : Z)
    (buf : list Z) : Z * list Z * stream :=
  match fuel with
  | O => (total, buf, s)
  | S fuel' =>
      if total <? min then
        let '(thistime, bs, s') := timeout_read s (len - total) in
        if thistime <? 0 then (-1, buf, s')
        else if thistime =? 0 then (total, buf, s')
        else full_read_loop fuel' s' min len (total + thistime) (buf ++ bs)
      else (total, buf, s)
  end.

(** [full_read (fd, buf, min, len)]: the value returned, the bytes stored
    in [buf], the descriptor afterwards. *)
Definition full_read (s : stream) (min len : Z) : Z * list Z * stream :=
  full_read_loop (Z.to_nat min) s min len 0 [].

(** An output descriptor: the bytes written so far, and the number of
    bytes it still takes before writes fail ([None]: no limit). *)
Record sink : Type := { written : list Z; room : option Z }.

(** [write (fd, buf, nbytes)] with the [nbytes] bytes [bs]. *)
Definition sys_write (k : sink) (bs : list Z) : Z * sink :=
  match room k with
  | None => (len bs, {| written := written k ++ bs; room := None |})
  | Some r =>
      if r <=? 0 then (-1, k)
      else
        let n := Z.min r (len bs) in
        (n, {| written := written k ++ firstn (Z.to_nat n) bs;
               room := Some (r - n) |})
  end.

(** The loop of [full_write]; [len - total] rounds are enough, as every
    write that does not fail takes at least one byte.  The model's
    descriptors never report [EINTR] or [EAGAIN]. *)
Fixpoint full_write_loop (fuel : nat) (k : sink) (buf : list Z)
    (len total : Z) : Z * sink :=
  match fuel with
  | O => (total, k)
  | S fuel' =>
      if total <? len then
        let '(thistime, k') :=
          sys_write k (firstn (Z.to_nat (len - total))
                              (skipn (Z.to_nat total) buf)) in
        if thistime <? 0 then (thistime, k')
        else full_write_loop fuel' k' buf len (total + thistime)
      else (total, k)
  end.

(** [full_write (fd, buf, len)] *)
Definition full_write (k : sink) (buf : list Z) (len : Z) : Z * sink :=
  full_write_loop (Z.to_nat len) k buf len 0.

(* ------------------------------------------------------------------ *)
(** ** The world around one call *)

(** The error numbers the source tells apart. *)
Inductive errno_t : Type :=
| EPROTONOSUPPORT | EINVAL | EACCES | ENFILE | EMFILE | ENOBUFS | ENOMEM
| EBADF | EFAULT | ENOTSOCK | EISCONN | EADDRINUSE | EINPROGRESS | EALREADY
| EAFNOSUPPORT | ECONNREFUSED | ETIMEDOUT | ENETUNREACH
| EOTHER (n : Z).

Inductive h_errno_t : Type :=
| HOST_NOT_FOUND | NO_ADDRESS | NO_RECOVERY | TRY_AGAIN
| H_OTHER (n : Z).

(** The calls made on the network, oldest first. *)
Inductive net_event : Type :=
| EvSocket
| EvConnect (addr : Z) (port : Z)
| EvSleep (seconds : Z)
| EvShutdown (how : Z)
| EvClose.

(** - [w_in], [w_out]: the input and output descriptors of the call;
    - [w_malloc]: the outcomes of the coming [malloc] calls ([false]: NULL;
      an empty list: every call succeeds);
    - [w_dns]: [gethostbyname], an error or the address list of the host;
    - [w_socket]: the error of [socket], if it fails;
    - [w_connect n a]: the error of the [n]-th [connect] of the run (from 0)
      when it dials address [a], if it fails;
    - [w_peer]: what the daemon sends on the connection;
    - [w_sent]: what has been written to the connection;
    - [w_log]: the network calls made so far. *)
Record world : Type := {
  w_in : stream;
  w_out : sink;
  w_malloc : list bool;
  w_dns : string -> h_errno_t + list Z;
  w_socket : option errno_t;
  w_connect : nat -> Z -> option errno_t;
  w_peer : stream;
  w_sent : sink;
  w_log : list net_event
}.

Definition set_w_in (w : world) (v : stream) : world :=
  {| w_in := v; w_out := w_out w; w_malloc := w_malloc w;
     w_dns := w_dns w; w_socket := w_socket w; w_connect := w_connect w;
     w_peer := w_peer w; w_sent := w_sent w; w_log := w_log w |}.

Definition set_w_out (w : world) (v : sink) : world :=
  {| w_in := w_in w; w_out := v; w_malloc := w_malloc w; w_dns := w_dns w;
     w_socket := w_socket w; w_connect := w_connect w; w_peer := w_peer w;
     w_sent := w_sent w; w_log := w_log w |}.

Definition set_w_malloc (w : world) (v : list bool) : world :=
  {| w_in := w_in w; w_out := w_out w; w_malloc := v; w_dns := w_dns w;
     w_socket := w_socket w; w_connect := w_connect w; w_peer := w_peer w;
     w_sent := w_sent w; w_log := w_log w |}.

Definition set_w_peer (w : world) (v : stream) : world :=
  {| w_in := w_in w; w_out := w_out w; w_malloc := w_malloc w;
     w_dns := w_dns w; w_socket := w_socket w; w_connect := w_connect w;
     w_peer := v; w_sent := w_sent w; w_log := w_log w |}.

Definition set_w_sent (w : world) (v : sink) : world :=
  {| w_in := w_in w; w_out := w_out w; w_malloc := w_malloc w;
     w_dns := w_dns w; w_socket := w_socket w; w_connect := w_connect w;
     w_peer := w_peer w; w_sent := v; w_log := w_log w |}.

Definition set_w_log (w : world) (v : list net_event) : world :=
  {| w_in := w_in w; w_out := w_out w; w_malloc := w_malloc w;
     w_dns := w_dns w; w_socket := w_socket w; w_connect := w_connect w;
     w_peer := w_peer w; w_sent := w_sent w; w_log := v |}.

Definition malloc (w : world) : bool * world :=
  match w_malloc w with
  | [] => (true, w)
  | ok :: rest => (ok, set_w_malloc w rest)
  end.

Definition log (w : world) (e : net_event) : world :=
  set_w_log w (w_log w ++ [e]).

(* ------------------------------------------------------------------ *)
(** ** struct message *)

Inductive message_type : Type :=
| MESSAGE_NONE | MESSAGE_ERROR | MESSAGE_RAW | MESSAGE_BSMTP.

(** A pointer of the struct: NULL, a place in the block [raw] was given
    by [malloc], or the start of the block the filter allocates for
    [out]; [Uninit] is what a pointer of a [struct message] holds that
    was declared and never assigned: no block, and not NULL either. *)
Inductive ptr : Type :=
| NULL
| InRaw (off : Z)
| InOut
| Uninit.

(** The fields of [struct message] of libspamc.h, by the names the source
    uses, and the bytes the two heap blocks hold ([raw_block],
    [out_block]).  [pre], [msg], [post] and often [out] point into the
    block of [raw]: what is stored through one of them is seen through
    the others. *)
Record message : Type := {
  max_len : Z;
  timeout : Z;
  type : message_type;
  raw : ptr; raw_len : Z;
  pre : ptr; pre_len : Z;
  msg : ptr; msg_len : Z;
  post : ptr; post_len : Z;
  content_length : Z;
  is_spam : Z;
  score : float; threshold : float;
  out : ptr; out_len : Z;
  raw_block : list Z;
  out_block : list Z
}.

Definition set_max_len (m : message) (v : Z) : message :=
  {| max_len := v; timeout := timeout m; type := type m; raw := raw m;
     raw_len := raw_len m; pre := pre m; pre_len := pre_len m;
     msg := msg m; msg_len := msg_len m; post := post m;
     post_len := post_len m; content_length := content_length m;
     is_spam := is_spam m; score := score m; threshold := threshold m;
     out := out m; out_len := out_len m; raw_block := raw_block m;
     out_block := out_block m |}.

Definition set_type (m : message) (v : message_type) : message :=
  {| max_len := max_len m; timeout := timeout m; type := v; raw := raw m;
     raw_len := raw_len m; pre := pre m; pre_len := pre_len m;
     msg := msg m; msg_len := msg_len m; post := post m;
     post_len := post_len m; content_length := content_length m;
     is_spam := is_spam m; score := score m; threshold := threshold m;
     out := out m; out_len := out_len m; raw_block := raw_block m;
     out_block := out_block m |}.

Definition set_raw (m : message) (v : ptr) : message :=
  {| max_len := max_len m; timeout := timeout m; type := type m; raw := v;
     raw_len := raw_len m; pre := pre m; pre_len := pre_len m;
     msg := msg m; msg_len := msg_len m; post := post m;
     post_len := post_len m; content_length := content_length m;
     is_spam := is_spam m; score := score m; threshold := threshold m;
     out := out m; out_len := out_len m; raw_block := raw_block m;
     out_block := out_block m |}.

Definition set_raw_len (m : message) (v : Z) : message :=
  {| max_len := max_len m; timeout := timeout m; type := type m;
     raw := raw m; raw_len := v; pre := pre m; pre_len := pre_len m;
     msg := msg m; msg_len := msg_len m; post := post m;
     post_len := post_len m; content_length := content_length m;
     is_spam := is_spam m; score := score m; threshold := threshold m;
     out := out m; out_len := out_len m; raw_block := raw_block m;
     out_block := out_block m |}.

Definition set_pre (m : message) (v : ptr) : message :=
  {| max_len := max_len m; timeout := timeout m; type := type m;
     raw := raw m; raw_len := raw_len m; pre := v; pre_len := pre_len m;
     msg := msg m; msg_len := msg_len m; post := post m;
     post_len := post_len m; content_length := content_length m;
     is_spam := is_spam m; score := score m; threshold := threshold m;
     out := out m; out_len := out_len m; raw_block := raw_block m;
     out_block := out_block m |}.

Definition set_pre_len (m : message) (v : Z) : message :=
  {| max_len := max_len m; timeout := timeout m; type := type m;
     raw := raw m; raw_len := raw_len m; pre := pre m; pre_len := v;
     msg := msg m; msg_len := msg_len m; post := post m;
     post_len := post_len m; content_length := content_length m;
     is_spam := is_spam m; score := score m; threshold := threshold m;
     out := out m; out_len := out_len m; raw_block := raw_block m;
     out_block := out_block m |}.

Definition set_msg (m : message) (v : ptr) : message :=
  {| max_len := max_len m; timeout := timeout m; type := type m;
     raw := raw m; raw_len := raw_len m; pre := pre m;
     pre_len := pre_len m; msg := v; msg_len := msg_len m; post := post m;
     post_len := post_len m; content_length := content_length m;
     is_spam := is_spam m; score := score m; threshold := threshold m;
     out := out m; out_len := out_len m; raw_block := raw_block m;
     out_block := out_block m |}.

Definition set_msg_len (m : message) (v : Z) : message :=
  {| max_len := max_len m; timeout := timeout m; type := type m;
     raw := raw m; raw_len := raw_len m; pre := pre m;
     pre_len := pre_len m; msg := msg m; msg_len := v; post := post m;
     post_len := post_len m; content_length := content_length m;
     is_spam := is_spam m; score := score m; threshold := threshold m;
     out := out m; out_len := out_len m; raw_block := raw_block m;
     out_block := out_block m |}.

Definition set_post (m : message) (v : ptr) : message :=
  {| max_len := max_len m; timeout := timeout m; type := type m;
     raw := raw m; raw_len := raw_len m; pre := pre m;
     pre_len := pre_len m; msg := msg m; msg_len := msg_len m; post := v;
     post_len := post_len m; content_length := content_length m;
     is_spam := is_spam m; score := score m; threshold := threshold m;
     out := out m; out_len := out_len m; raw_block := raw_block m;
     out_block := out_block m |}.

Definition set_post_len (m : message) (v : Z) : message :=
  {| max_len := max_len m; timeout := timeout m; type := type m;
     raw := raw m; raw_len := raw_len m; pre := pre m;
     pre_len := pre_len m; msg := msg m; msg_len := msg_len m;
     post := post m; post_len := v; content_length := content_length m;
     is_spam := is_spam m; score := score m; threshold := threshold m;
     out := out m; out_len := out_len m; raw_block := raw_block m;
     out_block := out_block m |}.

Definition set_content_length (m : message) (v : Z) : message :=
  {| max_len := max_len m; timeout := timeout m; type := type m;
     raw := raw m; raw_len := raw_len m; pre := pre m;
     pre_len := pre_len m; msg := msg m; msg_len := msg_len m;
     post := post m; post_len := post_len m; content_length := v;
     is_spam := is_spam m; score := score m; threshold := threshold m;
     out := out m; out_len := out_len m; raw_block := raw_block m;
     out_block := out_block m |}.

Definition set_is_spam (m : message) (v : Z) : message :=
  {| max_len := max_len m; timeout := timeout m; type := type m;
     raw := raw m; raw_len := raw_len m; pre := pre m;
     pre_len := pre_len m; msg := msg m; msg_len := msg_len m;
     post := post m; post_len := post_len m;
     content_length := content_length m; is_spam := v; score := score m;
     threshold := threshold m; out := out m; out_len := out_len m;
     raw_block := raw_block m; out_block := out_block m |}.

Definition set_score (m : message) (v : float) : message :=
  {| max_len := max_len m; timeout := timeout m; type := type m;
     raw := raw m; raw_len := raw_len m; pre := pre m;
     pre_len := pre_len m; msg := msg m; msg_len := msg_len m;
     post := post m; post_len := post_len m;
     content_length := content_length m; is_spam := is_spam m; score := v;
     threshold := threshold m; out := out m; out_len := out_len m;
     raw_block := raw_block m; out_block := out_block m |}.

Definition set_threshold (m : message) (v : float) : message :=
  {| max_len := max_len m; timeout := timeout m; type := type m;
     raw := raw m; raw_len := raw_len m; pre := pre m;
     pre_len := pre_len m; msg := msg m; msg_len := msg_len m;
     post := post m; post_len := post_len m;
     content_length := content_length m; is_spam := is_spam m;
     score := score m; threshold := v; out := out m; out_len := out_len m;
     raw_block := raw_block m; out_block := out_block m |}.

Definition set_out (m : message) (v : ptr) : message :=
  {| max_len := max_len m; timeout := timeout m; type := type m;
     raw := raw m; raw_len := raw_len m; pre := pre m;
     pre_len := pre_len m; msg := msg m; msg_len := msg_len m;
     post := post m; post_len := post_len m;
     content_length := content_length m; is_spam := is_spam m;
     score := score m; threshold := threshold m; out := v;
     out_len := out_len m; raw_block := raw_block m;
     out_block := out_block m |}.

Definition set_out_len (m : message) (v : Z) : message :=
  {| max_len := max_len m; timeout := timeout m; type := type m;
     raw := raw m; raw_len := raw_len m; pre := pre m;
     pre_len := pre_len m; msg := msg m; msg_len := msg_len m;
     post := post m; post_len := post_len m;
     content_length := content_length m; is_spam := is_spam m;
     score := score m; threshold := threshold m; out := out m;
     out_len := v; raw_block := raw_block m; out_block := out_block m |}.

Definition set_raw_block (m : message) (v : list Z) : message :=
  {| max_len := max_len m; timeout := timeout m; type := type m;
     raw := raw m; raw_len := raw_len m; pre := pre m;
     pre_len := pre_len m; msg := msg m; msg_len := msg_len m;
     post := post m; post_len := post_len m;
     content_length := content_length m; is_spam := is_spam m;
     score := score m; threshold := threshold m; out := out m;
     out_len := out_len m; raw_block := v; out_block := out_block m |}.

Definition set_out_block (m : message) (v : list Z) : message :=
  {| max_len := max_len m; timeout := timeout m; type := type m;
     raw := raw m; raw_len := raw_len m; pre := pre m;
     pre_len := pre_len m; msg := msg m; msg_len := msg_len m;
     post := post m; post_len := post_len m;
     content_length := content_length m; is_spam := is_spam m;
     score := score m; threshold := threshold m; out := out m;
     out_len := out_len m; raw_block := raw_block m; out_block := v |}.

(** [p == q].  A pointer that was never assigned is equal to nothing,
    NULL included: whatever is then done with it is not defined. *)
Definition ptr_eqb (p q : ptr) : bool :=
  match p, q with
  | NULL, NULL => true
  | InRaw a, InRaw b => a =? b
  | InOut, InOut => true
  | _, _ => false
  end.

(** The [n] bytes of [l] from offset [off]. *)
Definition slice (l : list Z) (off n : Z) : res (list Z) :=
  if n <=? 0 then Ret []
  else if (0 <=? off) && (off + n <=? len l)
       then Ret (firstn (Z.to_nat n) (skipn (Z.to_nat off) l))
       else Fault.

(** The [n] bytes [p] points to. *)
Definition load (m : message) (p : ptr) (n : Z) : res (list Z) :=
  match p with
  | NULL => if n <=? 0 then Ret [] else Fault
  | InRaw off => slice (raw_block m) off n
  | InOut => slice (out_block m) 0 n
  | Uninit => Fault
  end.

Definition clear_message (m : message) : message :=
  {| max_len := max_len m; timeout := timeout m;
     type := MESSAGE_NONE;
     raw := NULL; raw_len := 0;
     pre := NULL; pre_len := 0;
     msg := NULL; msg_len := 0;
     post := NULL; post_len := 0;
     content_length := -1;
     is_spam := EX_TOOBIG;
     score := 0%Q; threshold := 0%Q;
     out := NULL; out_len := 0;
     raw_block := raw_block m; out_block := out_block m |}.

(* ------------------------------------------------------------------ *)
(** ** message_read *)

Definition message_read_raw (w : world) (m : message)
  : Z * message * world :=
  let m := clear_message m in
  let '(ok, w) := malloc w in
  if negb ok then (EX_OSERR, m, w)
  else
    let m := set_raw_block (set_raw m (InRaw 0)) [] in
    let '(n, bs, s') := full_read (w_in w) (max_len m + 1) (max_len m + 1) in
    let w := set_w_in w s' in
    let m := set_raw_len (set_raw_block m bs) n in
    if raw_len m <=? 0 then
      (* free(m->raw); m->raw=NULL; m->raw_len=0; *)
      (EX_IOERR, set_raw_len (set_raw (set_raw_block m []) NULL) 0, w)
    else
      let m := set_type m MESSAGE_ERROR in
      if raw_len m >? max_len m then (EX_TOOBIG, m, w)
      else
        let m := set_type m MESSAGE_RAW in
        let m := set_msg m (raw m) in
        let m := set_msg_len m (raw_len m) in
        let m := set_out m (msg m) in
        let m := set_out_len m (msg_len m) in
        (EX_OK, m, w).

(** The test of the DATA search at index [i]:
    [raw[i]=='\n' && (raw[i+1]=='D' || raw[i+1]=='d') && ... &&
     ((raw[i+5]=='\r' && raw[i+6]=='\n') || raw[i+5]=='\n')],
    each byte read only when C's [&&] and [||] get to it. *)
Definition is_data_line (raw : list Z) (i : Z) : res bool :=
  c0 <- rd raw i ;;
  if negb (c0 =? LF) then Ret false else
  c1 <- rd raw (i + 1) ;;
  if negb ((c1 =? chr "D") || (c1 =? chr "d")) then Ret false else
  c2 <- rd raw (i + 2) ;;
  if negb ((c2 =? chr "A") || (c2 =? chr "a")) then Ret false else
  c3 <- rd raw (i + 3) ;;
  if negb ((c3 =? chr "T") || (c3 =? chr "t")) then Ret false else
  c4 <- rd raw (i + 4) ;;
  if negb ((c4 =? chr "A") || (c4 =? chr "a")) then Ret false else
  c5 <- rd raw (i + 5) ;;
  if c5 =? CR then
    c6 <- rd raw (i + 6) ;;
    if c6 =? LF then Ret true else Ret (c5 =? LF)
  else Ret (c5 =? LF).

(** [for(i=0; i<m->raw_len-6; i++)]: the value of [i] at the [break],
    after [i+=6] and the step over a CR, or [None] when the loop runs to
    its end and [m->msg] stays NULL. *)
Fixpoint find_data (fuel : nat) (raw : list Z) (raw_len i : Z)
  : res (option Z) :=
  match fuel with
  | O => Ret None
  | S fuel' =>
      if i <? raw_len - 6 then
        hit <- is_data_line raw i ;;
        if hit then
          let i := i + 6 in
          c <- rd raw (i - 1) ;;
          Ret (Some (if c =? CR then i + 1 else i))
        else find_data fuel' raw raw_len (i + 1)
      else Ret None
  end.

(** The variables of the loop that looks for the end of the data:
    the block [msg] points into, the two indices and [prev]. *)
Record scan : Type := {
  s_buf : list Z;
  s_i : Z;
  s_j : Z;
  s_prev : Z
}.

(** The loop variables before the first round: [i=j=0], [prev='\n']. *)
Definition scan_start (buf : list Z) : scan :=
  {| s_buf := buf; s_i := 0; s_j := 0; s_prev := LF |}.

(** How one round of that loop ends: it goes on to the next round (after
    the [i++] of the [for]), or it leaves at the lone dot. *)
Inductive scan_step : Type :=
| GoOn (s : scan)
| LoneDot (s : scan).

(** [prev=m->msg[i]; m->msg[j++]=m->msg[i];] and the [i++] of the loop. *)
Definition copy_char (base : Z) (s : scan) : res scan_step :=
  c <- rd (s_buf s) (base + s_i s) ;;
  Ret (GoOn {| s_buf := wr (s_buf s) (base + s_j s) c;
               s_i := s_i s + 1;
               s_j := s_j s + 1;
               s_prev := c |}).

(** The body of the loop; [m->msg[k]] is the byte at [base + k] of the
    block. *)
Definition unstuff_body (base : Z) (s : scan) : res scan_step :=
  let i := s_i s in
  if s_prev s =? LF then
    c <- rd (s_buf s) (base + i) ;;
    if c =? chr "." then
      (* Dot at the beginning of a line *)
      c1 <- rd (s_buf s) (base + i + 1) ;;
      lone <- (if c1 =? CR then
                 c2 <- rd (s_buf s) (base + i + 2) ;;
                 if c2 =? LF then Ret true else Ret (c1 =? LF)
               else Ret (c1 =? LF)) ;;
      if lone then Ret (LoneDot s)
      else if c1 =? chr "." then
        (* Escaping dot, eliminate. *)
        Ret (GoOn {| s_buf := s_buf s; s_i := i + 1; s_j := s_j s;
                     s_prev := chr "." |})
      else copy_char base s
    else copy_char base s
  else copy_char base s.

(** [for(i=j=0; i<m->msg_len; i++)]; [i] grows by one each round, so
    [msg_len - i] rounds are all there are. *)
Fixpoint unstuff_loop (fuel : nat) (base msg_len : Z) (s : scan)
  : res scan_step :=
  match fuel with
  | O => Ret (GoOn s)
  | S fuel' =>
      if s_i s <? msg_len then
        r <- unstuff_body base s ;;
        match r with
        | GoOn s' => unstuff_loop fuel' base msg_len s'
        | LoneDot s' => Ret (LoneDot s')
        end
      else Ret (GoOn s)
  end.

Definition message_read_bsmtp (w : world) (m : message)
  : res (Z * message * world) :=
  let m := clear_message m in
  let '(ok, w) := malloc w in
  if negb ok then Ret (EX_OSERR, m, w)
  else
    let m := set_raw_block (set_raw m (InRaw 0)) [] in
    (* Find the DATA line *)
    let '(n, bs, s') := full_read (w_in w) (max_len m + 1) (max_len m + 1) in
    let w := set_w_in w s' in
    let m := set_raw_len (set_raw_block m bs) n in
    if raw_len m <=? 0 then
      Ret (EX_IOERR, set_raw_len (set_raw (set_raw_block m []) NULL) 0, w)
    else
      let m := set_type m MESSAGE_ERROR in
      if raw_len m >? max_len m then Ret (EX_TOOBIG, m, w)
      else
        let m := set_pre m (raw m) in
        found <- find_data (Z.to_nat (raw_len m - 6)) (raw_block m)
                           (raw_len m) 0 ;;
        match found with
        | None => Ret (EX_DATAERR, m, w)
        | Some i =>
            let m := set_pre_len m i in
            let m := set_msg m (InRaw i) in
            let m := set_msg_len m (raw_len m - i) in
            (* Find the end-of-DATA line *)
            r <- unstuff_loop (Z.to_nat (msg_len m)) i (msg_len m)
                   (scan_start (raw_block m)) ;;
            let m :=
              match r with
              | LoneDot s =>
                  (* Lone dot! That's all, folks *)
                  let m := set_raw_block m (s_buf s) in
                  let m := set_post m (InRaw (i + s_i s)) in
                  let m := set_post_len m (msg_len m - s_i s) in
                  set_msg_len m (s_j s)
              | GoOn s => set_raw_block m (s_buf s)
              end in
            let m := set_type m MESSAGE_BSMTP in
            let m := set_out m (msg m) in
            let m := set_out_len m (msg_len m) in
            Ret (EX_OK, m, w)
        end.

(** The global [libspamc_timeout] only arms the alarm of [timeout_read]
    and has no part in the model. *)
Definition message_read (w : world) (flags : Z) (m : message)
  : res (Z * message * world) :=
  let mode := Z.land flags SPAMC_MODE_MASK in
  if mode =? SPAMC_RAW_MODE then Ret (message_read_raw w m)
  else if mode =? SPAMC_BSMTP_MODE then message_read_bsmtp w m
  else Ret (EX_USAGE, m, w).

(* ------------------------------------------------------------------ *)
(** ** message_write and message_dump *)

(** [full_write (fd, p, n)] for a pointer of the message. *)
Definition write_from (k : sink) (m : message) (p : ptr) (n : Z)
  : res (Z * sink) :=
  bs <- load m p n ;;
  Ret (full_write k bs n).

(** The inner loop of the BSMTP case, which fills [buffer] from [out]:
    [for(j=0; i < m->out_len && j < jlimit;)].  [buffer] is the list of
    the [j] bytes stored so far.  [j] grows each round, so [jlimit]
    rounds are enough. *)
Fixpoint fill_buffer (fuel : nat) (o : list Z) (out_len jlimit i j : Z)
    (buffer : list Z) : res (Z * Z * list Z) :=
  match fuel with
  | O => Ret (i, j, buffer)
  | S fuel' =>
      if (i <? out_len) && (j <? jlimit) then
        stuff <- (if i + 1 <? out_len then
                    c0 <- rd o i ;;
                    if c0 =? LF then
                      c1 <- rd o (i + 1) ;; Ret (c1 =? chr ".")
                    else Ret false
                  else Ret false) ;;
        if stuff then
          if j >? jlimit - 4 then Ret (i, j, buffer)  (* avoid overflow *)
          else
            c0 <- rd o i ;;
            c1 <- rd o (i + 1) ;;
            fill_buffer fuel' o out_len jlimit (i + 2) (j + 3)
                        (buffer ++ [c0; c1; chr "."])
        else
          c0 <- rd o i ;;
          fill_buffer fuel' o out_len jlimit (i + 1) (j + 1)
                      (buffer ++ [c0])
      else Ret (i, j, buffer)
  end.

(** The outer loop, [for(i=0; i<m->out_len; )]: one buffer is filled and
    written per round, and [i] grows each round. *)
Fixpoint write_stuffed (fuel : nat) (k : sink) (o : list Z)
    (out_len i total : Z) : res (Z * sink) :=
  match fuel with
  | O => Ret (total, k)
  | S fuel' =>
      if i <? out_len then
        let jlimit := 1024 - 4 in
        '(i', j, buffer) <-
          fill_buffer (Z.to_nat jlimit) o out_len jlimit i 0 [] ;;
        let '(n, k') := full_write k buffer j in
        write_stuffed fuel' k' o out_len i' (total + n)
      else Ret (total, k)
  end.

Definition message_write (k : sink) (m : message) : res (Z * sink) :=
  if (is_spam m =? EX_ISSPAM) || (is_spam m =? EX_NOTSPAM) then
    write_from k m (out m) (out_len m)
  else if negb (is_spam m =? EX_OUTPUTMESSAGE)
          && negb (is_spam m =? EX_TOOBIG) then
    Ret (-1, k)
  else
    match type m with
    | MESSAGE_NONE => Ret (-1, k)
    | MESSAGE_ERROR => write_from k m (raw m) (raw_len m)
    | MESSAGE_RAW => write_from k m (out m) (out_len m)
    | MESSAGE_BSMTP =>
        '(total, k) <- write_from k m (pre m) (pre_len m) ;;
        o <- load m (out m) (out_len m) ;;
        '(total, k) <- write_stuffed (Z.to_nat (out_len m)) k o
                         (out_len m) 0 total ;;
        '(n, k) <- write_from k m (post m) (post_len m) ;;
        Ret (total + n, k)
    end.

(** The bytes a descriptor still has to give. *)
Fixpoint pending (s : stream) : nat :=
  match s with
  | [] => O
  | Bytes bs :: s' => (List.length bs + pending s')%nat
  | ReadError :: s' => pending s'
  end.

(** [while((bytes=full_read(in_fd, buf, 8192, 8192))>0)]: every round
    that goes on has taken a byte from the descriptor. *)
Fixpoint message_dump_loop (fuel : nat) (s : stream) (k : sink)
  : stream * sink :=
  match fuel with
  | O => (s, k)
  | S fuel' =>
      let '(nbytes, buf, s') := full_read s 8192 8192 in
      if nbytes >? 0 then
        let '(_, k') := full_write k buf nbytes in
        message_dump_loop fuel' s' k'
      else (s', k)
  end.

Definition message_dump (w : world) (m : message) : res world :=
  w <- (match type m with
        | MESSAGE_NONE => Ret w
        | _ => '(_, k) <- message_write (w_out w) m ;;
               Ret (set_w_out w k)
        end) ;;
  let '(s, k) :=
    message_dump_loop (S (pending (w_in w))) (w_in w) (w_out w) in
  Ret (set_w_out (set_w_in w s) k).

(* ------------------------------------------------------------------ *)
(** ** sscanf, snprintf and strcasecmp, as far as the client uses them *)

(** The directives of a format: white space, an ordinary character,
    [%s] with an optional width and an optional [*], and [%d]. *)
Inductive directive : Type :=
| DSpace
| DLit (c : Z)
| DStr (width : option Z) (assign : bool)
| DInt.

(** Where the reading of a format stands: between directives, or inside a
    conversion after its [%]. *)
Inductive fmt_state : Type :=
| FPlain
| FConv (assign : bool) (width : option Z).

Fixpoint parse_format (st : fmt_state) (fmt : list Z) : list directive :=
  match fmt with
  | [] => []
  | c :: t =>
      match st with
      | FPlain =>
          if c =? chr "%" then parse_format (FConv true None) t
          else if isspace c then DSpace :: parse_format FPlain t
          else DLit c :: parse_format FPlain t
      | FConv assign width =>
          if c =? chr "*" then parse_format (FConv false width) t
          else if isdigit c then
            let w := match width with Some w => w | None => 0 end in
            parse_format (FConv assign (Some (w * 10 + (c - chr "0")))) t
          else if c =? chr "d" then DInt :: parse_format FPlain t
          else DStr width assign :: parse_format FPlain t
      end
  end.

(** At most [n] leading characters of [s] that are not white space, and
    what follows them. *)
Fixpoint take_word (n : nat) (s : list Z) : list Z * list Z :=
  match n, s with
  | S n', c :: t =>
      if isspace c then ([], s)
      else let '(word, rest) := take_word n' t in (c :: word, rest)
  | _, _ => ([], s)
  end.

Inductive scanned : Type :=
| SStr (s : list Z)
| SInt (n : Z).

Definition EOF : Z := -1.

(** [sscanf] on the C string [s]: the value returned and the items
    assigned, in order.  [conv] tells whether a conversion has been
    completed; an input failure before that returns [EOF]. *)
Fixpoint sscanf_run (fmt : list directive) (s : list Z) (conv : bool)
    (items : list scanned) : Z * list scanned :=
  let input_failure := (if conv then len items else EOF, items) in
  match fmt with
  | [] => (len items, items)
  | DSpace :: fmt' => sscanf_run fmt' (skip_space s) conv items
  | DLit c :: fmt' =>
      match s with
      | [] => input_failure
      | x :: s' =>
          if x =? c then sscanf_run fmt' s' conv items
          else (len items, items)
      end
  | DStr width assign :: fmt' =>
      match skip_space s with
      | [] => input_failure
      | s1 =>
          let n := match width with
                   | Some w => Z.to_nat w
                   | None => List.length s1
                   end in
          let '(word, rest) := take_word n s1 in
          sscanf_run fmt' rest true
                     (if assign then items ++ [SStr word] else items)
      end
  | DInt :: fmt' =>
      match skip_space s with
      | [] => input_failure
      | s1 =>
          let '(neg, s2) := take_sign s1 in
          if starts_with_digit s2 then
            let '(v, rest) := digit_run 0 s2 in
            sscanf_run fmt' rest true
                       (items ++ [SInt (int_wrap (if neg then - v else v))])
          else (len items, items)
      end
  end.

Definition sscanf (s : list Z) (fmt : string) : Z * list scanned :=
  sscanf_run (parse_format FPlain (bytes fmt)) s false [].

(** A scanned word stored, with its NUL, in a [char] array of [cap]
    elements; a longer word runs over the array. *)
Definition fits (cap : Z) (item : option scanned) : bool :=
  match item with
  | Some (SStr word) => len word + 1 <=? cap
  | _ => true
  end.

Definition item_str (item : option scanned) : list Z :=
  match item with
  | Some (SStr word) => word
  | _ => []
  end.

Definition item_int (item : option scanned) : Z :=
  match item with
  | Some (SInt n) => n
  | _ => 0
  end.

Definition tolower (c : Z) : Z :=
  if (chr "A" <=? c) && (c <=? chr "Z") then c + 32 else c.

(** [strcasecmp (a, b) == 0] *)
Fixpoint strcaseeq (a b : list Z) : bool :=
  match a, b with
  | [], [] => true
  | x :: a', y :: b' => (tolower x =? tolower y) && strcaseeq a' b'
  | _, _ => false
  end.

(** [%d] *)
Definition decimal (n : Z) : list Z :=
  bytes (NilZero.string_of_int (Z.to_int n)).

(** [%.1f] of the rational [q]: the nearest tenth, a tie going to the
    even digit.  C rounds the binary value of the [float], which can lie
    on the other side of a tie. *)
Definition fmt_1f (q : float) : list Z :=
  let neg := Qlt_le_dec q 0 in
  let a := Qabs q in
  let t10 := Qnum a * 10 in
  let d := Zpos (Qden a) in
  let lo := t10 / d in
  let r2 := 2 * (t10 mod d) in
  let t := if r2 <? d then lo
           else if d <? r2 then lo + 1
           else if Z.even lo then lo else lo + 1 in
  (if neg then bytes "-" else [])
    ++ decimal (t / 10) ++ bytes "." ++ decimal (t mod 10).

(* ------------------------------------------------------------------ *)
(** ** try_to_connect *)

(** The [switch(origerr)] after a failed [socket]. *)
Definition socket_error_code (e : errno_t) : Z :=
  match e with
  | EPROTONOSUPPORT | EINVAL => EX_SOFTWARE
  | EACCES => EX_NOPERM
  | ENFILE | EMFILE | ENOBUFS | ENOMEM => EX_OSERR
  | _ => EX_SOFTWARE
  end.

(** The [switch(origerr)] after the last failed [connect]. *)
Definition connect_error_code (e : errno_t) : Z :=
  match e with
  | EBADF | EFAULT | ENOTSOCK | EISCONN | EADDRINUSE | EINPROGRESS
  | EALREADY | EAFNOSUPPORT => EX_SOFTWARE
  | ECONNREFUSED | ETIMEDOUT | ENETUNREACH => EX_UNAVAILABLE
  | EACCES => EX_NOPERM
  | _ => EX_SOFTWARE
  end.

(** The copy of [hent->h_addr_list] into [inaddrlist]:
    [for (hostnum=0; hent->h_addr_list[hostnum] != 0; hostnum++)], left
    at the 257th address.  Returns [hostnum] and the entries filled. *)
Fixpoint copy_addr_list (h_addr_list : list Z) (hostnum : Z)
    (inaddrlist : list Z) : Z * list Z :=
  match h_addr_list with
  | [] => (hostnum, inaddrlist)
  | a :: rest =>
      if hostnum >? 255 then (hostnum, inaddrlist)
      else copy_addr_list rest (hostnum + 1) (inaddrlist ++ [a])
  end.

Definition is_connect (e : net_event) : bool :=
  match e with
  | EvConnect _ _ => true
  | _ => false
  end.

(** The number of [connect] calls made so far. *)
Definition connects (l : list net_event) : nat :=
  List.length (filter is_connect l).

(** [for (numloops=0; numloops < MAX_CONNECT_RETRIES; numloops++)].
    Returns whether a [connect] succeeded, and [origerr], which holds
    nothing until a [connect] has failed. *)
Fixpoint connect_loop (fuel : nat) (w : world) (argaddr : option (Z * Z))
    (inaddrlist : list Z) (hostnum hent_port numloops : Z)
    (origerr : option errno_t) : res (bool * option errno_t * world) :=
  match fuel with
  | O => Ret (false, origerr, w)
  | S fuel' =>
      if numloops <? MAX_CONNECT_RETRIES then
        addr <- match argaddr with
                | Some a => Ret a     (* use the one provided *)
                | None =>
                    (* cycle through the addrs in hent *)
                    if hostnum =? 0 then Fault
                    else a <- rd inaddrlist (Z.rem numloops hostnum) ;;
                         Ret (a, hent_port)
                end ;;
        let status := w_connect w (connects (w_log w)) (fst addr) in
        let w := log w (EvConnect (fst addr) (snd addr)) in
        match status with
        | Some e =>
            connect_loop fuel' (log w (EvSleep CONNECT_RETRY_SLEEP))
                         argaddr inaddrlist hostnum hent_port
                         (numloops + 1) (Some e)
        | None => Ret (true, origerr, w)
        end
      else Ret (false, origerr, w)
  end.

(** [argaddr] is an address and a port, [hent] the address list of a
    [struct hostent].  The socket the call hands back is the one
    connection of the world, so only the code is returned. *)
Definition try_to_connect (w : world) (argaddr : option (Z * Z))
    (hent : option (list Z)) (hent_port : Z) : res (Z * world) :=
  match argaddr, hent with
  | None, None => Ret (EX_SOFTWARE, w)
  | Some _, Some _ => Ret (EX_SOFTWARE, w)
  | _, _ =>
      let '(hostnum, inaddrlist) :=
        match hent with
        | Some l => copy_addr_list l 0 []
        | None => (0, [])
        end in
      let w := log w EvSocket in
      match w_socket w with
      | Some e => Ret (socket_error_code e, w)
      | None =>
          '(connected, origerr, w) <-
            connect_loop (Z.to_nat MAX_CONNECT_RETRIES) w argaddr
                         inaddrlist hostnum hent_port 0 None ;;
          if connected then Ret (EX_OK, w)
          else
            (* failed, even with a few retries *)
            let w := log w EvClose in
            match origerr with
            | Some e => Ret (connect_error_code e, w)
            | None => Fault
            end
      end
  end.

(* ------------------------------------------------------------------ *)
(** ** The codec: _message_filter and its helpers *)

(** One [snprintf (buf+len, bufsiz-len, ...)] of the request, followed by
    the test [len >= bufsiz] of the source: the request so far with
    [part] added, or [None] when it does not fit. *)
Definition add_part (buf : list Z) (part : list Z) (bufsiz : Z)
  : option (list Z) :=
  if len buf + len part >=? bufsiz then None else Some (buf ++ part).

Definition request_line (flags : Z) : list Z :=
  (if flag_set flags SPAMC_CHECK_ONLY then bytes "CHECK "
   else if flag_set flags SPAMC_REPORT_IFSPAM then bytes "REPORT_IFSPAM "
   else if flag_set flags SPAMC_REPORT then bytes "REPORT "
   else if flag_set flags SPAMC_SYMBOLS then bytes "SYMBOLS "
   else bytes "PROCESS ")
  ++ PROTOCOL_VERSION ++ [CR; LF].

(** Build spamd protocol header *)
Definition build_request (flags : Z) (username : option (list Z))
    (m : message) (bufsiz : Z) : option (list Z) :=
  match add_part [] (request_line flags) bufsiz with
  | None => None
  | Some buf =>
      match (match username with
             | Some u =>
                 add_part buf (bytes "User: " ++ u ++ [CR; LF]) bufsiz
             | None => Some buf
             end) with
      | None => None
      | Some buf =>
          match add_part buf (bytes "Content-length: "
                                ++ decimal (msg_len m) ++ [CR; LF])
                         bufsiz with
          | None => None
          | Some buf => add_part buf [CR; LF] bufsiz
          end
      end
  end.

(** [buf] is the array of the caller as far as it has been written.  A
    byte that arrives is stored at [buf[len]]; after a read that brought
    nothing [buf[len]] is whatever was there before.  [bufsiz - 1] rounds
    are all the [for] allows.  Returns the code, the array, [len] and the
    descriptor. *)
Fixpoint read_line_loop (fuel : nat) (s : stream) (buf : list Z)
    (len bufsiz : Z) : res (Z * list Z * Z * stream) :=
  match fuel with
  | O => Ret (EX_TOOBIG, buf, len, s)
  | S fuel' =>
      if len <? bufsiz - 1 then
        let '(bytesread, bs, s') := timeout_read s 1 in
        let buf := match bs with
                   | c :: _ => wr buf len c
                   | [] => buf
                   end in
        c <- rd buf len ;;
        if c =? LF then
          let buf := wr buf len NUL in
          cr <- (if len >? 0 then
                   c' <- rd buf (len - 1) ;; Ret (c' =? CR)
                 else Ret false) ;;
          if cr then Ret (EX_OK, wr buf (len - 1) NUL, len - 1, s')
          else Ret (EX_OK, buf, len, s')
        else if bytesread <=? 0 then Ret (EX_IOERR, buf, len, s')
        else read_line_loop fuel' s' buf (len + 1) bufsiz
      else Ret (EX_TOOBIG, buf, len, s)
  end.

Definition _spamc_read_full_line (s : stream) (buf : list Z) (bufsiz : Z)
  : res (Z * list Z * Z * stream) :=
  read_line_loop (Z.to_nat (bufsiz - 1)) s buf 0 bufsiz.

(** [snprintf (dst, size, ...)] of the text [text]: what is stored and
    the value returned. *)
Definition snprintf (size : Z) (text : list Z) : list Z * Z :=
  (if size <=? 0 then []
   else firstn (Z.to_nat (size - 1)) text ++ [NUL],
   len text).

(** The bytes [bs] stored from [p] on. *)
Definition store (m : message) (p : ptr) (bs : list Z) : res message :=
  match p with
  | NULL => Fault
  | InRaw off =>
      if (0 <=? off) && (off <=? len (raw_block m)) then
        Ret (set_raw_block m
               (firstn (Z.to_nat off) (raw_block m) ++ bs
                ++ skipn (Z.to_nat (off + len bs)) (raw_block m)))
      else Fault
  | InOut =>
      Ret (set_out_block m (bs ++ skipn (List.length bs) (out_block m)))
  | Uninit => Fault
  end.

(** [buf] is the line as a C string.  The arrays [is_spam[6]],
    [s_str[20]] and [t_str[20]] receive what [sscanf] assigns; a word
    that does not fit its array leaves the model. *)
Definition _handle_spamd_header (m : message) (flags : Z) (buf : list Z)
  : res (Z * message) :=
  let '(n, items) := sscanf buf "Spam: %5s ; %20s / %20s" in
  let is_spam_v := nth_error items 0 in
  let s_str := nth_error items 1 in
  let t_str := nth_error items 2 in
  if negb (fits 6 is_spam_v && fits 20 s_str && fits 20 t_str) then Fault
  else if n =? 3 then
    let m := set_score m (_locale_safe_string_to_float (item_str s_str) 20) in
    let m := set_threshold m
               (_locale_safe_string_to_float (item_str t_str) 20) in
    (* Format is "Spam: x; y / x" *)
    let m := set_is_spam m
               (if strcaseeq (bytes "true") (item_str is_spam_v)
                then EX_ISSPAM else EX_NOTSPAM) in
    if flag_set flags SPAMC_CHECK_ONLY then
      let '(stored, n) :=
        snprintf (max_len m + EXPANSION_ALLOWANCE)
                 (fmt_1f (score m) ++ bytes "/" ++ fmt_1f (threshold m)
                  ++ [LF]) in
      m <- store m (out m) stored ;;
      Ret (EX_OK, set_out_len m n)
    else Ret (EX_OK, m)
  else
    let '(n, items) := sscanf buf "Content-length: %d" in
    if n =? 1 then
      let m := set_content_length m (item_int (nth_error items 0)) in
      if content_length m <? 0 then Ret (EX_PROTOCOL, m)
      else Ret (EX_OK, m)
    else Ret (EX_PROTOCOL, m).

(** [free(m->out); m->out=m->msg; m->out_len=m->msg_len;] *)
Definition restore_out (m : message) : message :=
  let m := match out m with
           | InOut => set_out_block m []
           | _ => m
           end in
  set_out_len (set_out m (msg m)) (msg_len m).

(** The label [failure]; [sock_open] tells whether [sock != -1]. *)
Definition filter_failure (w : world) (m : message) (sock_open : bool)
    (failureval : Z) : Z * message * world :=
  (failureval, restore_out m, if sock_open then log w EvClose else w).

Definition SHUT_RD : Z := 0.
Definition SHUT_WR : Z := 1.

(** [while (1)]: the header lines up to the empty one.  A round that goes
    on has read a line that is not empty, so the descriptor has fewer
    bytes left each round; a run that used up [fuel] would be outside the
    model.  The result is a failure code, or [EX_OK] when the empty line
    was met; with it the message, the line buffer and the descriptor. *)
Fixpoint header_loop (fuel : nat) (flags : Z) (m : message) (s : stream)
    (buf : list Z) (bufsiz : Z) : res (Z * message * list Z * stream) :=
  match fuel with
  | O => Fault
  | S fuel' =>
      '(failureval, buf, len, s) <- _spamc_read_full_line s buf bufsiz ;;
      if negb (failureval =? EX_OK) then Ret (failureval, m, buf, s)
      else
        c0 <- (if len =? 0 then rd buf 0 else Ret NUL) ;;
        if (len =? 0) && (c0 =? NUL) then
          Ret (EX_OK, m, buf, s)            (* end of headers *)
        else
          '(code, m) <- _handle_spamd_header m flags (cstr buf) ;;
          if code <? 0 then Ret (EX_PROTOCOL, m, buf, s)
          else header_loop fuel' flags m s buf bufsiz
  end.

(** From [len = 0; /* overwrite those headers */] to the end of the
    function: the body of the response, or the verdict of a check. *)
Definition filter_body (w : world) (flags : Z) (m : message)
  : Z * message * world :=
  if flag_set flags SPAMC_CHECK_ONLY then
    let w := log w EvClose in
    if is_spam m =? EX_TOOBIG then
      (* We should have gotten headers back... *)
      filter_failure w m false EX_PROTOCOL
    else (EX_OK, m, w)
  else
    let m := set_is_spam m EX_OUTPUTMESSAGE in
    if content_length m <? 0 then
      (* should have got a length too. *)
      filter_failure w m true EX_PROTOCOL
    else
      let room := max_len m + EXPANSION_ALLOWANCE + 1 - out_len m in
      let '(len, bs, s) := full_read (w_peer w) room room in
      let w := set_w_peer w s in
      let m := set_out_block m
                 (firstn (Z.to_nat (out_len m)) (out_block m) ++ bs) in
      if len + out_len m >? max_len m + EXPANSION_ALLOWANCE then
        filter_failure w m true EX_TOOBIG
      else
        let m := set_out_len m (out_len m + len) in
        let w := log (log w (EvShutdown SHUT_RD)) EvClose in
        if negb (out_len m =? content_length m) then
          filter_failure w m false EX_PROTOCOL
        else (EX_OK, m, w).

(** From the status line to the end of the headers.  [inl]: the call
    ends with this result; [inr]: the headers are read and the call goes
    on to [filter_body]. *)
Definition filter_headers (w : world) (flags : Z) (m : message)
    (buf : list Z) (bufsiz : Z)
  : res ((Z * message * world) + (message * world)) :=
  (* ok, now read and parse it.  SPAMD/1.2 line first... *)
  '(failureval, buf, len, s) <- _spamc_read_full_line (w_peer w) buf bufsiz ;;
  let w := set_w_peer w s in
  if negb (failureval =? EX_OK) then
    Ret (inl (filter_failure w m true failureval))
  else
    let '(n, items) := sscanf (cstr buf) "SPAMD/%s %d %*s" in
    let versbuf := nth_error items 0 in
    if negb (fits 20 versbuf) then Fault
    else if negb (n =? 2) then
      Ret (inl (filter_failure w m true EX_PROTOCOL))
    else
      let version := _locale_safe_string_to_float (item_str versbuf) 20 in
      if negb (Qle_bool 1 version) then
        Ret (inl (filter_failure w m true EX_PROTOCOL))
      else
        let m := set_is_spam (set_threshold (set_score m 0%Q) 0%Q)
                             EX_TOOBIG in
        '(failureval, m, buf, s) <-
          header_loop (S (pending (w_peer w))) flags m (w_peer w)
                      buf bufsiz ;;
        let w := set_w_peer w s in
        if negb (failureval =? EX_OK) then
          Ret (inl (filter_failure w m true failureval))
        else Ret (inr (m, w)).

(** The build without [SPAMC_SSL]: the flag [SPAMC_USE_SSL] is answered
    with [EX_SOFTWARE], and every later branch on it takes the plain
    side.

    [filter_prologue] is [_message_filter] from its start to the end of
    the response headers.  [inl]: the call ends with this result; [inr]:
    the call goes on to [filter_body] with this message and world. *)
Definition filter_prologue (w : world) (addr : option (Z * Z))
    (hent : option (list Z)) (hent_port : Z) (username : option (list Z))
    (flags : Z) (m : message)
  : res ((Z * message * world) + (message * world)) :=
  let bufsiz := 8192 - 4 in          (* bit of breathing room *)
  if flag_set flags SPAMC_USE_SSL then Ret (inl (EX_SOFTWARE, m, w))
  else
    let m := set_is_spam m EX_TOOBIG in
    let '(ok, w) := malloc w in
    if negb ok then
      Ret (inl (filter_failure w (set_out m NULL) false EX_OSERR))
    else
      let m := set_out_len (set_out_block (set_out m InOut) []) 0 in
      match build_request flags username m bufsiz with
      | None => Ret (inl (EX_OSERR, restore_out m, w))
      | Some request =>
          '(i, w) <- try_to_connect w addr hent hent_port ;;
          if negb (i =? EX_OK) then Ret (inl (i, restore_out m, w))
          else
            (* Send to spamd *)
            let '(_, k) := full_write (w_sent w) request (len request) in
            body <- load m (msg m) (msg_len m) ;;
            let '(_, k) := full_write k body (msg_len m) in
            let w := log (set_w_sent w k) (EvShutdown SHUT_WR) in
            filter_headers w flags m (request ++ [NUL]) bufsiz
      end.

Definition _message_filter (w : world) (addr : option (Z * Z))
    (hent : option (list Z)) (hent_port : Z) (username : option (list Z))
    (flags : Z) (m : message) : res (Z * message * world) :=
  r <- filter_prologue w addr hent hent_port username flags m ;;
  match r with
  | inl result => Ret result
  | inr (m, w) => Ret (filter_body w flags m)
  end.

Definition message_filter (w : world) (addr : Z * Z)
    (username : option (list Z)) (flags : Z) (m : message)
  : res (Z * message * world) :=
  _message_filter w (Some addr) None 0 username flags m.

Definition message_filter_with_failover (w : world) (hent : list Z)
    (port : Z) (username : option (list Z)) (flags : Z) (m : message)
  : res (Z * message * world) :=
  _message_filter w None (Some hent) port username flags m.

(* ------------------------------------------------------------------ *)
(** ** message_process *)

(** [gethostbyname] and the [switch(origherr)]; on success the address
    list of the entry copied to [out_hent]. *)
Definition _lookup_host (w : world) (hostname : string)
  : Z * option (list Z) :=
  match w_dns w hostname with
  | inl origherr =>
      (match origherr with
       | HOST_NOT_FOUND | NO_ADDRESS | NO_RECOVERY => EX_NOHOST
       | TRY_AGAIN => EX_TEMPFAIL
       | _ => EX_OSERR
       end, None)
  | inr h_addr_list => (EX_OK, Some h_addr_list)
  end.

Definition lookup_host_for_failover (w : world) (hostname : string)
  : Z * option (list Z) :=
  _lookup_host w hostname.

(** [struct message m;] on the stack of [message_process], after
    [m.type=MESSAGE_NONE]: nothing else of it is assigned.  Its pointers
    are [Uninit] until [clear_message] or an assignment sets them.  The
    integers and the two numbers are written by [clear_message], and
    [max_len] by [message_process], before anything reads them; the
    values here are never looked at.  ([timeout] is never assigned; it
    only arms the alarm of [timeout_read], which has no part in the
    model.) *)
Definition stack_message : message :=
  {| max_len := 0; timeout := 0; type := MESSAGE_NONE;
     raw := Uninit; raw_len := 0; pre := Uninit; pre_len := 0;
     msg := Uninit; msg_len := 0; post := Uninit; post_len := 0;
     content_length := 0; is_spam := 0; score := 0%Q; threshold := 0%Q;
     out := Uninit; out_len := 0; raw_block := []; out_block := [] |}.

(** [free (p)]: defined for NULL and for what [malloc] returned, the
    start of the block of [raw] or of the block of [out]; not for a
    place inside a block, and not for a pointer that was never
    assigned. *)
Definition free (p : ptr) : res unit :=
  match p with
  | NULL => Ret tt
  | InRaw off => if off =? 0 then Ret tt else Fault
  | InOut => Ret tt
  | Uninit => Fault
  end.

(** [if (m->out != NULL && m->out != m->raw) free(m->out);
     if (m->raw != NULL) free(m->raw); clear_message(m);] *)
Definition message_cleanup (m : message) : res message :=
  _ <- (if negb (ptr_eqb (out m) NULL) && negb (ptr_eqb (out m) (raw m))
        then free (out m) else Ret tt) ;;
  _ <- (if negb (ptr_eqb (raw m) NULL) then free (raw m) else Ret tt) ;;
  Ret (clear_message (set_out_block (set_raw_block m []) [])).

(** The label [FAIL]. *)
Definition process_fail (w : world) (flags ret : Z) (m : message)
  : res (Z * world) :=
  if flag_set flags SPAMC_CHECK_ONLY then
    let '(_, k) := full_write (w_out w) (bytes "0/0" ++ [LF]) 4 in
    _ <- message_cleanup m ;;
    Ret (EX_NOTSPAM, set_w_out w k)
  else
    w <- message_dump w m ;;
    _ <- message_cleanup m ;;
    Ret (ret, w).

(** The three steps of [message_process] that end in [goto FAIL] when
    their code is not [EX_OK]: the lookup, the read and the filter.
    Returns the code of the last step taken, with the message and the
    world as that step left them. *)
Definition process_stages (w : world) (hostname : string) (port : Z)
    (username : option (list Z)) (max_size flags : Z)
  : res (Z * message * world) :=
  let m := set_type stack_message MESSAGE_NONE in
  match lookup_host_for_failover w hostname with
  | (ret, None) => Ret (ret, m, w)
  | (ret, Some hent) =>
      if negb (ret =? EX_OK) then Ret (ret, m, w)
      else
        let m := set_max_len m max_size in
        '(ret, m, w) <- message_read w flags m ;;
        if negb (ret =? EX_OK) then Ret (ret, m, w)
        else message_filter_with_failover w hent port username flags m
  end.

(** [in_fd] and [out_fd] are the two descriptors of the world.  On the
    way out [message_cleanup] comes before [return m.is_spam], so what
    is returned there is the [is_spam] that [clear_message] has just
    set. *)
Definition message_process (w : world) (hostname : string) (port : Z)
    (username : option (list Z)) (max_size flags : Z) : res (Z * world) :=
  '(ret, m, w) <- process_stages w hostname port username max_size flags ;;
  if negb (ret =? EX_OK) then process_fail w flags ret m
  else
    '(n, k) <- message_write (w_out w) m ;;
    let w := set_w_out w k in
    if n <? 0 then process_fail w flags ret m
    else if negb (is_spam m =? EX_TOOBIG) then
      m <- message_cleanup m ;;
      Ret (is_spam m, w)
    else
      _ <- message_cleanup m ;;
      Ret (ret, w).

(** Aug 14, 2002 bj: Obsolete! *)
Definition process_message (w : world) (hostname : string) (port : Z)
    (username : option (list Z)) (max_size : Z)
    (my_check_only my_safe_fallback : bool) : res (Z * world) :=
  let flags := SPAMC_RAW_MODE in
  let flags := if my_check_only then Z.lor flags SPAMC_CHECK_ONLY
               else flags in
  let flags := if my_safe_fallback then Z.lor flags SPAMC_SAFE_FALLBACK
               else flags in
  message_process w hostname port username max_size flags.

(* ------------------------------------------------------------------ *)
(** ** Reachable states of the unstuffing loop *)

(** The states in which the loop starts a round. *)
Inductive scan_reach (base msg_len : Z) (buf : list Z) : scan -> Prop :=
| reach_start : scan_reach base msg_len buf (scan_start buf)
| reach_round (s s' : scan) :
    scan_reach base msg_len buf s ->
    s_i s < msg_len ->
    unstuff_body base s = Ret (GoOn s') ->
    scan_reach base msg_len buf s'.

Definition scan_of (r : scan_step) : scan :=
  match r with
  | GoOn s => s
  | LoneDot s => s
  end.

(* ------------------------------------------------------------------ *)
(** ** Sample runs *)

Definition open_sink : sink := {| written := []; room := None |}.

(** A world whose input holds [input] and whose daemon, at the three
    addresses 1, 2 and 3, answers every connection with [response];
    [dial n a] is the error of the [n]-th connect, if any. *)
Definition sample_world (input response : list Z)
    (dial : nat -> Z -> option errno_t) : world :=
  {| w_in := [Bytes input];
     w_out := open_sink;
     w_malloc := [];
     w_dns := fun _ => inr [1; 2; 3];
     w_socket := None;
     w_connect := dial;
     w_peer := [Bytes response];
     w_sent := open_sink;
     w_log := [] |}.

Definition all_accept : nat -> Z -> option errno_t := fun _ _ => None.
Definition all_refuse : nat -> Z -> option errno_t :=
  fun _ _ => Some ECONNREFUSED.

Definition sample_message (max_size : Z) : message :=
  set_max_len stack_message max_size.

(** What the specification calls a DATA line: at the start of the buffer
    or behind a line feed, the token DATA in either case, then CRLF or
    LF. *)
Definition spec_data_line (buf : list Z) (k : nat) : bool :=
  (match k with
   | O => true
   | S k' => nth k' buf 0 =? LF
   end)
  && strcaseeq (firstn 4 (skipn k buf)) (bytes "DATA")
  && ((nth (k + 4) buf 0 =? LF)
      || ((nth (k + 4) buf 0 =? CR) && (nth (k + 5) buf 0 =? LF))).

(** Dot-stuffing as the specification words it: the leading dot of every
    line is doubled. *)
Fixpoint spec_stuff (at_line_start : bool) (body : list Z) : list Z :=
  match body with
  | [] => []
  | c :: t =>
      (if at_line_start && (c =? chr ".") then [c; c] else [c])
      ++ spec_stuff (c =? LF) t
  end.

(** The code a run returns, if it returns. *)
Definition code_of {A B : Type} (r : res (Z * A * B)) : option Z :=
  match r with
  | Ret (code, _, _) => Some code
  | Fault => None
  end.

(** What a run has put on the output descriptor. *)
Definition output_of (r : res (Z * world)) : option (Z * list Z) :=
  match r with
  | Ret (code, w) => Some (code, written (w_out w))
  | Fault => None
  end.

(** A transcript whose data section is the one line [..foo], stuffed. *)
Definition dotted_transcript : list Z :=
  bytes "MAIL FROM:<a>" ++ [CR; LF] ++ bytes "DATA" ++ [CR; LF]
  ++ bytes "..foo" ++ [CR; LF] ++ bytes "." ++ [CR; LF].

(** A capture that ends in a dot at the start of a line. *)
Definition dangling_dot : list Z :=
  bytes "x" ++ [LF] ++ bytes "DATA" ++ [LF] ++ bytes ".".

(** A transcript whose first line is the DATA line. *)
Definition data_first : list Z :=
  bytes "DATA" ++ [CR; LF] ++ bytes "hello" ++ [CR; LF]
  ++ bytes "." ++ [CR; LF].

(** A response with a header the protocol does not know. *)
Definition bogus_header_response : list Z :=
  bytes "SPAMD/1.1 0 EX_OK" ++ [CR; LF]
  ++ bytes "X-Bogus: 1" ++ [CR; LF]
  ++ bytes "Content-length: 2" ++ [CR; LF]
  ++ [CR; LF] ++ bytes "hi".

(** A response that announces 5 bytes and sends 16400. *)
Definition long_response : list Z :=
  bytes "SPAMD/1.1 0 EX_OK" ++ [CR; LF]
  ++ bytes "Content-length: 5" ++ [CR; LF]
  ++ [CR; LF] ++ repeat (chr "x") (Z.to_nat 16400).

(** The message of a raw-mode call on the input [hello], as
    [message_read] leaves it. *)
Definition hello_message : message :=
  snd (fst (message_read_raw
              (sample_world (bytes "hello") [] all_accept)
              (sample_message 10))).

(** What holds of the loop variables whenever the unstuffing loop starts
    a round on the block [buf]: the write index is not ahead of the read
    index, the block keeps its length, the bytes before [msg] are
    untouched, and so is everything from the write index on. *)
Definition scan_ok (base msg_len : Z) (buf : list Z) (s : scan) : Prop :=
  0 <= s_j s /\ s_j s <= s_i s /\ s_i s <= msg_len
  /\ len (s_buf s) = len buf
  /\ firstn (Z.to_nat base) (s_buf s) = firstn (Z.to_nat base) buf
  /\ skipn (Z.to_nat (base + s_j s)) (s_buf s)
     = skipn (Z.to_nat (base + s_j s)) buf.

(** The test of the DATA search, read off the bytes: a line feed at [i],
    the token DATA in either case behind it, then CRLF or LF. *)
Definition data_pattern (raw : list Z) (i : Z) : bool :=
  let c := fun k => nth (Z.to_nat (i + k)) raw 0 in
  (c 0 =? LF)
  && ((c 1 =? chr "D") || (c 1 =? chr "d"))
  && ((c 2 =? chr "A") || (c 2 =? chr "a"))
  && ((c 3 =? chr "T") || (c 3 =? chr "t"))
  && ((c 4 =? chr "A") || (c 4 =? chr "a"))
  && (((c 5 =? CR) && (c 6 =? LF)) || (c 5 =? LF)).

(** A state of the unstuffing loop on the block [..a], after the round
    that drops the first dot. *)
Definition sample_scan : scan :=
  {| s_buf := bytes "..a"; s_i := 1; s_j := 0; s_prev := chr "." |}.

(** A response that announces 5 bytes and sends 2. *)
Definition short_response : list Z :=
  bytes "SPAMD/1.1 0 EX_OK" ++ [CR; LF]
  ++ bytes "Content-length: 5" ++ [CR; LF]
  ++ [CR; LF] ++ bytes "hi".

(** The fields a header line leaves alone in a call that is not a
    check. *)
Definition same_frame (m m' : message) : Prop :=
  max_len m' = max_len m /\ msg m' = msg m /\ msg_len m' = msg_len m
  /\ out m' = out m /\ out_len m' = out_len m.

(** The flags with the safe-fallback bit the other way round. *)
Definition toggle_safe_fallback (flags : Z) : Z :=
  Z.lxor flags SPAMC_SAFE_FALLBACK.

(** The fields that describe the capture: what the codec never changes. *)
Definition same_capture (m m' : message) : Prop :=
  type m' = type m /\ max_len m' = max_len m
  /\ raw m' = raw m /\ raw_len m' = raw_len m /\ raw_block m' = raw_block m
  /\ pre m' = pre m /\ pre_len m' = pre_len m
  /\ msg m' = msg m /\ msg_len m' = msg_len m
  /\ post m' = post m /\ post_len m' = post_len m.

(** The values of [is_spam] with which [message_write] writes. *)
Definition writable (code : Z) : Prop :=
  code = EX_TOOBIG \/ code = EX_OUTPUTMESSAGE
  \/ code = EX_ISSPAM \/ code = EX_NOTSPAM.

(** A result that ends the call with a failure: the capture is as it
    was, [out] is the message again, and [message_write] will write. *)
Definition failed_state (m : message) (r : Z * message * world) : Prop :=
  let '(code, m', _) := r in
  code <> EX_OK /\ same_capture m m'
  /\ out m' = msg m /\ out_len m' = msg_len m /\ writable (is_spam m').

(** A response of two bytes, announced as two. *)
Definition good_response : list Z :=
  bytes "SPAMD/1.1 0 EX_OK" ++ [CR; LF]
  ++ bytes "Content-length: 2" ++ [CR; LF]
  ++ [CR; LF] ++ bytes "hi".

(* ------------------------------------------------------------------ *)
(** ** Dot-stuffing *)

(** What the writing loop does to a body, the buffer apart: a dot is put
    behind every line feed that a dot follows. *)
Fixpoint stuffed (o : list Z) : list Z :=
  match o with
  | [] => []
  | c0 :: t =>
      match t with
      | c1 :: t' =>
          if (c0 =? LF) && (c1 =? chr ".")
          then c0 :: c1 :: chr "." :: stuffed t'
          else c0 :: stuffed t
      | [] => [c0]
      end
  end.

(** The loop variables when a block holds [pre], then the [D] bytes
    written, a gap [G] of bytes read and left behind, and the bytes not
    read yet. *)
Definition layout (pre D G rest : list Z) (p : Z) : scan :=
  {| s_buf := pre ++ D ++ G ++ rest;
     s_i := len D + len G;
     s_j := len D;
     s_prev := p |}.

(** The gap after a byte has been copied over its first place. *)
Definition shift (G : list Z) (c : Z) : list Z :=
  match G with
  | [] => []
  | _ :: G0 => G0 ++ [c]
  end.

(** A dot and the end of its line. *)
Definition lone_dot (post : list Z) : bool :=
  match post with
  | c :: c1 :: t =>
      (c =? chr ".") && ((c1 =? LF) || ((c1 =? CR) && (hd 0 t =? LF)))
  | _ => false
  end.

(** The start of a transcript, up to the DATA line. *)
Definition sample_pre : list Z :=
  bytes "MAIL FROM:<a>" ++ [CR; LF] ++ bytes "DATA" ++ [CR; LF].

(** A body whose second line starts with a dot. *)
Definition sample_body : list Z :=
  bytes "a" ++ [CR; LF] ++ bytes ".b" ++ [CR; LF].

(** The lone dot and the command behind it. *)
Definition sample_post : list Z :=
  bytes "." ++ [CR; LF] ++ bytes "QUIT" ++ [CR; LF].

(** The transcript of the three, the body stuffed. *)
Definition sample_transcript : list Z :=
  sample_pre ++ spec_stuff true sample_body ++ sample_post.

(** A body of 600 lines that are one dot each: more than one buffer. *)
Definition dotted_lines : list Z :=
  concat (repeat [chr "."; LF] 600).
(* ------------------------------------------------------------------ *)
(** ** Descriptors, read as a whole *)

(** The bytes a descriptor delivers, one read behind the other. *)
Fixpoint bytes_of (s : stream) : list Z :=
  match s with
  | [] => []
  | Bytes bs :: s' => bs ++ bytes_of s'
  | ReadError :: s' => bytes_of s'
  end.

(** A descriptor on which every read brings at least one byte, until
    the end of input. *)
Fixpoint ready (s : stream) : bool :=
  match s with
  | [] => true
  | Bytes bs :: s' => negb (len bs =? 0) && ready s'
  | ReadError :: _ => false
  end.

(** A descriptor that takes [d] more bytes. *)
Definition takes (k : sink) (d : Z) : Prop :=
  match room k with
  | None => True
  | Some r => d <= r
  end.

(** A line without the carriage return at its end, if it has one. *)
Definition chomp_cr (line : list Z) : list Z :=
  match rev line with
  | c :: r => if c =? CR then rev r else line
  | [] => []
  end.

(* ------------------------------------------------------------------ *)
(** ** More sample values *)

(** An input that arrives in three reads. *)
Definition chunked_input : stream :=
  [Bytes (bytes "he"); Bytes (bytes "llo"); Bytes (bytes " world")].

(** An output that takes three more bytes. *)
Definition narrow_sink : sink := {| written := []; room := Some 3 |}.

(** A world in which no host is known. *)
Definition lost_world (input : stream) : world :=
  {| w_in := input;
     w_out := open_sink;
     w_malloc := [];
     w_dns := fun _ => inl HOST_NOT_FOUND;
     w_socket := None;
     w_connect := all_accept;
     w_peer := [];
     w_sent := open_sink;
     w_log := [] |}.

(** A status line, its line end, and the start of a header. *)
Definition status_stream : stream :=
  [Bytes (bytes "SPAMD/1.1 0 EX_OK" ++ [CR; LF] ++ bytes "Spam")].

(** The response to a check of a message that is spam. *)
Definition spam_verdict_response : list Z :=
  bytes "SPAMD/1.1 0 EX_OK" ++ [CR; LF]
  ++ bytes "Spam: True ; 15.0 / 5.0" ++ [CR; LF]
  ++ [CR; LF].


(* ------------------------------------------------------------------ *)
(** ** Decimal numerals *)

(** The number a run of decimal digits denotes, [acc] being the number
    of the digits in front of it. *)
Fixpoint digits_value (acc : Z) (ds : list Z) : Z :=
  match ds with
  | [] => acc
  | c :: t => digits_value (acc * 10 + (c - chr "0")) t
  end.

(** A numeral: a sign, the digits before the dot and those behind it. *)
Definition numeral (neg : bool) (ip fp : list Z) : list Z :=
  (if neg then [chr "-"] else []) ++ ip ++ chr "." :: fp.

(** The number a numeral denotes. *)
Definition numeral_value (neg : bool) (ip fp : list Z) : Q :=
  ((if neg then -1 else 1)
   * (inject_Z (digits_value 0 ip)
      + inject_Z (digits_value 0 fp) / inject_Z (10 ^ len fp)))%Q.

(* ------------------------------------------------------------------ *)
(** ** lookup_host *)

(** [lookup_host (hostname, port, out_addr)]: the code and the address
    stored in [out_addr].  The [memset] clears the pointer variable
    [out_addr], of which [addr] is a copy, and so stores nothing.  The
    [memcpy] reads [hent.h_addr], the first entry of the address list,
    whatever the lookup returned: after a failed lookup [hent] was never
    filled, and an empty list has no first entry. *)
Definition lookup_host (w : world) (hostname : string) (port : Z)
  : res (Z * (Z * Z)) :=
  match _lookup_host w hostname with
  | (ret, Some h_addr_list) =>
      h_addr <- rd h_addr_list 0 ;;
      Ret (ret, (h_addr, port))
  | (_, None) => Fault
  end.

(* ------------------------------------------------------------------ *)
(** ** The verdict *)

(** The values of [is_spam] while the headers of a response are read:
    none yet, or one of the two verdicts. *)
Definition verdict_so_far (code : Z) : Prop :=
  code = EX_TOOBIG \/ code = EX_ISSPAM \/ code = EX_NOTSPAM.

(* ------------------------------------------------------------------ *)
(** ** The request *)

(** The request for a message of [n] bytes: the line of the verb, the
    line of the user if there is one, the line of the length and an
    empty line. *)
Definition request_text (flags : Z) (username : option (list Z)) (n : Z)
  : list Z :=
  request_line flags
  ++ (match username with
      | Some u => bytes "User: " ++ u ++ [CR; LF]
      | None => []
      end)
  ++ (bytes "Content-length: " ++ decimal n ++ [CR; LF])
  ++ [CR; LF].

(** A user name of nine thousand bytes. *)
Definition long_name : list Z := repeat (chr "u") (Z.to_nat 9000).

(* ------------------------------------------------------------------ *)
(** ** The frame of a transcript *)

(** A message in BSMTP mode whose block holds [P], the body [B], a gap
    [G] that the unstuffing left, and [rest] from the lone dot on. *)
Definition bsmtp_frame (m : message) (P B G rest : list Z) : Prop :=
  type m = MESSAGE_BSMTP
  /\ raw_block m = P ++ B ++ G ++ rest
  /\ pre m = InRaw 0 /\ pre_len m = len P
  /\ msg m = InRaw (len P) /\ msg_len m = len B
  /\ post m = InRaw (len P + (len B + len G)) /\ post_len m = len rest.

(* ------------------------------------------------------------------ *)
(** ** Words *)

(** A word as [%s] reads it: not empty, without white space. *)
Definition word (s : list Z) : bool :=
  negb (len s =? 0) && forallb (fun c => negb (isspace c)) s.

(** The verdict line of a response. *)
Definition spam_line (verdict score threshold : list Z) : list Z :=
  bytes "Spam: " ++ verdict ++ bytes " ; " ++ score ++ bytes " / "
  ++ threshold.

(* ------------------------------------------------------------------ *)
(** ** Responses *)


(* ------------------------------------------------------------------ *)
(** ** A daemon that refuses *)

(** What the three steps of [message_process] leave of the input
    [input] when every connection is refused: the code, the message and
    the world. *)
Definition refused_stages (input : list Z) (max_size flags : Z)
  : Z * message * world :=
  match process_stages (sample_world input [] all_refuse) "spamd" 783 None
                       max_size flags with
  | Ret r => r
  | Fault => (EX_SOFTWARE, stack_message, sample_world input [] all_refuse)
  end.

(* ------------------------------------------------------------------ *)
(** ** The end of a capture *)

(** A capture that ends in a dot at the start of a line, or in such a
    dot and a CR: there the test for the lone dot looks at [msg[i+1]] or
    [msg[i+2]] behind the last byte that was read. *)
Definition ends_in_open_dot (bs : list Z) : bool :=
  let n := len bs in
  let c := fun k => nth (Z.to_nat (n - k)) bs 0 in
  ((2 <=? n) && (c 2 =? LF) && (c 1 =? chr "."))
  || ((3 <=? n) && (c 3 =? LF) && (c 2 =? chr ".") && (c 1 =? CR)).

(** [prev] in a state of the unstuffing loop on the block [buf]: it is a
    line feed only where the byte in front of [msg[i]] is one. *)
Definition scan_line (base : Z) (buf : list Z) (s : scan) : Prop :=
  s_prev s = LF -> nth (Z.to_nat (base + s_i s - 1)) buf 0 = LF.
Example float_100_033 :
  Qeq_bool (_locale_safe_string_to_float (bytes "100.033") 20) (100033 # 1000) = true.
Proof. reflexivity. Qed.

Example float_neg_5_2 :
  Qeq_bool (_locale_safe_string_to_float (bytes "-5.2") 20) (- (52 # 10)) = true.
Proof. reflexivity. Qed.

Example float_7 :
  Qeq_bool (_locale_safe_string_to_float (bytes "7") 20) 7 = true.
Proof. reflexivity. Qed.

Example float_3_dot :
  Qeq_bool (_locale_safe_string_to_float (bytes "3.") 20) 3 = true.
Proof. reflexivity. Qed.

Example float_garbage :
  Qeq_bool (_locale_safe_string_to_float (bytes "5.2x") 20) (502 # 100) = true.
Proof. reflexivity. Qed.

(* ------------------------------------------------------------------ *)
(** * The numeric parser *)

(** C7.  The parser does not ignore what follows the number: the divider
    is ten to the number of ALL characters behind the dot, so ["5.2x"]
    is read as 5.02 where ["5.2"] is read as 5.2. *)
Theorem locale_safe_float_counts_trailing_garbage :
  (_locale_safe_string_to_float (bytes "5.2x") 20 == 502 # 100)%Q
  /\ (_locale_safe_string_to_float (bytes "5.2") 20 == 52 # 10)%Q
  /\ ~ (_locale_safe_string_to_float (bytes "5.2x") 20
        == _locale_safe_string_to_float (bytes "5.2") 20)%Q.
Proof.
  repeat split; try (vm_compute; reflexivity).
  vm_compute. discriminate.
Qed.

(* ------------------------------------------------------------------ *)
(** * Batched SMTP: runs that show a defect *)

(** C10.  On a capture that ends in a dot at the start of a line the
    test for the lone dot reads [msg[i+1]], one byte behind the capture:
    the data section is the single byte at index 7 of 8, the dot is
    found at [i = 0], and the read of index 8 is out of range. *)
Theorem lone_dot_test_reads_behind_capture :
  len dangling_dot = 8
  /\ find_data (Z.to_nat (8 - 6)) dangling_dot 8 0 = Ret (Some 7)
  /\ rd dangling_dot (7 + 0) = Ret (chr ".")
  /\ rd dangling_dot (7 + 0 + 1) = Fault
  /\ unstuff_body 7 (scan_start dangling_dot) = Fault
  /\ message_read_bsmtp (sample_world dangling_dot [] all_accept)
                        (sample_message 100) = Fault.
Proof. repeat split; vm_compute; reflexivity. Qed.

(** C3.  Unstuffing and stuffing again does not give the transcript
    back when the first line of the data begins with a dot: the read
    takes the stuffing dot of [..foo] away, and [message_write], which
    doubles a dot only behind a line feed of the body, writes [.foo]. *)
Theorem stuffing_round_trip_loses_first_dot :
  exists m w k n,
    message_read_bsmtp (sample_world dotted_transcript [] all_accept)
                       (sample_message 100) = Ret (EX_OK, m, w)
    /\ load m (out m) (out_len m) = Ret (bytes ".foo" ++ [CR; LF])
    /\ message_write open_sink m = Ret (n, k)
    /\ written k = bytes "MAIL FROM:<a>" ++ [CR; LF] ++ bytes "DATA"
                   ++ [CR; LF] ++ bytes ".foo" ++ [CR; LF] ++ bytes "."
                   ++ [CR; LF]
    /\ written k <> dotted_transcript
    /\ spec_stuff true (bytes ".foo" ++ [CR; LF])
       = bytes "..foo" ++ [CR; LF].
Proof.
  do 4 eexists.
  split; [vm_compute; reflexivity|].
  split; [vm_compute; reflexivity|].
  split; [vm_compute; reflexivity|].
  split; [vm_compute; reflexivity|].
  split; [vm_compute; discriminate | vm_compute; reflexivity].
Qed.

(* ------------------------------------------------------------------ *)
(** * The codec: a run that shows a defect *)

(** C1.  A header line that is neither the verdict nor the content
    length is skipped: [_handle_spamd_header] answers it with
    [EX_PROTOCOL], which is positive, and the caller only stops on a
    negative value.  The call ends with [EX_OK] and the body. *)
Theorem unknown_header_is_skipped :
  (exists m,
     _handle_spamd_header hello_message 0 (bytes "X-Bogus: 1")
     = Ret (EX_PROTOCOL, m))
  /\ exists m w,
       message_filter_with_failover
         (sample_world [] bogus_header_response all_accept)
         [1; 2; 3] 783 None 0 hello_message
       = Ret (EX_OK, m, w)
       /\ load m (out m) (out_len m) = Ret (bytes "hi").
Proof.
  split.
  - eexists. vm_compute. reflexivity.
  - do 2 eexists. split; vm_compute; reflexivity.
Qed.

(* ------------------------------------------------------------------ *)
(** * Runs that contradict a sentence of the specification *)

(** A DATA line that is the first line of the capture is not found: the
    search wants a line feed in front of the token, and the read fails
    with [EX_DATAERR] although the capture has a DATA line. *)
Lemma data_line_on_first_line_is_missed :
  spec_data_line data_first 0 = true
  /\ code_of (message_read_bsmtp (sample_world data_first [] all_accept)
                                 (sample_message 100))
     = Some EX_DATAERR.
Proof. split; vm_compute; reflexivity. Qed.

(** A body that does not match the announced length is not always a
    protocol failure: with [max_len = 10] the daemon announces 5 bytes
    and sends more than [max_len + EXPANSION_ALLOWANCE]; 16395 bytes are
    received and the call ends with [EX_TOOBIG]. *)
Lemma oversize_body_is_too_big_not_protocol :
  exists m1 w1 m w,
    filter_prologue (sample_world [] long_response all_accept)
                    None (Some [1; 2; 3]) 783 None 0 hello_message
    = Ret (inr (m1, w1))
    /\ flag_set 0 SPAMC_CHECK_ONLY = false
    /\ content_length m1 = 5
    /\ fst (fst (full_read (w_peer w1)
                   (max_len m1 + EXPANSION_ALLOWANCE + 1 - out_len m1)
                   (max_len m1 + EXPANSION_ALLOWANCE + 1 - out_len m1)))
       = 16395
    /\ _message_filter (sample_world [] long_response all_accept)
                       None (Some [1; 2; 3]) 783 None 0 hello_message
       = Ret (EX_TOOBIG, m, w)
    /\ EX_TOOBIG <> EX_PROTOCOL.
Proof.
  do 4 eexists.
  split; [vm_compute; reflexivity|].
  split; [reflexivity|].
  split; [reflexivity|].
  split; [vm_compute; reflexivity|].
  split; [vm_compute; reflexivity | discriminate].
Qed.


(* ------------------------------------------------------------------ *)
(** * Buffers *)

Lemma len_nonneg {A : Type} (l : list A) : 0 <= len l.
Proof. unfold len. lia. Qed.

Lemma len_app {A : Type} (l1 l2 : list A) : len (l1 ++ l2) = len l1 + len l2.
Proof. unfold len. rewrite length_app. lia. Qed.

Lemma rd_inv (buf : list Z) (i c : Z) :
  rd buf i = Ret c ->
  0 <= i < len buf /\ nth_error buf (Z.to_nat i) = Some c.
Proof.
  unfold rd. destruct (Z.ltb_spec i 0); [discriminate|].
  destruct (nth_error buf (Z.to_nat i)) eqn:E; [|discriminate].
  intros H1. inversion H1; subst. split; [|reflexivity].
  assert (Z.to_nat i < length buf)%nat
    by (apply nth_error_Some; congruence).
  unfold len. lia.
Qed.

Lemma rd_in_range (buf : list Z) (i : Z) :
  0 <= i < len buf -> exists c, rd buf i = Ret c.
Proof.
  unfold rd, len. intros H.
  destruct (Z.ltb_spec i 0); [lia|].
  destruct (nth_error buf (Z.to_nat i)) eqn:E; [eauto|].
  apply nth_error_None in E. lia.
Qed.

Lemma rd_nth (buf : list Z) (i c : Z) :
  rd buf i = Ret c -> nth (Z.to_nat i) buf 0 = c.
Proof.
  intros H. apply rd_inv in H. destruct H as [_ H].
  apply nth_error_nth. exact H.
Qed.

Lemma upd_nat_length (l : list Z) (n : nat) (v : Z) :
  (n < length l)%nat -> length (upd_nat l n v) = length l.
Proof.
  revert n. induction l as [|c t IH]; intros n H; simpl in *; [lia|].
  destruct n; simpl; [reflexivity|]. rewrite IH; [reflexivity | lia].
Qed.

Lemma upd_nat_firstn (l : list Z) (n k : nat) (v : Z) :
  (k <= n)%nat -> (n < length l)%nat ->
  firstn k (upd_nat l n v) = firstn k l.
Proof.
  revert n k. induction l as [|c t IH]; intros n k Hk H; simpl in *; [lia|].
  destruct n; simpl.
  - assert (k = O) by lia. subst. reflexivity.
  - destruct k; simpl; [reflexivity|]. rewrite IH; [reflexivity | lia | lia].
Qed.

Lemma upd_nat_skipn (l : list Z) (n k : nat) (v : Z) :
  (n < k)%nat -> (n < length l)%nat ->
  skipn k (upd_nat l n v) = skipn k l.
Proof.
  revert n k. induction l as [|c t IH]; intros n k Hk H; simpl in *; [lia|].
  destruct n; simpl.
  - destruct k; [lia|]. reflexivity.
  - destruct k; [lia|]. simpl. apply IH; lia.
Qed.

Lemma skipn_S_eq {A : Type} (l1 l2 : list A) (n : nat) :
  skipn n l1 = skipn n l2 -> skipn (S n) l1 = skipn (S n) l2.
Proof.
  intros H.
  replace (S n) with (1 + n)%nat by lia.
  rewrite <- !skipn_skipn. rewrite H. reflexivity.
Qed.

Lemma wr_len (buf : list Z) (i v : Z) :
  0 <= i < len buf -> len (wr buf i v) = len buf.
Proof.
  unfold wr, len. intros H. rewrite upd_nat_length; [reflexivity | lia].
Qed.

(* ------------------------------------------------------------------ *)
(** * The unstuffing loop *)

Lemma copy_char_ok (base msg_len : Z) (buf : list Z) (s : scan)
    (r : scan_step) :
  0 <= base -> scan_ok base msg_len buf s -> s_i s < msg_len ->
  copy_char base s = Ret r ->
  exists s', r = GoOn s' /\ scan_ok base msg_len buf s'.
Proof.
  intros Hb (Hj0 & Hji & Him & Hlen & Hpre & Hpost) Hi. unfold copy_char.
  destruct (rd (s_buf s) (base + s_i s)) as [c|] eqn:E; [|discriminate].
  simpl. intros H. inversion H; subst; clear H.
  apply rd_inv in E. destruct E as [E _].
  eexists. split; [reflexivity|].
  assert (Hw : (Z.to_nat (base + s_j s) < length (s_buf s))%nat)
    by (unfold len in E; lia).
  unfold scan_ok; simpl. repeat split; try lia.
  - rewrite wr_len; [exact Hlen | lia].
  - unfold wr. rewrite upd_nat_firstn; [exact Hpre | lia | exact Hw].
  - unfold wr. rewrite upd_nat_skipn; [| lia | exact Hw].
    replace (Z.to_nat (base + (s_j s + 1)))
      with (S (Z.to_nat (base + s_j s))) by lia.
    apply skipn_S_eq. exact Hpost.
Qed.

Lemma unstuff_body_ok (base msg_len : Z) (buf : list Z) (s : scan)
    (r : scan_step) :
  0 <= base -> scan_ok base msg_len buf s -> s_i s < msg_len ->
  unstuff_body base s = Ret r ->
  (r = LoneDot s)
  \/ exists s', r = GoOn s' /\ scan_ok base msg_len buf s'.
Proof.
  intros Hb Hok Hi. unfold unstuff_body.
  destruct (s_prev s =? LF); [|intros H; right; eapply copy_char_ok; eauto].
  destruct (rd (s_buf s) (base + s_i s)) as [c|]; [simpl|discriminate].
  destruct (c =? chr "."); [|intros H; right; eapply copy_char_ok; eauto].
  destruct (rd (s_buf s) (base + s_i s + 1)) as [c1|]; [simpl|discriminate].
  destruct (match (if c1 =? CR
                   then c2 <- rd (s_buf s) (base + s_i s + 2);;
                        (if c2 =? LF then Ret true else Ret (c1 =? LF))
                   else Ret (c1 =? LF)) with
            | Ret a => Ret a | Fault => Fault end) as [lone|] eqn:E.
  2:{ destruct (c1 =? CR); simpl in *.
      - destruct (rd (s_buf s) (base + s_i s + 2)); simpl in *;
          [destruct (_ =? LF) in *|]; try discriminate; intros; discriminate.
      - discriminate. }
  assert (E' : (if c1 =? CR
                then c2 <- rd (s_buf s) (base + s_i s + 2);;
                     (if c2 =? LF then Ret true else Ret (c1 =? LF))
                else Ret (c1 =? LF)) = Ret lone).
  { destruct (if c1 =? CR then _ else _); [congruence | discriminate]. }
  rewrite E'. simpl.
  destruct lone.
  - intros H. inversion H. left. reflexivity.
  - destruct (c1 =? chr ".").
    + intros H. inversion H; subst. right. eexists. split; [reflexivity|].
      destruct Hok as (Hj0 & Hji & Him & Hlen & Hpre & Hpost).
      unfold scan_ok; simpl. repeat split; auto; lia.
    + intros H; right; eapply copy_char_ok; eauto.
Qed.

(* ------------------------------------------------------------------ *)
(** * Batched SMTP: the search for DATA and the unstuffing loop *)

Lemma scan_reach_ok (base msg_len : Z) (buf : list Z) (s : scan) :
  0 <= base -> 0 <= msg_len ->
  scan_reach base msg_len buf s -> scan_ok base msg_len buf s.
Proof.
  intros Hb Hm H. induction H as [|s s' H IH Hi Hbody].
  - unfold scan_ok, scan_start; simpl. repeat split; try lia.
  - destruct (unstuff_body_ok base msg_len buf s (GoOn s') Hb IH Hi Hbody)
      as [E | (s2 & E & Hok)]; [discriminate|].
    inversion E; subst. exact Hok.
Qed.

Lemma unstuff_loop_reach (base msg_len : Z) (buf : list Z) (fuel : nat) :
  0 <= base -> 0 <= msg_len ->
  forall (s : scan) (r : scan_step),
    scan_reach base msg_len buf s ->
    unstuff_loop fuel base msg_len s = Ret r ->
    scan_reach base msg_len buf (scan_of r).
Proof.
  intros Hb Hm. induction fuel as [|fuel IH]; intros s r Hs; simpl.
  - intros H. inversion H; subst. exact Hs.
  - destruct (Z.ltb_spec (s_i s) msg_len) as [Hi|Hi].
    2:{ intros H. inversion H; subst. exact Hs. }
    destruct (unstuff_body base s) as [r0|] eqn:E; [simpl|discriminate].
    pose proof (scan_reach_ok _ _ _ _ Hb Hm Hs) as Hok.
    destruct (unstuff_body_ok base msg_len buf s r0 Hb Hok Hi E)
      as [E0 | (s2 & E0 & _)]; subst r0.
    + intros H. inversion H; subst. exact Hs.
    + apply IH. eapply reach_round; eauto.
Qed.

Lemma sys_read_len (s : stream) (nbytes n : Z) (bs : list Z) (s' : stream) :
  sys_read s nbytes = (n, bs, s') -> n = -1 \/ (0 <= n /\ len bs = n).
Proof.
  unfold sys_read. destruct s as [|[bs1|] s1].
  - intros H; inversion H; subst. right. split; [lia | reflexivity].
  - destruct (Z.leb_spec (len bs1) nbytes) as [Hle|Hlt].
    + intros H; inversion H; subst. right.
      split; [apply len_nonneg | reflexivity].
    + intros H; inversion H; subst. right. split; [lia|].
      unfold len in *. rewrite length_firstn. lia.
  - intros H; inversion H; subst. left. reflexivity.
Qed.

Lemma full_read_loop_len (fuel : nat) :
  forall (s : stream) (min l total : Z) (buf : list Z) n bs s',
    len buf = total ->
    full_read_loop fuel s min l total buf = (n, bs, s') ->
    n = -1 \/ len bs = n.
Proof.
  induction fuel as [|fuel IH]; intros s min l total buf n bs s' Hlen; simpl.
  - intros H. inversion H; subst. right. reflexivity.
  - destruct (total <? min).
    2:{ intros H. inversion H; subst. right. reflexivity. }
    unfold timeout_read.
    destruct (sys_read s (l - total)) as [[thistime bs0] s0] eqn:E.
    apply sys_read_len in E.
    destruct (Z.ltb_spec thistime 0).
    { intros H0. inversion H0. left. reflexivity. }
    destruct (Z.eqb_spec thistime 0).
    { intros H0. inversion H0; subst. right. reflexivity. }
    apply IH. rewrite len_app. lia.
Qed.

Lemma full_read_len (s : stream) (min l n : Z) (bs : list Z) (s' : stream) :
  full_read s min l = (n, bs, s') -> 0 <= n -> len bs = n.
Proof.
  unfold full_read. intros H Hn.
  apply full_read_loop_len in H; [|reflexivity]. lia.
Qed.

Lemma is_data_line_total (raw : list Z) (i : Z) :
  0 <= i -> i + 6 < len raw -> exists b, is_data_line raw i = Ret b.
Proof.
  intros H0 H6. unfold is_data_line.
  destruct (rd_in_range raw i) as [c0 ->]; [lia|].
  destruct (rd_in_range raw (i + 1)) as [c1 ->]; [lia|].
  destruct (rd_in_range raw (i + 2)) as [c2 ->]; [lia|].
  destruct (rd_in_range raw (i + 3)) as [c3 ->]; [lia|].
  destruct (rd_in_range raw (i + 4)) as [c4 ->]; [lia|].
  destruct (rd_in_range raw (i + 5)) as [c5 ->]; [lia|].
  destruct (rd_in_range raw (i + 6)) as [c6 ->]; [lia|].
  simpl.
  repeat match goal with
         | |- context [if ?b then _ else _] => destruct b; simpl
         end; eauto.
Qed.

(** What [find_data] returns, by the first index that passes the test. *)
Lemma find_data_none (raw : list Z) (raw_len : Z) (fuel : nat) :
  forall i,
    0 <= i -> raw_len = len raw ->
    (forall k, i <= k < raw_len - 6 -> is_data_line raw k <> Ret true) ->
    find_data fuel raw raw_len i = Ret None.
Proof.
  induction fuel as [|fuel IH]; intros i Hi Hlen Hno; simpl; [reflexivity|].
  destruct (Z.ltb_spec i (raw_len - 6)); [|reflexivity].
  destruct (is_data_line_total raw i) as [b Hb]; [lia | lia |].
  rewrite Hb. simpl. destruct b.
  - exfalso. apply (Hno i); [lia | exact Hb].
  - apply IH; [lia | exact Hlen |]. intros k Hk. apply Hno. lia.
Qed.

Lemma find_data_some (raw : list Z) (raw_len : Z) (fuel : nat) :
  forall i0 i,
    0 <= i0 -> raw_len = len raw ->
    (Z.to_nat (raw_len - 6 - i0) <= fuel)%nat ->
    i0 <= i < raw_len - 6 ->
    is_data_line raw i = Ret true ->
    (forall k, i0 <= k < i -> is_data_line raw k <> Ret true) ->
    find_data fuel raw raw_len i0
    = Ret (Some (if nth (Z.to_nat (i + 5)) raw 0 =? CR
                 then i + 7 else i + 6)).
Proof.
  induction fuel as [|fuel IH]; intros i0 i Hi0 Hlen Hfuel Hi Hyes Hno; simpl.
  - lia.
  - destruct (Z.ltb_spec i0 (raw_len - 6)); [|lia].
    destruct (is_data_line_total raw i0) as [b Hb]; [lia | lia |].
    rewrite Hb. simpl. destruct b.
    + assert (i0 = i).
      { destruct (Z.eq_dec i0 i); [assumption|].
        exfalso. apply (Hno i0); [lia | exact Hb]. }
      subst i0.
      destruct (rd_in_range raw (i + 6 - 1)) as [c Hc]; [lia|].
      rewrite Hc. simpl.
      apply rd_nth in Hc. replace (i + 6 - 1) with (i + 5) in Hc by lia.
      rewrite Hc. replace (i + 6 + 1) with (i + 7) by lia. reflexivity.
    + assert (i0 <> i) by (intros ->; congruence).
      apply IH; try lia; try assumption.
      intros k Hk. apply Hno. lia.
Qed.
Lemma find_data_range (raw : list Z) (raw_len : Z) (fuel : nat) :
  forall i0 p,
    0 <= i0 ->
    find_data fuel raw raw_len i0 = Ret (Some p) ->
    i0 + 6 <= p <= raw_len.
Proof.
  induction fuel as [|fuel IH]; intros i0 p Hi0; simpl; [discriminate|].
  destruct (Z.ltb_spec i0 (raw_len - 6)); [|discriminate].
  destruct (is_data_line raw i0) as [b|]; [simpl|discriminate].
  destruct b.
  - destruct (rd raw (i0 + 6 - 1)) as [c|]; [simpl|discriminate].
    intros H0. inversion H0. destruct (c =? CR); lia.
  - intros H0. apply IH in H0; lia.
Qed.

Lemma message_read_bsmtp_fits (w : world) (m : message) m' w' :
  message_read_bsmtp w m = Ret (EX_OK, m', w') ->
  0 <= pre_len m' /\ 0 <= msg_len m'
  /\ msg_len m' <= raw_len m' - pre_len m'
  /\ len (raw_block m') = raw_len m'.
Proof.
  unfold message_read_bsmtp.
  destruct (malloc w) as [ok w1]. destruct ok; cbn [negb]; [|discriminate].
  destruct (full_read _ _ _) as [[n bs] s'] eqn:Efr.
  cbn -[Z.to_nat find_data unstuff_loop Z.sub scan_start].
  destruct (Z.leb_spec n 0) as [|Hn]; [discriminate|].
  destruct (n >? max_len m); [discriminate|].
  apply full_read_len in Efr; [|lia].
  destruct (find_data _ _ _ _) as [[i|]|] eqn:Efd; cbn [bind];
    [|discriminate|discriminate].
  apply find_data_range in Efd; [|lia].
  destruct (unstuff_loop _ _ _ _) as [r|] eqn:Eloop; cbn [bind];
    [|discriminate].
  assert (Hreach : scan_reach i (n - i) bs (scan_of r)).
  { eapply unstuff_loop_reach; [lia | lia | apply reach_start | exact Eloop]. }
  apply scan_reach_ok in Hreach; [|lia|lia].
  destruct Hreach as (Hj0 & Hji & Him & Hlen & _).
  intros H0. inversion H0; subst m' w'; clear H0.
  destruct r as [s|s]; cbn in *; repeat split; lia.
Qed.

(** C9.  In the unstuffing loop of [message_read_bsmtp] the write index
    [j] is never ahead of the read index [i]: in every state in which
    the loop starts a round, [0 <= j <= i <= msg_len], the block has the
    length of the capture, and from the write index on it still holds
    the bytes of the capture.  The state in which the loop ends is such
    a state, so the body it leaves is no longer than the data section
    was; after a read that returns [EX_OK] the body lies inside the
    capture: [msg_len <= raw_len - pre_len], and the block still has
    [raw_len] bytes. *)
Theorem unstuff_write_index_never_passes_read_index
    (base data_len : Z) (buf : list Z) (s : scan) :
  0 <= base -> 0 <= data_len ->
  scan_reach base data_len buf s ->
  (0 <= s_j s /\ s_j s <= s_i s /\ s_i s <= data_len)
  /\ len (s_buf s) = len buf
  /\ skipn (Z.to_nat (base + s_j s)) (s_buf s)
     = skipn (Z.to_nat (base + s_j s)) buf
  /\ (forall r,
        unstuff_loop (Z.to_nat data_len) base data_len (scan_start buf)
        = Ret r ->
        scan_reach base data_len buf (scan_of r)
        /\ s_j (scan_of r) <= data_len)
  /\ (forall w m m' w',
        message_read_bsmtp w m = Ret (EX_OK, m', w') ->
        0 <= msg_len m' <= raw_len m' - pre_len m'
        /\ len (raw_block m') = raw_len m').
Proof.
  intros Hb Hm Hs.
  pose proof (scan_reach_ok _ _ _ _ Hb Hm Hs)
    as (Hj0 & Hji & Him & Hlen & Hpre & Hpost).
  repeat split; try assumption.
  - eapply (unstuff_loop_reach base data_len buf _ Hb Hm (scan_start buf));
      [apply reach_start | exact H].
  - assert (Hr : scan_reach base data_len buf (scan_of r)).
    { eapply (unstuff_loop_reach base data_len buf _ Hb Hm (scan_start buf));
        [apply reach_start | exact H]. }
    apply scan_reach_ok in Hr; [|lia|lia].
    destruct Hr as (? & ? & ? & _). lia.
  - apply message_read_bsmtp_fits in H. lia.
  - apply message_read_bsmtp_fits in H. lia.
  - apply message_read_bsmtp_fits in H. lia.
Qed.

Lemma sample_scan_reached : scan_reach 0 3 (bytes "..a") sample_scan.
Proof.
  eapply reach_round; [apply reach_start | simpl; lia | reflexivity].
Defined.

Lemma unstuff_write_index_witness :
  (0 <= s_j sample_scan /\ s_j sample_scan <= s_i sample_scan
   /\ s_i sample_scan <= 3)
  /\ len (s_buf sample_scan) = len (bytes "..a").
Proof.
  destruct (unstuff_write_index_never_passes_read_index
              0 3 (bytes "..a") sample_scan
              ltac:(lia) ltac:(lia) sample_scan_reached)
    as (H1 & H2 & _).
  split; assumption.
Defined.
Lemma is_data_line_pattern (raw : list Z) (i : Z) :
  0 <= i -> i + 6 < len raw ->
  is_data_line raw i = Ret (data_pattern raw i).
Proof.
  intros H0 H6. unfold is_data_line, data_pattern.
  destruct (rd_in_range raw i) as [c0 E0]; [lia|].
  destruct (rd_in_range raw (i + 1)) as [c1 E1]; [lia|].
  destruct (rd_in_range raw (i + 2)) as [c2 E2]; [lia|].
  destruct (rd_in_range raw (i + 3)) as [c3 E3]; [lia|].
  destruct (rd_in_range raw (i + 4)) as [c4 E4]; [lia|].
  destruct (rd_in_range raw (i + 5)) as [c5 E5]; [lia|].
  destruct (rd_in_range raw (i + 6)) as [c6 E6]; [lia|].
  rewrite E0, E1, E2, E3, E4, E5, E6.
  apply rd_nth in E0, E1, E2, E3, E4, E5, E6.
  replace (i + 0) with i by lia.
  rewrite E0, E1, E2, E3, E4, E5, E6. cbn [bind].
  destruct (c0 =? LF); cbn [negb andb]; [|reflexivity].
  destruct ((c1 =? chr "D") || (c1 =? chr "d")); cbn [negb andb]; [|reflexivity].
  destruct ((c2 =? chr "A") || (c2 =? chr "a")); cbn [negb andb]; [|reflexivity].
  destruct ((c3 =? chr "T") || (c3 =? chr "t")); cbn [negb andb]; [|reflexivity].
  destruct ((c4 =? chr "A") || (c4 =? chr "a")); cbn [negb andb]; [|reflexivity].
  destruct (c5 =? CR); cbn [andb orb]; [|reflexivity].
  destruct (c6 =? LF); cbn [andb orb]; reflexivity.
Qed.

Lemma slice_prefix (l : list Z) (n : Z) :
  0 <= n <= len l -> slice l 0 n = Ret (firstn (Z.to_nat n) l).
Proof.
  intros H. unfold slice.
  destruct (Z.leb_spec n 0).
  - assert (n = 0) by lia. subst. reflexivity.
  - destruct (Z.leb_spec (0 + n) (len l)); [|lia]. reflexivity.
Qed.

(** What the search finds, by the window it looks at: the indices
    [i < n - 6], for which the seven bytes from [i] on lie inside the
    capture. *)
Lemma bsmtp_data_line_window (w w1 : world) (m : message) (n : Z)
    (bs : list Z) (s' : stream) :
  malloc w = (true, w1) ->
  full_read (w_in w1) (max_len m + 1) (max_len m + 1) = (n, bs, s') ->
  0 < n <= max_len m ->
  ((forall k, 0 <= k < n - 6 -> data_pattern bs k = false) ->
   exists m',
     message_read_bsmtp w m = Ret (EX_DATAERR, m', set_w_in w1 s')
     /\ type m' = MESSAGE_ERROR /\ msg m' = NULL)
  /\ (forall i,
        0 <= i < n - 6 -> data_pattern bs i = true ->
        (forall k, 0 <= k < i -> data_pattern bs k = false) ->
        let p := if nth (Z.to_nat (i + 5)) bs 0 =? CR then i + 7 else i + 6 in
        (unstuff_loop (Z.to_nat (n - p)) p (n - p) (scan_start bs) = Fault
         /\ message_read_bsmtp w m = Fault)
        \/ exists m',
             message_read_bsmtp w m = Ret (EX_OK, m', set_w_in w1 s')
             /\ pre m' = InRaw 0 /\ pre_len m' = p
             /\ load m' (pre m') (pre_len m')
                = Ret (firstn (Z.to_nat p) bs)).
Proof.
  intros Hmalloc Hread Hn.
  pose proof (full_read_len _ _ _ _ _ _ Hread ltac:(lia)) as Hlen.
  assert (Hpat : forall k, 0 <= k < n - 6 ->
                           is_data_line bs k = Ret (data_pattern bs k))
    by (intros k Hk; apply is_data_line_pattern; lia).
  split.
  - intros Hno.
    unfold message_read_bsmtp. rewrite Hmalloc. cbn [negb].
    cbn -[Z.to_nat find_data unstuff_loop Z.sub full_read scan_start].
    rewrite Hread.
    cbn -[Z.to_nat find_data unstuff_loop Z.sub scan_start].
    destruct (Z.leb_spec n 0); [lia|].
    destruct (Z.gtb_spec n (max_len m)); [lia|].
    rewrite find_data_none; [| lia | lia |].
    + cbn. eexists. split; [reflexivity|]. split; reflexivity.
    + intros k Hk. rewrite Hpat, Hno by lia. discriminate.
  - intros i Hi Hyes Hfirst p.
    assert (Hfd : find_data (Z.to_nat (n - 6)) bs n 0 = Ret (Some p)).
    { apply find_data_some with (i := i); try lia.
      - rewrite Hpat, Hyes by lia. reflexivity.
      - intros k Hk. rewrite Hpat, Hfirst by lia. discriminate. }
    assert (Hp : 6 <= p <= n) by (apply find_data_range in Hfd; lia).
    unfold message_read_bsmtp. rewrite Hmalloc. cbn [negb].
    cbn -[Z.to_nat find_data unstuff_loop Z.sub full_read scan_start].
    rewrite Hread.
    cbn -[Z.to_nat find_data unstuff_loop Z.sub scan_start].
    destruct (Z.leb_spec n 0); [lia|].
    destruct (Z.gtb_spec n (max_len m)); [lia|].
    rewrite Hfd. cbn [bind].
    destruct (unstuff_loop (Z.to_nat (n - p)) p (n - p) (scan_start bs))
      as [r|] eqn:Eloop; cbn [bind].
    2:{ left. split; reflexivity. }
    right.
    assert (Hreach : scan_reach p (n - p) bs (scan_of r)).
    { eapply unstuff_loop_reach;
        [lia | lia | apply reach_start | exact Eloop]. }
    apply scan_reach_ok in Hreach; [|lia|lia].
    destruct Hreach as (Hj0 & Hji & Him & Hl & Hpre & _).
    eexists. split; [reflexivity|].
    destruct r as [s|s]; cbn in *.
    + split; [reflexivity|]. split; [reflexivity|].
      rewrite slice_prefix by lia. rewrite Hpre. reflexivity.
    + split; [reflexivity|]. split; [reflexivity|].
      rewrite slice_prefix by lia. rewrite Hpre. reflexivity.
Qed.

Lemma data_pattern_in_range (bs : list Z) (i : Z) :
  0 <= i -> data_pattern bs i = true -> i + 5 < len bs.
Proof.
  intros Hi H. unfold data_pattern in H.
  apply andb_prop in H. destruct H as [_ H].
  destruct (Z.lt_ge_cases (i + 5) (len bs)) as [|Hout]; [assumption|].
  rewrite (nth_overflow bs 0 (n := Z.to_nat (i + 5))) in H
    by (unfold len in Hout; lia).
  discriminate.
Qed.

(* ------------------------------------------------------------------ *)
(** * The unstuffing loop stays inside the capture *)

(** From the read index on the block is still the capture. *)
Lemma scan_ok_rd (base msg_len : Z) (buf : list Z) (s : scan) (k : Z) :
  0 <= base -> scan_ok base msg_len buf s -> len buf = base + msg_len ->
  s_i s <= k < msg_len ->
  rd (s_buf s) (base + k) = Ret (nth (Z.to_nat (base + k)) buf 0).
Proof.
  intros Hb (Hj0 & Hji & Him & Hlen & _ & Hpost) Hn Hk.
  unfold rd. destruct (Z.ltb_spec (base + k) 0); [lia|].
  assert (E : nth_error (s_buf s) (Z.to_nat (base + k))
              = nth_error buf (Z.to_nat (base + k))).
  { replace (Z.to_nat (base + k))
      with (Z.to_nat (base + s_j s) + Z.to_nat (k - s_j s))%nat by lia.
    rewrite <- !nth_error_skipn, Hpost. reflexivity. }
  rewrite E.
  destruct (nth_error buf (Z.to_nat (base + k))) as [c|] eqn:En.
  - rewrite (nth_error_nth _ _ 0 En). reflexivity.
  - apply nth_error_None in En. unfold len in *. lia.
Qed.

Lemma copy_char_line (base msg_len : Z) (buf : list Z) (s : scan) :
  0 <= base -> scan_ok base msg_len buf s -> len buf = base + msg_len ->
  s_i s < msg_len ->
  exists s', copy_char base s = Ret (GoOn s') /\ scan_line base buf s'.
Proof.
  intros Hb Hok Hn Hi. unfold copy_char.
  rewrite (scan_ok_rd base msg_len buf s (s_i s) Hb Hok Hn)
    by (destruct Hok as (? & ? & ?); lia).
  cbn [bind]. eexists. split; [reflexivity|].
  unfold scan_line. cbn [s_prev s_i]. intros Hc.
  replace (base + (s_i s + 1) - 1) with (base + s_i s) by lia. exact Hc.
Qed.

(** On a capture that does not end in an open dot every round of the
    loop is defined. *)
Lemma unstuff_body_defined (base msg_len : Z) (buf : list Z) (s : scan) :
  1 <= base -> len buf = base + msg_len ->
  ends_in_open_dot buf = false ->
  scan_ok base msg_len buf s -> scan_line base buf s ->
  s_i s < msg_len ->
  exists r,
    unstuff_body base s = Ret r
    /\ forall s', r = GoOn s' -> scan_line base buf s'.
Proof.
  intros Hb Hn Hend Hok Hline Hi.
  assert (Hb0 : 0 <= base) by lia.
  assert (Hi0 : 0 <= s_i s) by (destruct Hok as (? & ? & ?); lia).
  destruct (copy_char_line base msg_len buf s Hb0 Hok Hn Hi)
    as (sc & Hcopy & Hcl).
  assert (Hcopied : exists r,
             copy_char base s = Ret r
             /\ forall s', r = GoOn s' -> scan_line base buf s').
  { eexists. split; [exact Hcopy|]. intros s' [= <-]. exact Hcl. }
  unfold unstuff_body.
  destruct (Z.eqb_spec (s_prev s) LF) as [Hprev|]; [|exact Hcopied].
  specialize (Hline Hprev).
  rewrite (scan_ok_rd base msg_len buf s (s_i s) Hb0 Hok Hn) by lia.
  cbn [bind].
  destruct (Z.eqb_spec (nth (Z.to_nat (base + s_i s)) buf 0) (chr "."))
    as [Hdot|]; [|exact Hcopied].
  (* the byte behind the dot *)
  assert (H1 : s_i s + 1 < msg_len).
  { destruct (Z.lt_ge_cases (s_i s + 1) msg_len) as [|Hlast]; [assumption|].
    exfalso. assert (Hlen : len buf = base + s_i s + 1) by lia.
    unfold ends_in_open_dot in Hend. rewrite Hlen in Hend.
    replace (base + s_i s + 1 - 2) with (base + s_i s - 1) in Hend by lia.
    replace (base + s_i s + 1 - 1) with (base + s_i s) in Hend by lia.
    rewrite Hline, Hdot in Hend.
    destruct (Z.leb_spec 2 (base + s_i s + 1)); [|lia].
    discriminate Hend. }
  replace (base + s_i s + 1) with (base + (s_i s + 1)) by lia.
  rewrite (scan_ok_rd base msg_len buf s (s_i s + 1) Hb0 Hok Hn) by lia.
  cbn [bind].
  set (c1 := nth (Z.to_nat (base + (s_i s + 1))) buf 0).
  assert (Hlone : exists lone,
             (if c1 =? CR
              then c2 <- rd (s_buf s) (base + s_i s + 2) ;;
                   (if c2 =? LF then Ret true else Ret (c1 =? LF))
              else Ret (c1 =? LF)) = Ret lone).
  { destruct (Z.eqb_spec c1 CR) as [Hcr|]; [|eexists; reflexivity].
    assert (H2 : s_i s + 2 < msg_len).
    { destruct (Z.lt_ge_cases (s_i s + 2) msg_len) as [|Hlast];
        [assumption|].
      exfalso. assert (Hlen : len buf = base + s_i s + 2) by lia.
      unfold ends_in_open_dot in Hend. rewrite Hlen in Hend.
      replace (base + s_i s + 2 - 3) with (base + s_i s - 1) in Hend by lia.
      replace (base + s_i s + 2 - 2) with (base + s_i s) in Hend by lia.
      replace (base + s_i s + 2 - 1) with (base + (s_i s + 1)) in Hend
        by lia.
      fold c1 in Hend. rewrite Hline, Hdot, Hcr in Hend.
      destruct (Z.leb_spec 3 (base + s_i s + 2)); [|lia].
      rewrite orb_true_r in Hend. discriminate Hend. }
    replace (base + s_i s + 2) with (base + (s_i s + 2)) by lia.
    rewrite (scan_ok_rd base msg_len buf s (s_i s + 2) Hb0 Hok Hn) by lia.
    cbn [bind]. destruct (_ =? LF); eexists; reflexivity. }
  destruct Hlone as (lone & Hlone). rewrite Hlone. cbn [bind].
  destruct lone.
  - eexists. split; [reflexivity|]. intros s' H. discriminate H.
  - destruct (c1 =? chr "."); [|exact Hcopied].
    eexists. split; [reflexivity|]. intros s' [= <-].
    unfold scan_line. cbn [s_prev]. intros H. discriminate H.
Qed.

Lemma unstuff_loop_defined (base msg_len : Z) (buf : list Z) (fuel : nat) :
  1 <= base -> 0 <= msg_len -> len buf = base + msg_len ->
  ends_in_open_dot buf = false ->
  forall s,
    scan_ok base msg_len buf s -> scan_line base buf s ->
    exists r, unstuff_loop fuel base msg_len s = Ret r.
Proof.
  intros Hb Hm Hn Hend.
  induction fuel as [|fuel IH]; intros s Hok Hline; cbn [unstuff_loop].
  - eexists. reflexivity.
  - destruct (Z.ltb_spec (s_i s) msg_len) as [Hi|Hi];
      [|eexists; reflexivity].
    destruct (unstuff_body_defined base msg_len buf s Hb Hn Hend Hok Hline
                Hi) as (r & Hr & Hnext).
    rewrite Hr. cbn [bind].
    destruct r as [s1|s1]; [|eexists; reflexivity].
    apply IH.
    + destruct (unstuff_body_ok base msg_len buf s (GoOn s1)
                  ltac:(lia) Hok Hi Hr) as [E | (s2 & E & Hok2)];
        [discriminate|].
      injection E as <-. exact Hok2.
    + apply Hnext. reflexivity.
Qed.

(** The line that the search finds ends in a line feed. *)
Lemma data_line_ends_in_lf (bs : list Z) (i : Z) :
  data_pattern bs i = true ->
  nth (Z.to_nat ((if nth (Z.to_nat (i + 5)) bs 0 =? CR
                  then i + 7 else i + 6) - 1)) bs 0 = LF.
Proof.
  unfold data_pattern. intros H.
  apply andb_prop in H. destruct H as [_ H].
  destruct (Z.eqb_spec (nth (Z.to_nat (i + 5)) bs 0) CR) as [Hcr|Hcr];
    cbn [andb orb] in H.
  - replace (i + 7 - 1) with (i + 6) by lia.
    apply orb_prop in H. destruct H as [H|H].
    + apply Z.eqb_eq. exact H.
    + apply Z.eqb_eq in H. rewrite Hcr in H. discriminate H.
  - replace (i + 6 - 1) with (i + 5) by lia.
    apply Z.eqb_eq. exact H.
Qed.

(** C8, as amended.  On a capture of [n] bytes, [0 < n <= max_len], that
    does not end in the six bytes LF, DATA, LF, nor in a dot at the
    start of a line with or without a CR behind it: [message_read_bsmtp]
    looks for the first place where the capture holds a line feed, the
    token DATA in either case, and CRLF or LF.  When there is none the
    read fails with [EX_DATAERR], the message left as [MESSAGE_ERROR].
    When [i] is the first one the read returns [EX_OK], and [pre] is the
    capture up to and including the terminator of that line, [pre_len]
    being [i + 7] after CRLF and [i + 6] after LF.  A DATA line without
    a line feed in front of it, the first line of the capture, is not
    one of these places. *)
Theorem bsmtp_data_line_search (w w1 : world) (m : message) (n : Z)
    (bs : list Z) (s' : stream) :
  malloc w = (true, w1) ->
  full_read (w_in w1) (max_len m + 1) (max_len m + 1) = (n, bs, s') ->
  0 < n <= max_len m ->
  data_pattern bs (n - 6) = false ->
  ends_in_open_dot bs = false ->
  ((forall k, 0 <= k -> data_pattern bs k = false) ->
   exists m',
     message_read_bsmtp w m = Ret (EX_DATAERR, m', set_w_in w1 s')
     /\ type m' = MESSAGE_ERROR /\ msg m' = NULL)
  /\ (forall i,
        0 <= i -> data_pattern bs i = true ->
        (forall k, 0 <= k < i -> data_pattern bs k = false) ->
        let p := if nth (Z.to_nat (i + 5)) bs 0 =? CR then i + 7 else i + 6 in
        exists m',
          message_read_bsmtp w m = Ret (EX_OK, m', set_w_in w1 s')
          /\ pre m' = InRaw 0 /\ pre_len m' = p
          /\ load m' (pre m') (pre_len m')
             = Ret (firstn (Z.to_nat p) bs)).
Proof.
  intros Hmalloc Hread Hn Hedge Hend.
  destruct (bsmtp_data_line_window w w1 m n bs s' Hmalloc Hread Hn)
    as [Hnone Hsome].
  pose proof (full_read_len _ _ _ _ _ _ Hread ltac:(lia)) as Hlen.
  split.
  - intros Hno. apply Hnone. intros k Hk. apply Hno. lia.
  - intros i Hi Hyes Hfirst p.
    pose proof (data_pattern_in_range bs i Hi Hyes) as Hin.
    assert (Hwin : 0 <= i < n - 6)
      by (destruct (Z.eq_dec i (n - 6)) as [->|]; [congruence | lia]).
    destruct (Hsome i Hwin Hyes Hfirst) as [[Hfault _] | Hok];
      [exfalso | exact Hok].
    fold p in Hfault.
    assert (Hp : i + 6 <= p <= i + 7)
      by (unfold p; destruct (_ =? CR); lia).
    destruct (unstuff_loop_defined p (n - p) bs (Z.to_nat (n - p))
                ltac:(lia) ltac:(lia) ltac:(lia) Hend (scan_start bs))
      as (r & Hr).
    + apply scan_reach_ok; [lia | lia | apply reach_start].
    + unfold scan_line. cbn [scan_start s_prev s_i]. intros _.
      replace (p + 0 - 1) with (p - 1) by lia.
      apply data_line_ends_in_lf. exact Hyes.
    + rewrite Hr in Hfault. discriminate Hfault.
Qed.

Lemma bsmtp_data_line_search_witness :
  exists m',
    message_read_bsmtp
      (sample_world (bytes "x" ++ [LF] ++ bytes "DATA" ++ [CR; LF]
                     ++ bytes "hi" ++ [LF] ++ bytes "." ++ [CR; LF])
                    [] all_accept)
      (sample_message 100)
    = Ret (EX_OK, m',
           set_w_in (sample_world
                       (bytes "x" ++ [LF] ++ bytes "DATA" ++ [CR; LF]
                        ++ bytes "hi" ++ [LF] ++ bytes "." ++ [CR; LF])
                       [] all_accept) [])
    /\ pre m' = InRaw 0 /\ pre_len m' = 8
    /\ load m' (pre m') (pre_len m')
       = Ret (bytes "x" ++ [LF] ++ bytes "DATA" ++ [CR; LF]).
Proof.
  refine (proj2 (bsmtp_data_line_search
                   (sample_world (bytes "x" ++ [LF] ++ bytes "DATA"
                                  ++ [CR; LF] ++ bytes "hi" ++ [LF]
                                  ++ bytes "." ++ [CR; LF]) [] all_accept)
                   _ (sample_message 100) 14 _ []
                   eq_refl eq_refl _ eq_refl eq_refl) 1 _ eq_refl _).
  - cbn. lia.
  - lia.
  - intros k Hk. assert (k = 0) by lia. subst k. reflexivity.
Defined.

(* ------------------------------------------------------------------ *)
(** * The fuel of the loops is enough *)

Lemma sys_read_pending (s s' : stream) (nbytes n : Z) (bs : list Z) :
  0 <= nbytes ->
  sys_read s nbytes = (n, bs, s') ->
  (pending s' + length bs <= pending s)%nat.
Proof.
  intros Hn. unfold sys_read. destruct s as [|[bs1|] s1].
  - intros H; inversion H; subst. simpl. lia.
  - destruct (Z.leb_spec (len bs1) nbytes) as [Hle|Hgt].
    + intros H; inversion H; subst. simpl. lia.
    + intros H; inversion H; subst. simpl.
      rewrite length_firstn, length_skipn. lia.
  - intros H; inversion H; subst. simpl. lia.
Qed.

Lemma full_read_loop_fuel (fuel : nat) :
  forall (s : stream) (min l total : Z) (buf : list Z),
    (Z.to_nat (min - total) <= fuel)%nat ->
    full_read_loop (S fuel) s min l total buf
    = full_read_loop fuel s min l total buf.
Proof.
  induction fuel as [|fuel IH]; intros s min l total buf Hf.
  - cbn [full_read_loop].
    destruct (Z.ltb_spec total min); [lia | reflexivity].
  - change (full_read_loop (S (S fuel)) s min l total buf)
      with (if total <? min then
              let '(thistime, bs, s') := timeout_read s (l - total) in
              if thistime <? 0 then (-1, buf, s')
              else if thistime =? 0 then (total, buf, s')
              else full_read_loop (S fuel) s' min l (total + thistime)
                                  (buf ++ bs)
            else (total, buf, s)).
    cbn [full_read_loop].
    destruct (Z.ltb_spec total min); [|reflexivity].
    destruct (timeout_read s (l - total)) as [[thistime bs] s'].
    destruct (Z.ltb_spec thistime 0); [reflexivity|].
    destruct (Z.eqb_spec thistime 0); [reflexivity|].
    apply IH. lia.
Qed.

Lemma full_read_loop_more (k fuel : nat) (s : stream) (min l total : Z)
    (buf : list Z) :
  (Z.to_nat (min - total) <= fuel)%nat ->
  full_read_loop (k + fuel) s min l total buf
  = full_read_loop fuel s min l total buf.
Proof.
  intros Hf. induction k as [|k IH]; [reflexivity|].
  cbn [Nat.add]. rewrite full_read_loop_fuel by lia. exact IH.
Qed.

Lemma full_read_loop_pending (fuel : nat) :
  forall (s s' : stream) (min l total n : Z) (buf bs : list Z),
    l <= min \/ 0 <= l - min ->
    full_read_loop fuel s min l total buf = (n, bs, s') ->
    (pending s' <= pending s)%nat
    /\ (0 <= n -> Z.of_nat (pending s') + (n - total) <= Z.of_nat (pending s)).
Proof.
  induction fuel as [|fuel IH]; intros s s' min l total n buf bs Hl;
    cbn [full_read_loop].
  - intros H; inversion H; subst. split; lia.
  - destruct (Z.ltb_spec total min).
    2:{ intros H0; inversion H0; subst. split; lia. }
    unfold timeout_read.
    destruct (sys_read s (l - total)) as [[thistime bs0] s0] eqn:E.
    pose proof (sys_read_len _ _ _ _ _ E) as Hlen.
    assert (Hp : (pending s0 + length bs0 <= pending s)%nat).
    { destruct (Z.le_gt_cases 0 (l - total)) as [Hge|Hlt].
      - eapply sys_read_pending; eauto.
      - (* a negative count: nothing is delivered *)
        revert E. unfold sys_read. destruct s as [|[bs1|] s1].
        + intros E; inversion E; subst. simpl. lia.
        + destruct (Z.leb_spec (len bs1) (l - total)) as [Hle|Hgt].
          * pose proof (len_nonneg bs1). lia.
          * intros E; inversion E; subst.
            replace (Z.to_nat (l - total)) with O by lia. simpl. lia.
        + intros E; inversion E; subst. simpl. lia. }
    destruct (Z.ltb_spec thistime 0).
    { intros H1; inversion H1; subst. split; lia. }
    destruct (Z.eqb_spec thistime 0).
    { intros H1; inversion H1; subst. split; lia. }
    intros H1. apply IH in H1; [|exact Hl].
    unfold len in Hlen. split; lia.
Qed.

Lemma full_read_pending (s s' : stream) (min n : Z) (bs : list Z) :
  full_read s min min = (n, bs, s') ->
  (pending s' <= pending s)%nat
  /\ (0 <= n -> Z.of_nat (pending s') + n <= Z.of_nat (pending s)).
Proof.
  unfold full_read. intros H.
  apply full_read_loop_pending in H; [|lia].
  destruct H as [H1 H2]. split; [exact H1|]. intros Hn.
  specialize (H2 Hn). lia.
Qed.

Lemma message_dump_loop_S (fuel : nat) (s : stream) (k : sink) :
  message_dump_loop (S fuel) s k
  = (let '(nbytes, buf, s') := full_read s 8192 8192 in
     if nbytes >? 0 then
       let '(_, k') := full_write k buf nbytes in
       message_dump_loop fuel s' k'
     else (s', k)).
Proof. reflexivity. Qed.

(** [message_dump]: with more fuel than the descriptor has bytes the loop
    ends because a read brings nothing. *)
Lemma message_dump_loop_fuel (fuel : nat) :
  forall (s : stream) (k : sink),
    (pending s < fuel)%nat ->
    message_dump_loop (S fuel) s k = message_dump_loop fuel s k.
Proof.
  induction fuel as [|fuel IH]; intros s k Hf; [lia|].
  rewrite (message_dump_loop_S (S fuel)), (message_dump_loop_S fuel).
  destruct (full_read s 8192 8192) as [[nbytes buf] s'] eqn:E.
  destruct (Z.gtb_spec nbytes 0); [|reflexivity].
  destruct (full_write k buf nbytes) as [x k'].
  apply IH. apply full_read_pending in E. lia.
Qed.

Lemma upd_nat_nth_error (l : list Z) (n : nat) (v : Z) :
  (n < length l)%nat -> nth_error (upd_nat l n v) n = Some v.
Proof.
  revert n. induction l as [|c t IH]; intros n H; simpl in *; [lia|].
  destruct n; simpl; [reflexivity|]. apply IH. lia.
Qed.

Lemma rd_wr_same (buf : list Z) (i v : Z) :
  0 <= i < len buf -> rd (wr buf i v) i = Ret v.
Proof.
  intros H. unfold rd, wr. destruct (Z.ltb_spec i 0); [lia|].
  rewrite upd_nat_nth_error; [reflexivity | unfold len in H; lia].
Qed.

(** A line that was read ends in NUL at [buf[len]], and has taken from
    the descriptor at least as many bytes as [len] has grown. *)
Lemma read_line_loop_ok (bufsiz : Z) (fuel : nat) :
  forall (s s' : stream) (buf buf' : list Z) (l l' code : Z),
    0 <= l ->
    read_line_loop fuel s buf l bufsiz = Ret (code, buf', l', s') ->
    (pending s' <= pending s)%nat
    /\ (code = EX_OK ->
        rd buf' l' = Ret NUL
        /\ Z.of_nat (pending s') + (l' - l) <= Z.of_nat (pending s)).
Proof.
  induction fuel as [|fuel IH]; intros s s' buf buf' l l' code Hl;
    cbn [read_line_loop].
  - intros H; inversion H; subst. split; [lia | discriminate].
  - destruct (Z.ltb_spec l (bufsiz - 1)).
    2:{ intros H0; inversion H0; subst. split; [lia | discriminate]. }
    unfold timeout_read.
    destruct (sys_read s 1) as [[bytesread bs] s0] eqn:E.
    pose proof (sys_read_pending s s0 1 bytesread bs ltac:(lia) E) as Hp.
    pose proof (sys_read_len _ _ _ _ _ E) as Hlen.
    destruct (rd _ l) as [c|] eqn:Erd; cbn [bind]; [|discriminate].
    apply rd_inv in Erd. destruct Erd as [Hrange _].
    destruct (c =? LF).
    + destruct (Z.gtb_spec l 0).
      * destruct (rd _ (l - 1)) as [c'|]; cbn [bind]; [|discriminate].
        destruct (c' =? CR); intros H1; inversion H1; subst.
        -- split; [lia|]. intros _. split.
           ++ apply rd_wr_same. rewrite wr_len by lia. lia.
           ++ lia.
        -- split; [lia|]. intros _. split.
           ++ apply rd_wr_same. lia.
           ++ lia.
      * cbn [bind]. intros H1; inversion H1; subst.
        split; [lia|]. intros _. split.
        -- apply rd_wr_same. lia.
        -- lia.
    + destruct (Z.leb_spec bytesread 0).
      { intros H1; inversion H1; subst. split; [lia | discriminate]. }
      intros H1. apply IH in H1; [|lia].
      destruct H1 as [H1 H2]. unfold len in Hlen. split; [lia|].
      intros Hc. specialize (H2 Hc). split; [tauto|]. lia.
Qed.

Lemma header_loop_S (fuel : nat) (flags : Z) (m : message) (s : stream)
    (buf : list Z) (bufsiz : Z) :
  header_loop (S fuel) flags m s buf bufsiz
  = ('(failureval, buf, len, s) <- _spamc_read_full_line s buf bufsiz ;;
     if negb (failureval =? EX_OK) then Ret (failureval, m, buf, s)
     else
       c0 <- (if len =? 0 then rd buf 0 else Ret NUL) ;;
       if (len =? 0) && (c0 =? NUL) then Ret (EX_OK, m, buf, s)
       else
         '(code, m) <- _handle_spamd_header m flags (cstr buf) ;;
         if code <? 0 then Ret (EX_PROTOCOL, m, buf, s)
         else header_loop fuel flags m s buf bufsiz).
Proof. reflexivity. Qed.

(** The header loop: with more fuel than the descriptor has bytes the
    fuel is never what ends it. *)
Lemma header_loop_fuel (flags bufsiz : Z) (fuel : nat) :
  forall (m : message) (s : stream) (buf : list Z),
    (pending s < fuel)%nat ->
    header_loop (S fuel) flags m s buf bufsiz
    = header_loop fuel flags m s buf bufsiz.
Proof.
  induction fuel as [|fuel IH]; intros m s buf Hf; [lia|].
  rewrite (header_loop_S (S fuel)), (header_loop_S fuel).
  unfold _spamc_read_full_line.
  destruct (read_line_loop _ s buf 0 bufsiz) as [[[[fv b] l] s0]|] eqn:E;
    cbn [bind]; [|reflexivity].
  apply read_line_loop_ok in E; [|lia]. destruct E as [E1 E2].
  destruct (Z.eqb_spec fv EX_OK) as [->|]; cbn [negb]; [|reflexivity].
  destruct (E2 eq_refl) as [Hnul Hcount].
  destruct (Z.eqb_spec l 0) as [->|Hl].
  - rewrite Hnul. cbn [bind]. reflexivity.
  - cbn [bind andb].
    destruct (_handle_spamd_header m flags (cstr b)) as [[code m']|];
      cbn [bind]; [|reflexivity].
    destruct (code <? 0); [reflexivity|].
    apply IH.
    assert (0 <= l).
    { apply rd_inv in Hnul. lia. }
    lia.
Qed.

Lemma sys_write_progress (k k' : sink) (bs : list Z) (n : Z) :
  sys_write k bs = (n, k') -> bs <> [] -> n < 0 \/ 1 <= n.
Proof.
  intros H Hne.
  assert (0 < len bs)
    by (destruct bs; [congruence | unfold len; simpl length; lia]).
  revert H. unfold sys_write. destruct (room k) as [r|].
  - destruct (Z.leb_spec r 0); intros H1; inversion H1; subst; lia.
  - intros H1; inversion H1; subst. lia.
Qed.

Lemma full_write_loop_S (fuel : nat) (k : sink) (buf : list Z)
    (n total : Z) :
  full_write_loop (S fuel) k buf n total
  = (if total <? n then
       let '(thistime, k') :=
         sys_write k (firstn (Z.to_nat (n - total))
                             (skipn (Z.to_nat total) buf)) in
       if thistime <? 0 then (thistime, k')
       else full_write_loop fuel k' buf n (total + thistime)
     else (total, k)).
Proof. reflexivity. Qed.

(** [full_write]: [len - total] rounds are enough when [buf] holds the
    [len] bytes. *)
Lemma full_write_loop_fuel (buf : list Z) (n : Z) (fuel : nat) :
  n <= len buf ->
  forall (k : sink) (total : Z),
    0 <= total ->
    (Z.to_nat (n - total) <= fuel)%nat ->
    full_write_loop (S fuel) k buf n total
    = full_write_loop fuel k buf n total.
Proof.
  intros Hn. induction fuel as [|fuel IH]; intros k total H0 Hf.
  - rewrite full_write_loop_S. cbn [full_write_loop].
    destruct (Z.ltb_spec total n); [lia | reflexivity].
  - rewrite (full_write_loop_S (S fuel)), (full_write_loop_S fuel).
    destruct (Z.ltb_spec total n); [|reflexivity].
    destruct (sys_write k _) as [thistime k'] eqn:E.
    apply sys_write_progress in E.
    + destruct (Z.ltb_spec thistime 0); [reflexivity|].
      apply IH; lia.
    + intros Hnil. apply (f_equal (@length Z)) in Hnil.
      rewrite length_firstn, length_skipn in Hnil.
      unfold len in Hn. simpl in Hnil. lia.
Qed.

Lemma fill_buffer_S (fuel : nat) (o : list Z) (out_len jlimit i j : Z)
    (buffer : list Z) :
  fill_buffer (S fuel) o out_len jlimit i j buffer
  = (if (i <? out_len) && (j <? jlimit) then
       stuff <- (if i + 1 <? out_len then
                   c0 <- rd o i ;;
                   if c0 =? LF then
                     c1 <- rd o (i + 1) ;; Ret (c1 =? chr ".")
                   else Ret false
                 else Ret false) ;;
       if stuff then
         if j >? jlimit - 4 then Ret (i, j, buffer)
         else
           c0 <- rd o i ;;
           c1 <- rd o (i + 1) ;;
           fill_buffer fuel o out_len jlimit (i + 2) (j + 3)
                       (buffer ++ [c0; c1; chr "."])
       else
         c0 <- rd o i ;;
         fill_buffer fuel o out_len jlimit (i + 1) (j + 1) (buffer ++ [c0])
     else Ret (i, j, buffer)).
Proof. reflexivity. Qed.

(** The buffer loop: [jlimit - j] rounds are enough. *)
Lemma fill_buffer_fuel (o : list Z) (out_len jlimit : Z) (fuel : nat) :
  forall (i j : Z) (buffer : list Z),
    (Z.to_nat (jlimit - j) <= fuel)%nat ->
    fill_buffer (S fuel) o out_len jlimit i j buffer
    = fill_buffer fuel o out_len jlimit i j buffer.
Proof.
  induction fuel as [|fuel IH]; intros i j buffer Hf.
  - rewrite fill_buffer_S. cbn [fill_buffer].
    destruct (Z.ltb_spec j jlimit); [lia|].
    rewrite andb_false_r. reflexivity.
  - rewrite (fill_buffer_S (S fuel)), (fill_buffer_S fuel).
    destruct ((i <? out_len) && (j <? jlimit)); [|reflexivity].
    destruct (if i + 1 <? out_len then _ else _) as [stuff|]; cbn [bind];
      [|reflexivity].
    destruct stuff.
    + destruct (j >? jlimit - 4); [reflexivity|].
      destruct (rd o i); cbn [bind]; [|reflexivity].
      destruct (rd o (i + 1)); cbn [bind]; [|reflexivity].
      apply IH. lia.
    + destruct (rd o i); cbn [bind]; [|reflexivity].
      apply IH. lia.
Qed.

(** A buffer that is filled from an index inside the body, with room for
    a stuffed pair, takes at least one byte of the body. *)
Lemma fill_buffer_mono (o : list Z) (out_len jlimit : Z) (fuel : nat) :
  forall (i j i' j' : Z) (buffer buffer' : list Z),
    fill_buffer fuel o out_len jlimit i j buffer = Ret (i', j', buffer') ->
    i <= i'.
Proof.
  induction fuel as [|fuel IH]; intros i j i' j' buffer buffer'.
  - cbn [fill_buffer]. intros H; inversion H; lia.
  - rewrite fill_buffer_S.
    destruct ((i <? out_len) && (j <? jlimit)).
    2:{ intros H; inversion H; lia. }
    destruct (if i + 1 <? out_len then _ else _) as [stuff|]; cbn [bind];
      [|discriminate].
    destruct stuff.
    + destruct (j >? jlimit - 4); [intros H; inversion H; lia|].
      destruct (rd o i); cbn [bind]; [|discriminate].
      destruct (rd o (i + 1)); cbn [bind]; [|discriminate].
      intros H. apply IH in H. lia.
    + destruct (rd o i); cbn [bind]; [|discriminate].
      intros H. apply IH in H. lia.
Qed.

Lemma fill_buffer_progress (o : list Z) (out_len jlimit : Z) (fuel : nat)
    (i j i' j' : Z) (buffer buffer' : list Z) :
  i < out_len -> j < jlimit -> j <= jlimit - 4 ->
  fill_buffer (S fuel) o out_len jlimit i j buffer = Ret (i', j', buffer') ->
  i < i'.
Proof.
  intros Hi Hj Hj4. rewrite fill_buffer_S.
  destruct (Z.ltb_spec i out_len); [|lia].
  destruct (Z.ltb_spec j jlimit); [|lia]. cbn [andb].
  destruct (if i + 1 <? out_len then _ else _) as [stuff|]; cbn [bind];
    [|discriminate].
  destruct stuff.
  - destruct (Z.gtb_spec j (jlimit - 4)); [lia|].
    destruct (rd o i); cbn [bind]; [|discriminate].
    destruct (rd o (i + 1)); cbn [bind]; [|discriminate].
    intros Hfill. apply fill_buffer_mono in Hfill. lia.
  - destruct (rd o i); cbn [bind]; [|discriminate].
    intros Hfill. apply fill_buffer_mono in Hfill. lia.
Qed.

Lemma write_stuffed_S (fuel : nat) (k : sink) (o : list Z)
    (out_len i total : Z) :
  write_stuffed (S fuel) k o out_len i total
  = (if i <? out_len then
       '(i', j, buffer) <-
         fill_buffer (Z.to_nat (1024 - 4)) o out_len (1024 - 4) i 0 [] ;;
       let '(n, k') := full_write k buffer j in
       write_stuffed fuel k' o out_len i' (total + n)
     else Ret (total, k)).
Proof. reflexivity. Qed.

(** The loop over the body: [out_len - i] buffers are enough. *)
Lemma write_stuffed_fuel (o : list Z) (out_len : Z) (fuel : nat) :
  forall (k : sink) (i total : Z),
    (Z.to_nat (out_len - i) <= fuel)%nat ->
    write_stuffed (S fuel) k o out_len i total
    = write_stuffed fuel k o out_len i total.
Proof.
  induction fuel as [|fuel IH]; intros k i total Hf.
  - rewrite write_stuffed_S. cbn [write_stuffed].
    destruct (Z.ltb_spec i out_len); [lia | reflexivity].
  - rewrite (write_stuffed_S (S fuel)), (write_stuffed_S fuel).
    destruct (Z.ltb_spec i out_len); [|reflexivity].
    destruct (fill_buffer _ _ _ _ _ _ _) as [[[i' j] buffer]|] eqn:E;
      cbn [bind]; [|reflexivity].
    destruct (full_write k buffer j) as [n k'].
    apply IH.
    assert (i < i'); [|lia].
    replace (Z.to_nat (1024 - 4)) with (S (Z.to_nat (1024 - 5))) in E
      by reflexivity.
    eapply fill_buffer_progress; [ | | | exact E]; lia.
Qed.

(* ------------------------------------------------------------------ *)
(** * The connection manager *)

Lemma copy_addr_list_spec (l : list Z) :
  forall hostnum acc,
    0 <= hostnum ->
    copy_addr_list l hostnum acc
    = (Z.min (hostnum + len l) (Z.max hostnum 256),
       acc ++ firstn (Z.to_nat (256 - hostnum)) l).
Proof.
  induction l as [|a rest IH]; intros hostnum acc H0; cbn [copy_addr_list].
  - rewrite firstn_nil, app_nil_r. f_equal. unfold len; simpl. lia.
  - destruct (Z.gtb_spec hostnum 255).
    + replace (Z.to_nat (256 - hostnum)) with O by lia.
      rewrite firstn_O, app_nil_r. f_equal. unfold len; simpl length. lia.
    + rewrite IH by lia. f_equal.
      * unfold len; simpl length. lia.
      * replace (Z.to_nat (256 - hostnum))
          with (S (Z.to_nat (256 - (hostnum + 1)))) by lia.
        rewrite firstn_cons, <- app_assoc. reflexivity.
Qed.

Lemma connects_app (l1 l2 : list net_event) :
  connects (l1 ++ l2) = (connects l1 + connects l2)%nat.
Proof. unfold connects. rewrite filter_app, length_app. reflexivity. Qed.

(** The address of attempt [k]: position [k mod length] of the list. *)
Lemma dial_read (addrs : list Z) (k : Z) :
  addrs <> [] -> 0 <= k < MAX_CONNECT_RETRIES ->
  rd (firstn (Z.to_nat 256) addrs) (Z.rem k (Z.min (len addrs) 256))
  = Ret (nth (Z.to_nat k mod length addrs) addrs 0).
Proof.
  intros Hne Hk. unfold MAX_CONNECT_RETRIES in Hk.
  assert (Hpos : 0 < len addrs)
    by (destruct addrs; [congruence | unfold len; simpl; lia]).
  assert (Hidx : Z.rem k (Z.min (len addrs) 256)
                 = Z.of_nat (Z.to_nat k mod length addrs)).
  { rewrite Z.rem_mod_nonneg by lia.
    rewrite Nat2Z.inj_mod, Z2Nat.id by lia. fold (len addrs).
    destruct (Z.le_gt_cases (len addrs) 256).
    - rewrite Z.min_l by lia. reflexivity.
    - rewrite Z.min_r by lia. rewrite !Z.mod_small by lia. reflexivity. }
  rewrite Hidx.
  assert (Hlt : (Z.to_nat k mod length addrs < length addrs)%nat)
    by (apply Nat.mod_upper_bound; unfold len in Hpos; lia).
  assert (Hlt' : (Z.to_nat k mod length addrs < 256)%nat).
  { destruct (Nat.le_gt_cases (length addrs) 256); [lia|].
    rewrite Nat.mod_small by lia. lia. }
  unfold rd.
  destruct (Z.ltb_spec (Z.of_nat (Z.to_nat k mod length addrs)) 0); [lia|].
  rewrite Nat2Z.id.
  rewrite nth_error_firstn.
  destruct (Nat.ltb_spec (Z.to_nat k mod length addrs) (Z.to_nat 256)); [|lia].
  rewrite (nth_error_nth' addrs 0 Hlt). reflexivity.
Qed.

Lemma connect_loop_round (fuel : nat) (w : world) (inaddrlist : list Z)
    (hostnum port numloops a : Z) (origerr : option errno_t) :
  numloops < MAX_CONNECT_RETRIES -> hostnum <> 0 ->
  rd inaddrlist (Z.rem numloops hostnum) = Ret a ->
  connect_loop (S fuel) w None inaddrlist hostnum port numloops origerr
  = match w_connect w (connects (w_log w)) a with
    | Some e =>
        connect_loop fuel
          (log (log w (EvConnect a port)) (EvSleep CONNECT_RETRY_SLEEP))
          None inaddrlist hostnum port (numloops + 1) (Some e)
    | None => Ret (true, origerr, log w (EvConnect a port))
    end.
Proof.
  intros Hn Hh Hrd. cbn [connect_loop].
  destruct (Z.ltb_spec numloops MAX_CONNECT_RETRIES); [|lia].
  destruct (Z.eqb_spec hostnum 0); [congruence|].
  rewrite Hrd. cbn. reflexivity.
Qed.

Lemma connect_error_classes (e : errno_t) :
  (e = ECONNREFUSED \/ e = ETIMEDOUT \/ e = ENETUNREACH ->
   connect_error_code e = EX_UNAVAILABLE)
  /\ (e = EACCES -> connect_error_code e = EX_NOPERM)
  /\ (e <> ECONNREFUSED -> e <> ETIMEDOUT -> e <> ENETUNREACH ->
      e <> EACCES -> connect_error_code e = EX_SOFTWARE).
Proof.
  repeat split.
  - intros [-> | [-> | ->]]; reflexivity.
  - intros ->; reflexivity.
  - intros; destruct e; try reflexivity; congruence.
Qed.

Lemma try_to_connect_attempts (w : world) (addrs : list Z) (port : Z) :
  addrs <> [] -> w_socket w = None ->
  let dial := fun k : nat => nth (k mod length addrs) addrs 0 in
  let fails := fun k : nat =>
                 w_connect w (connects (w_log w) + k)%nat (dial k) in
  match fails 0%nat, fails 1%nat, fails 2%nat with
  | None, _, _ =>
      try_to_connect w None (Some addrs) port
      = Ret (EX_OK,
             set_w_log w (w_log w ++ [EvSocket; EvConnect (dial 0%nat) port]))
  | Some _, None, _ =>
      try_to_connect w None (Some addrs) port
      = Ret (EX_OK,
             set_w_log w (w_log w ++ [EvSocket;
                                      EvConnect (dial 0%nat) port; EvSleep 1;
                                      EvConnect (dial 1%nat) port]))
  | Some _, Some _, None =>
      try_to_connect w None (Some addrs) port
      = Ret (EX_OK,
             set_w_log w (w_log w ++ [EvSocket;
                                      EvConnect (dial 0%nat) port; EvSleep 1;
                                      EvConnect (dial 1%nat) port; EvSleep 1;
                                      EvConnect (dial 2%nat) port]))
  | Some _, Some _, Some e =>
      try_to_connect w None (Some addrs) port
      = Ret (connect_error_code e,
             set_w_log w (w_log w ++ [EvSocket;
                                      EvConnect (dial 0%nat) port; EvSleep 1;
                                      EvConnect (dial 1%nat) port; EvSleep 1;
                                      EvConnect (dial 2%nat) port; EvSleep 1;
                                      EvClose]))
      /\ (e = ECONNREFUSED \/ e = ETIMEDOUT \/ e = ENETUNREACH ->
          connect_error_code e = EX_UNAVAILABLE)
      /\ (e = EACCES -> connect_error_code e = EX_NOPERM)
      /\ (e <> ECONNREFUSED -> e <> ETIMEDOUT -> e <> ENETUNREACH ->
          e <> EACCES -> connect_error_code e = EX_SOFTWARE)
  end.
Proof.
  intros Hne Hsock dial fails.
  assert (Hhost : Z.min (len addrs) 256 <> 0).
  { destruct addrs; [congruence | unfold len; simpl length; lia]. }
  unfold try_to_connect.
  rewrite copy_addr_list_spec by lia.
  change (0 + len addrs) with (len addrs).
  change (Z.max 0 256) with 256. change (256 - 0) with 256.
  cbn [app]. cbn [w_socket log set_w_log]. rewrite Hsock.
  change (Z.to_nat MAX_CONNECT_RETRIES) with 3%nat.
  assert (Hlog : forall (x : world) (l1 l2 : list net_event),
             set_w_log (set_w_log x l1) l2 = set_w_log x l2)
    by reflexivity.
  assert (Hk : forall k, k = 0 \/ k = 1 \/ k = 2 ->
                         0 <= k < MAX_CONNECT_RETRIES)
    by (unfold MAX_CONNECT_RETRIES; lia).
  assert (Hlt : forall k, k = 0 \/ k = 1 \/ k = 2 ->
                          k < MAX_CONNECT_RETRIES)
    by (unfold MAX_CONNECT_RETRIES; lia).
  unfold CONNECT_RETRY_SLEEP.
  (* the first attempt *)
  rewrite (connect_loop_round _ _ _ _ _ 0 _ _ (Hlt 0 ltac:(lia)) Hhost
             (dial_read addrs 0 Hne (Hk 0 ltac:(lia)))).
  unfold log, CONNECT_RETRY_SLEEP.
  cbn [w_log w_connect set_w_log]. rewrite ?Hlog.
  rewrite <- ?app_assoc. cbn [app].
  rewrite connects_app. change (connects [EvSocket]) with 0%nat.
  change (Z.to_nat 0) with 0%nat.
  fold (dial 0%nat). fold (fails 0%nat).
  destruct (fails 0%nat) as [e0|]; [|reflexivity].
  (* the second attempt *)
  rewrite (connect_loop_round _ _ _ _ _ (0 + 1) _ _ (Hlt 1 ltac:(lia)) Hhost
             (dial_read addrs 1 Hne (Hk 1 ltac:(lia)))).
  unfold log, CONNECT_RETRY_SLEEP.
  cbn [w_log w_connect set_w_log]. rewrite ?Hlog.
  rewrite <- ?app_assoc. cbn [app].
  rewrite connects_app.
  change (connects [EvSocket; EvConnect (dial 0%nat) port; EvSleep 1])
    with 1%nat.
  change (Z.to_nat 1) with 1%nat.
  fold (dial 1%nat). fold (fails 1%nat).
  destruct (fails 1%nat) as [e1|]; [|reflexivity].
  (* the third attempt *)
  rewrite (connect_loop_round _ _ _ _ _ (0 + 1 + 1) _ _ (Hlt 2 ltac:(lia))
             Hhost (dial_read addrs 2 Hne (Hk 2 ltac:(lia)))).
  unfold log, CONNECT_RETRY_SLEEP.
  cbn [w_log w_connect set_w_log]. rewrite ?Hlog.
  rewrite <- ?app_assoc. cbn [app].
  rewrite connects_app.
  change (connects [EvSocket; EvConnect (dial 0%nat) port; EvSleep 1;
                    EvConnect (dial 1%nat) port; EvSleep 1])
    with 2%nat.
  change (Z.to_nat 2) with 2%nat.
  fold (dial 2%nat). fold (fails 2%nat).
  destruct (fails 2%nat) as [e2|]; [|reflexivity].
  cbn [connect_loop bind].
  unfold log, CONNECT_RETRY_SLEEP.
  cbn [w_log w_connect set_w_log]. rewrite ?Hlog.
  rewrite <- ?app_assoc. cbn [app].
  split; [reflexivity | apply connect_error_classes].
Qed.

(** C6.  For a list of candidate addresses that is not empty, and once
    the socket is made, [try_to_connect] dials for attempt [k] = 0, 1, 2
    the address at position [k mod length] of the list, each attempt one
    more [connect] on the socket, and returns [EX_OK] with the connection
    at the first attempt that succeeds, without dialling further.  When
    all three fail it closes the socket and returns the class of the
    error of the LAST attempt: [EX_UNAVAILABLE] for refused, timed out
    and unreachable, [EX_NOPERM] for a permission error, [EX_SOFTWARE]
    for the rest.  With three addresses that all refuse, each address is
    dialled and the result is [EX_UNAVAILABLE]. *)
Theorem try_to_connect_round_robin (w : world) (addrs : list Z) (port : Z) :
  addrs <> [] -> w_socket w = None ->
  let dial := fun k : nat => nth (k mod length addrs) addrs 0 in
  let fails := fun k : nat =>
                 w_connect w (connects (w_log w) + k)%nat (dial k) in
  match fails 0%nat, fails 1%nat, fails 2%nat with
  | None, _, _ =>
      try_to_connect w None (Some addrs) port
      = Ret (EX_OK,
             set_w_log w (w_log w ++ [EvSocket; EvConnect (dial 0%nat) port]))
  | Some _, None, _ =>
      try_to_connect w None (Some addrs) port
      = Ret (EX_OK,
             set_w_log w (w_log w ++ [EvSocket;
                                      EvConnect (dial 0%nat) port; EvSleep 1;
                                      EvConnect (dial 1%nat) port]))
  | Some _, Some _, None =>
      try_to_connect w None (Some addrs) port
      = Ret (EX_OK,
             set_w_log w (w_log w ++ [EvSocket;
                                      EvConnect (dial 0%nat) port; EvSleep 1;
                                      EvConnect (dial 1%nat) port; EvSleep 1;
                                      EvConnect (dial 2%nat) port]))
  | Some _, Some _, Some e =>
      try_to_connect w None (Some addrs) port
      = Ret (connect_error_code e,
             set_w_log w (w_log w ++ [EvSocket;
                                      EvConnect (dial 0%nat) port; EvSleep 1;
                                      EvConnect (dial 1%nat) port; EvSleep 1;
                                      EvConnect (dial 2%nat) port; EvSleep 1;
                                      EvClose]))
      /\ (e = ECONNREFUSED \/ e = ETIMEDOUT \/ e = ENETUNREACH ->
          connect_error_code e = EX_UNAVAILABLE)
      /\ (e = EACCES -> connect_error_code e = EX_NOPERM)
      /\ (e <> ECONNREFUSED -> e <> ETIMEDOUT -> e <> ENETUNREACH ->
          e <> EACCES -> connect_error_code e = EX_SOFTWARE)
  end
  /\ (length addrs = 3%nat ->
      (forall n a, w_connect w n a = Some ECONNREFUSED) ->
      exists w',
        try_to_connect w None (Some addrs) port = Ret (EX_UNAVAILABLE, w')
        /\ forall a, In a addrs -> In (EvConnect a port) (w_log w')).
Proof.
  intros Hne Hsock dial fails. split.
  - apply try_to_connect_attempts; assumption.
  - intros H3 Hall.
    pose proof (try_to_connect_attempts w addrs port Hne Hsock) as H.
    cbv beta zeta in H. rewrite !Hall in H. destruct H as [H _].
    eexists. split; [exact H|].
    destruct addrs as [|a0 [|a1 [|a2 [|a3 rest]]]]; try discriminate.
    cbn [set_w_log w_log]. intros a Ha. apply in_or_app. right.
    cbn in Ha. cbn.
    destruct Ha as [<- | [<- | [<- | []]]]; tauto.
Qed.

Lemma try_to_connect_three_refusing :
  try_to_connect (sample_world [] [] all_refuse) None (Some [1; 2; 3]) 783
  = Ret (EX_UNAVAILABLE,
         set_w_log (sample_world [] [] all_refuse)
                   [EvSocket; EvConnect 1 783; EvSleep 1; EvConnect 2 783;
                    EvSleep 1; EvConnect 3 783; EvSleep 1; EvClose]).
Proof.
  exact (proj1 (proj1 (try_to_connect_round_robin
                         (sample_world [] [] all_refuse) [1; 2; 3] 783
                         ltac:(discriminate) eq_refl))).
Defined.

(* ------------------------------------------------------------------ *)
(** * The codec *)

Ltac fields :=
  cbn [max_len timeout type raw raw_len pre pre_len msg msg_len post
       post_len content_length is_spam score threshold out out_len
       raw_block out_block
       set_max_len set_type set_raw set_raw_len set_pre set_pre_len
       set_msg set_msg_len set_post set_post_len set_content_length
       set_is_spam set_score set_threshold set_out set_out_len
       set_raw_block set_out_block clear_message].

Lemma same_frame_refl (m : message) : same_frame m m.
Proof. repeat split. Qed.

Lemma same_frame_trans (m1 m2 m3 : message) :
  same_frame m1 m2 -> same_frame m2 m3 -> same_frame m1 m3.
Proof. unfold same_frame. intuition congruence. Qed.

Lemma handle_header_frame (m m' : message) (flags code : Z) (buf : list Z) :
  flag_set flags SPAMC_CHECK_ONLY = false ->
  _handle_spamd_header m flags buf = Ret (code, m') ->
  same_frame m m'.
Proof.
  intros Hflag. unfold _handle_spamd_header. rewrite Hflag.
  destruct (sscanf buf "Spam: %5s ; %20s / %20s") as [n items].
  destruct (negb _); [discriminate|].
  destruct (n =? 3).
  - intros H. inversion H; subst. repeat split.
  - destruct (sscanf buf "Content-length: %d") as [n2 items2].
    destruct (n2 =? 1).
    + cbn [content_length set_content_length].
      destruct (_ <? 0); intros H; inversion H; subst; repeat split.
    + intros H; inversion H; subst; repeat split.
Qed.

Lemma header_loop_frame (flags : Z) (bufsiz : Z) (fuel : nat) :
  flag_set flags SPAMC_CHECK_ONLY = false ->
  forall m s buf code m' buf' s',
    header_loop fuel flags m s buf bufsiz = Ret (code, m', buf', s') ->
    same_frame m m'.
Proof.
  intros Hflag. induction fuel as [|fuel IH]; intros m s buf code m' buf' s';
    cbn [header_loop]; [discriminate|].
  destruct (_spamc_read_full_line s buf bufsiz) as [[[[fv b] l] s0]|];
    cbn [bind]; [|discriminate].
  destruct (negb (fv =? EX_OK)).
  { intros H; inversion H; subst. apply same_frame_refl. }
  destruct (if l =? 0 then rd b 0 else Ret NUL) as [c0|]; cbn [bind];
    [|discriminate].
  destruct ((l =? 0) && (c0 =? NUL)).
  { intros H; inversion H; subst. apply same_frame_refl. }
  destruct (_handle_spamd_header m flags (cstr b)) as [[code0 m0]|] eqn:E;
    cbn [bind]; [|discriminate].
  apply handle_header_frame in E; [|exact Hflag].
  destruct (code0 <? 0).
  { intros H; inversion H; subst. exact E. }
  intros H. apply IH in H. eapply same_frame_trans; eauto.
Qed.

Lemma filter_headers_frame (w : world) (flags : Z) (m : message)
    (buf : list Z) (bufsiz : Z) (m1 : message) (w1 : world) :
  flag_set flags SPAMC_CHECK_ONLY = false ->
  filter_headers w flags m buf bufsiz = Ret (inr (m1, w1)) ->
  same_frame m m1.
Proof.
  intros Hflag. unfold filter_headers.
  destruct (_spamc_read_full_line (w_peer w) buf bufsiz)
    as [[[[fv b] l] s0]|]; cbn [bind]; [|discriminate].
  destruct (negb (fv =? EX_OK)); [discriminate|].
  destruct (sscanf (cstr b) "SPAMD/%s %d %*s") as [n items].
  destruct (negb (fits 20 _)); [discriminate|].
  destruct (negb (n =? 2)); [discriminate|].
  destruct (negb (Qle_bool 1 _)); [discriminate|].
  destruct (header_loop _ _ _ _ _ _) as [[[[fv1 m2] b2] s2]|] eqn:E;
    cbn [bind]; [|discriminate].
  apply header_loop_frame in E; [|exact Hflag].
  destruct (negb (fv1 =? EX_OK)); [discriminate|].
  intros H; inversion H; subst. exact E.
Qed.

Lemma filter_prologue_frame (w : world) addr hent port user (flags : Z)
    (m m1 : message) (w1 : world) :
  flag_set flags SPAMC_CHECK_ONLY = false ->
  filter_prologue w addr hent port user flags m = Ret (inr (m1, w1)) ->
  max_len m1 = max_len m /\ msg m1 = msg m /\ msg_len m1 = msg_len m
  /\ out m1 = InOut /\ out_len m1 = 0.
Proof.
  intros Hflag. unfold filter_prologue.
  destruct (flag_set flags SPAMC_USE_SSL); [discriminate|].
  destruct (malloc w) as [ok w0]. destruct ok; cbn [negb]; [|discriminate].
  destruct (build_request _ _ _ _) as [request|]; [|discriminate].
  destruct (try_to_connect w0 addr hent port) as [[i w2]|]; cbn [bind];
    [|discriminate].
  destruct (negb (i =? EX_OK)); [discriminate|].
  destruct (full_write (w_sent w2) request (len request)) as [x k].
  destruct (load _ _ _) as [body|]; cbn [bind]; [|discriminate].
  destruct (full_write k body _) as [x' k'].
  intros H. apply filter_headers_frame in H; [|exact Hflag].
  destruct H as (H1 & H2 & H3 & H4 & H5). cbn in *. auto.
Qed.

Lemma restore_out_fields (m : message) :
  out (restore_out m) = msg m /\ out_len (restore_out m) = msg_len m.
Proof. unfold restore_out. destruct (out m); split; reflexivity. Qed.

(** C2, as amended.  In a call that is not check-only and has read the
    response headers (so is about to receive the body): when no
    Content-length was received (the field is still negative), or the
    number [n] of bytes received differs from it, the call does not
    return [EX_OK].  It returns [EX_TOOBIG] when a length was announced
    and more than [max_len + EXPANSION_ALLOWANCE] bytes arrived, and
    [EX_PROTOCOL] otherwise; either way [out] is set back to the
    message that was sent, so no response body is handed on. *)
Theorem filter_body_length_check (w : world) (addr : option (Z * Z))
    (hent : option (list Z)) (port : Z) (user : option (list Z))
    (flags : Z) (m m1 : message) (w1 : world) (n : Z) (bs : list Z)
    (s : stream) :
  flag_set flags SPAMC_CHECK_ONLY = false ->
  filter_prologue w addr hent port user flags m = Ret (inr (m1, w1)) ->
  full_read (w_peer w1) (max_len m1 + EXPANSION_ALLOWANCE + 1)
            (max_len m1 + EXPANSION_ALLOWANCE + 1) = (n, bs, s) ->
  content_length m1 < 0 \/ n <> content_length m1 ->
  exists code m2 w2,
    _message_filter w addr hent port user flags m = Ret (code, m2, w2)
    /\ code <> EX_OK
    /\ ((code = EX_TOOBIG /\ 0 <= content_length m1
         /\ max_len m1 + EXPANSION_ALLOWANCE < n)
        \/ (code = EX_PROTOCOL
            /\ (content_length m1 < 0
                \/ n <= max_len m1 + EXPANSION_ALLOWANCE)))
    /\ out m2 = msg m /\ out_len m2 = msg_len m.
Proof.
  intros Hflag Hpro Hread Hbad.
  destruct (filter_prologue_frame _ _ _ _ _ _ _ _ _ Hflag Hpro)
    as (Hmax & Hmsg & Hmsglen & Hout & Hlen0).
  unfold _message_filter. rewrite Hpro. cbn [bind].
  unfold filter_body. rewrite Hflag.
  fields.
  destruct (Z.ltb_spec (content_length m1) 0) as [Hneg|Hpos].
  { do 3 eexists. split; [reflexivity|]. split; [discriminate|].
    split; [right; split; [reflexivity | left; exact Hneg]|].
    unfold filter_failure.
    rewrite (proj1 (restore_out_fields _)), (proj2 (restore_out_fields _)).
    cbn. rewrite Hmsg, Hmsglen. split; reflexivity. }
  rewrite Hlen0.
  replace (max_len m1 + EXPANSION_ALLOWANCE + 1 - 0)
    with (max_len m1 + EXPANSION_ALLOWANCE + 1) by lia.
  rewrite Hread. fields. rewrite ?Hlen0.
  destruct (Z.gtb_spec (n + 0) (max_len m1 + EXPANSION_ALLOWANCE)) as [Hbig|Hfit].
  { do 3 eexists. split; [reflexivity|]. split; [discriminate|].
    split; [left; repeat split; lia|].
    unfold filter_failure.
    rewrite (proj1 (restore_out_fields _)), (proj2 (restore_out_fields _)).
    cbn. rewrite Hmsg, Hmsglen. split; reflexivity. }
  destruct (Z.eqb_spec (0 + n) (content_length m1)) as [Heq|Hne]; [lia|].
  cbn [negb].
  do 3 eexists. split; [reflexivity|]. split; [discriminate|].
  split; [right; split; [reflexivity | right; lia]|].
  unfold filter_failure.
  rewrite (proj1 (restore_out_fields _)), (proj2 (restore_out_fields _)).
  cbn. rewrite Hmsg, Hmsglen. split; reflexivity.
Qed.

Lemma filter_body_length_check_witness :
  exists code m2 w2,
    _message_filter (sample_world [] short_response all_accept)
                    None (Some [1; 2; 3]) 783 None 0 hello_message
    = Ret (code, m2, w2)
    /\ code = EX_PROTOCOL
    /\ out m2 = msg hello_message /\ out_len m2 = msg_len hello_message.
Proof.
  destruct (filter_body_length_check
              (sample_world [] short_response all_accept)
              None (Some [1; 2; 3]) 783 None 0 hello_message
              (set_content_length
                 (set_out_len
                    (set_out_block (set_out hello_message InOut) []) 0) 5)
              (set_w_log
                 (set_w_sent
                    (set_w_peer (sample_world [] short_response all_accept)
                                [Bytes (bytes "hi")])
                    {| written := bytes "PROCESS SPAMC/1.3" ++ [CR; LF]
                                  ++ bytes "Content-length: 5" ++ [CR; LF]
                                  ++ [CR; LF] ++ bytes "hello";
                       room := None |})
                 [EvSocket; EvConnect 1 783; EvShutdown SHUT_WR])
              2 (bytes "hi") [] eq_refl)
    as (code & m2 & w2 & H1 & _ & H3 & H4).
  - vm_compute. reflexivity.
  - vm_compute. reflexivity.
  - right. vm_compute. discriminate.
  - exists code, m2, w2. split; [exact H1|]. split; [|exact H4].
    destruct H3 as [(_ & _ & H3) | (H3 & _)]; [|exact H3].
    vm_compute in H3. discriminate.
Defined.

(** ** What the filter leaves in the message *)

Lemma same_capture_refl (m : message) : same_capture m m.
Proof. repeat split. Qed.

Lemma same_capture_trans (m1 m2 m3 : message) :
  same_capture m1 m2 -> same_capture m2 m3 -> same_capture m1 m3.
Proof. unfold same_capture. intuition congruence. Qed.

(** A header line of a call that is not a check changes the verdict and
    the content length only. *)
Lemma handle_header_capture (m m' : message) (flags code : Z)
    (buf : list Z) :
  flag_set flags SPAMC_CHECK_ONLY = false ->
  _handle_spamd_header m flags buf = Ret (code, m') ->
  same_capture m m' /\ out_block m' = out_block m
  /\ (writable (is_spam m) -> writable (is_spam m')).
Proof.
  intros Hflag. unfold _handle_spamd_header. rewrite Hflag.
  destruct (sscanf buf "Spam: %5s ; %20s / %20s") as [n items].
  destruct (negb _); [discriminate|].
  destruct (n =? 3).
  - intros [= <- <-]. fields.
    split; [repeat split|]. split; [reflexivity|]. intros _.
    unfold writable.
    match goal with
    | |- context [if ?b then EX_ISSPAM else EX_NOTSPAM] => destruct b
    end; tauto.
  - destruct (sscanf buf "Content-length: %d") as [n2 items2].
    destruct (n2 =? 1).
    + fields. destruct (_ <? 0); intros [= <- <-]; fields;
        (split; [repeat split|]); tauto.
    + intros [= <- <-]. split; [repeat split|]. tauto.
Qed.

Lemma header_loop_capture (flags : Z) (bufsiz : Z) (fuel : nat) :
  flag_set flags SPAMC_CHECK_ONLY = false ->
  forall m s buf code m' buf' s',
    header_loop fuel flags m s buf bufsiz = Ret (code, m', buf', s') ->
    same_capture m m' /\ out_block m' = out_block m
    /\ (writable (is_spam m) -> writable (is_spam m')).
Proof.
  intros Hflag. induction fuel as [|fuel IH]; intros m s buf code m' buf' s';
    [discriminate|].
  rewrite header_loop_S.
  destruct (_spamc_read_full_line s buf bufsiz) as [[[[fv b] l] s0]|];
    cbn [bind]; [|discriminate].
  destruct (negb (fv =? EX_OK)).
  { intros H; inversion H; subst.
    split; [apply same_capture_refl | auto]. }
  destruct (if l =? 0 then rd b 0 else Ret NUL) as [c0|]; cbn [bind];
    [|discriminate].
  destruct ((l =? 0) && (c0 =? NUL)).
  { intros H; inversion H; subst.
    split; [apply same_capture_refl | auto]. }
  destruct (_handle_spamd_header m flags (cstr b)) as [[code0 m0]|] eqn:E;
    cbn [bind]; [|discriminate].
  apply handle_header_capture in E; [|exact Hflag].
  destruct E as (E1 & E2 & E3).
  destruct (code0 <? 0).
  { intros H; inversion H; subst. auto. }
  intros H. apply IH in H. destruct H as (H1 & H2 & H3).
  split; [eapply same_capture_trans; eauto|].
  split; [congruence | auto].
Qed.

Lemma restore_out_capture (m : message) :
  same_capture m (restore_out m) /\ is_spam (restore_out m) = is_spam m.
Proof. unfold restore_out. destruct (out m); split; repeat split. Qed.

Lemma filter_failure_state (w : world) (m0 m : message) (b : bool)
    (code : Z) :
  code <> EX_OK -> same_capture m0 m -> writable (is_spam m) ->
  failed_state m0 (filter_failure w m b code).
Proof.
  intros Hc Hs Hw. unfold failed_state, filter_failure.
  destruct (restore_out_capture m) as [H1 H2].
  destruct (restore_out_fields m) as [H3 H4].
  split; [exact Hc|]. split; [eapply same_capture_trans; eauto|].
  destruct Hs as (_ & _ & _ & _ & _ & _ & _ & Hm & Hl & _).
  rewrite H3, H4, H2. repeat split; congruence.
Qed.

Lemma filter_headers_state (w : world) (flags : Z) (m : message)
    (buf : list Z) (bufsiz : Z) r :
  flag_set flags SPAMC_CHECK_ONLY = false ->
  writable (is_spam m) ->
  filter_headers w flags m buf bufsiz = Ret r ->
  match r with
  | inl res => failed_state m res
  | inr (m', _) =>
      same_capture m m' /\ out m' = out m /\ out_len m' = out_len m
      /\ out_block m' = out_block m
  end.
Proof.
  intros Hflag Hw. unfold filter_headers.
  destruct (_spamc_read_full_line (w_peer w) buf bufsiz)
    as [[[[fv b] l] s0]|]; cbn [bind]; [|discriminate].
  destruct (Z.eqb_spec fv EX_OK) as [->|Hfv]; cbn [negb].
  2:{ intros [= <-]. apply filter_failure_state;
        [exact Hfv | apply same_capture_refl | exact Hw]. }
  destruct (sscanf (cstr b) "SPAMD/%s %d %*s") as [n items].
  destruct (negb (fits 20 _)); [discriminate|].
  destruct (negb (n =? 2)).
  { intros [= <-]. apply filter_failure_state;
      [discriminate | apply same_capture_refl | exact Hw]. }
  destruct (negb (Qle_bool 1 _)).
  { intros [= <-]. apply filter_failure_state;
      [discriminate | apply same_capture_refl | exact Hw]. }
  destruct (header_loop _ _ _ _ _ _) as [[[[fv1 m2] b2] s2]|] eqn:E;
    cbn [bind]; [|discriminate].
  pose proof (header_loop_frame _ _ _ Hflag _ _ _ _ _ _ _ E) as Hfr.
  apply header_loop_capture in E; [|exact Hflag].
  destruct E as (E1 & E2 & E3).
  assert (Hw2 : writable (is_spam m2)).
  { apply E3. fields. unfold writable. tauto. }
  assert (Hcap : same_capture m m2).
  { eapply same_capture_trans; [|exact E1]. repeat split. }
  destruct (Z.eqb_spec fv1 EX_OK) as [->|Hfv1]; cbn [negb].
  - intros [= <-]. split; [exact Hcap|].
    destruct Hfr as (_ & _ & _ & Ho & Hl). revert Ho Hl E2. fields.
    intros Ho Hl E2. auto.
  - intros [= <-]. apply filter_failure_state; assumption.
Qed.

Lemma filter_prologue_state (w : world) addr hent port user (flags : Z)
    (m : message) r :
  flag_set flags SPAMC_CHECK_ONLY = false ->
  out m = msg m -> out_len m = msg_len m -> writable (is_spam m) ->
  filter_prologue w addr hent port user flags m = Ret r ->
  match r with
  | inl res => failed_state m res
  | inr (m', _) =>
      same_capture m m' /\ out m' = InOut /\ out_len m' = 0
      /\ out_block m' = []
  end.
Proof.
  intros Hflag Hout Hlen Hw. unfold filter_prologue.
  destruct (flag_set flags SPAMC_USE_SSL).
  { intros [= <-]. unfold failed_state.
    split; [discriminate|]. split; [apply same_capture_refl|]. auto. }
  assert (Hw0 : writable EX_TOOBIG) by (unfold writable; tauto).
  destruct (malloc w) as [ok w0]. destruct ok; cbn [negb].
  2:{ intros [= <-]. apply filter_failure_state;
        [discriminate | repeat split | exact Hw0]. }
  destruct (build_request _ _ _ _) as [request|].
  2:{ intros [= <-].
      apply (filter_failure_state w0 m _ false EX_OSERR);
        [discriminate | repeat split | exact Hw0]. }
  destruct (try_to_connect w0 addr hent port) as [[i w2]|]; cbn [bind];
    [|discriminate].
  destruct (Z.eqb_spec i EX_OK) as [->|Hi]; cbn [negb].
  2:{ intros [= <-].
      apply (filter_failure_state w2 m _ false i);
        [exact Hi | repeat split | exact Hw0]. }
  destruct (full_write (w_sent w2) request (len request)) as [x k].
  destruct (load _ _ _) as [body|]; cbn [bind]; [|discriminate].
  destruct (full_write k body _) as [x' k'].
  intros H. apply filter_headers_state in H; [|exact Hflag|exact Hw0].
  destruct r as [[[c1 m1] w1]|[m1 w1]].
  - unfold failed_state in *. revert H. fields.
    intros (H1 & H2 & H3 & H4 & H5).
    split; [exact H1|]. split; [|auto].
    eapply same_capture_trans; [|exact H2]. repeat split.
  - revert H. fields. intros (H1 & H2 & H3 & H4).
    split; [|auto]. eapply same_capture_trans; [|exact H1]. repeat split.
Qed.

(** The state in which a call that is not a check ends: a failure leaves
    the message as it was read; success leaves in [out] the body that
    was received, as long as the Content-length says. *)
Lemma message_filter_state (w w' : world) addr hent port user
    (flags code : Z) (m m' : message) :
  flag_set flags SPAMC_CHECK_ONLY = false ->
  out m = msg m -> out_len m = msg_len m -> writable (is_spam m) ->
  _message_filter w addr hent port user flags m = Ret (code, m', w') ->
  (code <> EX_OK /\ failed_state m (code, m', w'))
  \/ (code = EX_OK /\ same_capture m m'
      /\ is_spam m' = EX_OUTPUTMESSAGE /\ out m' = InOut
      /\ out_len m' = len (out_block m')
      /\ out_len m' = content_length m').
Proof.
  intros Hflag Hout Hlen Hw. unfold _message_filter.
  destruct (filter_prologue _ _ _ _ _ _ _) as [r|] eqn:E; cbn [bind];
    [|discriminate].
  apply filter_prologue_state in E; try assumption.
  destruct r as [[[c1 m1] w1]|[m1 w1]].
  - intros [= <- <- <-]. left. split; [apply E | exact E].
  - destruct E as (E1 & E2 & E3 & E4).
    assert (Hmsg : msg m1 = msg m /\ msg_len m1 = msg_len m).
    { destruct E1 as (_ & _ & _ & _ & _ & _ & _ & Hm & Hl & _). auto. }
    destruct Hmsg as [Hm Hl].
    unfold filter_body. rewrite Hflag. fields. rewrite E3, E4.
    assert (Hw1 : writable EX_OUTPUTMESSAGE) by (unfold writable; tauto).
    assert (Hc1 : same_capture m (set_is_spam m1 EX_OUTPUTMESSAGE)).
    { eapply same_capture_trans; [exact E1|]. repeat split. }
    destruct (Z.ltb_spec (content_length m1) 0) as [Hneg|Hpos].
    { intros [= <- <- <-]. left. split; [discriminate|].
      exact (filter_failure_state w1 m _ true EX_PROTOCOL
               ltac:(discriminate) Hc1 Hw1). }
    destruct (full_read _ _ _) as [[n bs] s] eqn:Er.
    assert (Hc2 : forall l, same_capture m
                    (set_out_block (set_is_spam m1 EX_OUTPUTMESSAGE) l)).
    { intros l. eapply same_capture_trans; [exact Hc1|]. repeat split. }
    destruct (Z.gtb_spec (n + 0) (max_len m1 + EXPANSION_ALLOWANCE)).
    { intros [= <- <- <-]. left. split; [discriminate|].
      exact (filter_failure_state (set_w_peer w1 s) m _ true EX_TOOBIG
               ltac:(discriminate) (Hc2 _) Hw1). }
    destruct (Z.eqb_spec (0 + n) (content_length m1)) as [Heq|Hne];
      cbn [negb].
    + intros [= <- <- <-]. right. fields.
      split; [reflexivity|]. split.
      { eapply same_capture_trans; [exact E1|]. repeat split. }
      split; [reflexivity|]. split; [exact E2|].
      split; [|exact Heq].
      change (firstn (Z.to_nat 0) (@nil Z)) with (@nil Z). cbn [app].
      apply full_read_len in Er; lia.
    + intros [= <- <- <-]. left. split; [discriminate|].
      apply (filter_failure_state _ m _ false EX_PROTOCOL);
        [discriminate | | exact Hw1].
      eapply same_capture_trans; [exact Hc1|]. repeat split.
Qed.

(* ------------------------------------------------------------------ *)
(** * The message processor *)

Ltac worlds :=
  cbn [w_in w_out w_malloc w_dns w_socket w_connect w_peer w_sent w_log
       set_w_in set_w_out set_w_malloc set_w_peer set_w_sent set_w_log
       log].

Lemma malloc_out (w w' : world) (ok : bool) :
  malloc w = (ok, w') -> w_out w' = w_out w.
Proof.
  unfold malloc. destruct (w_malloc w); intros H; inversion H; reflexivity.
Qed.

Lemma message_read_raw_out (w w' : world) (m m' : message) (code : Z) :
  message_read_raw w m = (code, m', w') -> w_out w' = w_out w.
Proof.
  unfold message_read_raw.
  destruct (malloc w) as [ok w0] eqn:E. apply malloc_out in E.
  destruct ok; cbn [negb].
  2:{ intros H; inversion H; subst; exact E. }
  destruct (full_read _ _ _) as [[n bs] s'].
  repeat match goal with
         | |- context [if ?b then _ else _] => destruct b
         end;
    intros H; inversion H; subst; worlds; exact E.
Qed.

Lemma message_read_bsmtp_out (w w' : world) (m m' : message) (code : Z) :
  message_read_bsmtp w m = Ret (code, m', w') -> w_out w' = w_out w.
Proof.
  unfold message_read_bsmtp.
  destruct (malloc w) as [ok w0] eqn:E. apply malloc_out in E.
  destruct ok; cbn [negb].
  2:{ intros H; inversion H; subst; exact E. }
  destruct (full_read _ _ _) as [[n bs] s'].
  destruct (_ <=? 0).
  { intros H; inversion H; subst; worlds; exact E. }
  destruct (_ >? _).
  { intros H; inversion H; subst; worlds; exact E. }
  destruct (find_data _ _ _ _) as [[i|]|]; cbn [bind]; [| |discriminate].
  - destruct (unstuff_loop _ _ _ _) as [r|]; cbn [bind]; [|discriminate].
    intros H; inversion H; subst; worlds; exact E.
  - intros H; inversion H; subst; worlds; exact E.
Qed.

Lemma message_read_out (w w' : world) (flags : Z) (m m' : message)
    (code : Z) :
  message_read w flags m = Ret (code, m', w') -> w_out w' = w_out w.
Proof.
  unfold message_read.
  destruct (_ =? SPAMC_RAW_MODE).
  { intros H; inversion H as [H1]. eapply message_read_raw_out; eauto. }
  destruct (_ =? SPAMC_BSMTP_MODE).
  { apply message_read_bsmtp_out. }
  intros H; inversion H; subst; reflexivity.
Qed.

Lemma connect_loop_out (fuel : nat) :
  forall w argaddr inaddrlist hostnum port numloops origerr c e w',
    connect_loop fuel w argaddr inaddrlist hostnum port numloops origerr
    = Ret (c, e, w') ->
    w_out w' = w_out w /\ w_peer w' = w_peer w /\ w_sent w' = w_sent w
    /\ w_in w' = w_in w.
Proof.
  induction fuel as [|fuel IH];
    intros w argaddr inaddrlist hostnum port numloops origerr c e w';
    cbn [connect_loop].
  - intros H; inversion H; subst; auto.
  - destruct (_ <? _).
    2:{ intros H; inversion H; subst; auto. }
    destruct (match argaddr with Some a => Ret a | None => _ end)
      as [addr|]; cbn [bind]; [|discriminate].
    destruct (w_connect w _ _).
    + intros H. apply IH in H. worlds. exact H.
    + intros H; inversion H; subst; worlds; auto.
Qed.

Lemma try_to_connect_out (w w' : world) argaddr hent port (code : Z) :
  try_to_connect w argaddr hent port = Ret (code, w') ->
  w_out w' = w_out w /\ w_peer w' = w_peer w /\ w_sent w' = w_sent w
  /\ w_in w' = w_in w.
Proof.
  unfold try_to_connect.
  destruct argaddr as [a|], hent as [l|];
    try (intros H; inversion H; subst; auto; fail).
  - destruct (w_socket _).
    { intros H; inversion H; subst; worlds; auto. }
    destruct (connect_loop _ _ _ _ _ _ _ _) as [[[c e] w0]|] eqn:E;
      cbn [bind]; [|discriminate].
    apply connect_loop_out in E. worlds.
    destruct c; [intros H; inversion H; subst; exact E|].
    destruct e; [|discriminate].
    intros H; inversion H; subst; worlds. exact E.
  - destruct (copy_addr_list l 0 []) as [hostnum inaddrlist].
    destruct (w_socket _).
    { intros H; inversion H; subst; worlds; auto. }
    destruct (connect_loop _ _ _ _ _ _ _ _) as [[[c e] w0]|] eqn:E;
      cbn [bind]; [|discriminate].
    apply connect_loop_out in E. worlds.
    destruct c; [intros H; inversion H; subst; exact E|].
    destruct e; [|discriminate].
    intros H; inversion H; subst; worlds. exact E.
Qed.

Lemma filter_failure_out (w : world) (m : message) (b : bool) (code : Z) :
  w_out (snd (filter_failure w m b code)) = w_out w.
Proof. unfold filter_failure. destruct b; reflexivity. Qed.

Lemma filter_headers_out (w : world) (flags : Z) (m : message)
    (buf : list Z) (bufsiz : Z) r :
  filter_headers w flags m buf bufsiz = Ret r ->
  match r with
  | inl (_, _, w') => w_out w' = w_out w
  | inr (_, w') => w_out w' = w_out w
  end.
Proof.
  unfold filter_headers.
  destruct (_spamc_read_full_line (w_peer w) buf bufsiz)
    as [[[[fv b] l] s0]|]; cbn [bind]; [|discriminate].
  destruct (negb (fv =? EX_OK)).
  { intros H; inversion H; subst. unfold filter_failure. reflexivity. }
  destruct (sscanf (cstr b) "SPAMD/%s %d %*s") as [n items].
  destruct (negb (fits 20 _)); [discriminate|].
  destruct (negb (n =? 2)).
  { intros H; inversion H; subst. unfold filter_failure. reflexivity. }
  destruct (negb (Qle_bool 1 _)).
  { intros H; inversion H; subst. unfold filter_failure. reflexivity. }
  destruct (header_loop _ _ _ _ _ _) as [[[[fv1 m2] b2] s2]|];
    cbn [bind]; [|discriminate].
  destruct (negb (fv1 =? EX_OK));
    intros H; inversion H; subst; unfold filter_failure; reflexivity.
Qed.

Lemma message_filter_out (w w' : world) addr hent port user (flags : Z)
    (m m' : message) (code : Z) :
  _message_filter w addr hent port user flags m = Ret (code, m', w') ->
  w_out w' = w_out w.
Proof.
  unfold _message_filter, filter_prologue.
  destruct (flag_set flags SPAMC_USE_SSL).
  { cbn [bind]. intros H; inversion H; subst; reflexivity. }
  destruct (malloc w) as [ok w0] eqn:E. apply malloc_out in E.
  destruct ok; cbn [negb].
  2:{ cbn [bind]. intros H; inversion H; subst. exact E. }
  destruct (build_request _ _ _ _) as [request|].
  2:{ cbn [bind]. intros H; inversion H; subst. exact E. }
  destruct (try_to_connect w0 addr hent port) as [[i w2]|] eqn:Ec;
    cbn [bind]; [|discriminate].
  apply try_to_connect_out in Ec. destruct Ec as (Ec & _).
  destruct (negb (i =? EX_OK)).
  { cbn [bind]. intros H; inversion H; subst. congruence. }
  destruct (full_write (w_sent w2) request (len request)) as [x k].
  destruct (load _ _ _) as [body|]; cbn [bind]; [|discriminate].
  destruct (full_write k body _) as [x' k'].
  destruct (filter_headers _ _ _ _ _) as [r|] eqn:Eh; cbn [bind];
    [|discriminate].
  apply filter_headers_out in Eh.
  destruct r as [[[c1 m1] w1]|[m1 w1]].
  - intros H; inversion H; subst. rewrite Eh. worlds. congruence.
  - intros H; inversion H as [Hb]. revert Eh. worlds. intros Eh.
    assert (w_out w' = w_out w1); [|congruence].
    revert Hb. unfold filter_body.
    destruct (flag_set flags SPAMC_CHECK_ONLY).
    + destruct (_ =? EX_TOOBIG); intros Hb; inversion Hb; subst;
        reflexivity.
    + destruct (_ <? 0).
      { intros Hb; inversion Hb; subst; reflexivity. }
      destruct (full_read _ _ _) as [[n bs] s].
      destruct (_ >? _).
      { intros Hb; inversion Hb; subst; reflexivity. }
      destruct (negb _); intros Hb; inversion Hb; subst; reflexivity.
Qed.

Lemma process_stages_out (w w1 : world) hostname port user max_size
    (flags ret : Z) (m1 : message) :
  process_stages w hostname port user max_size flags = Ret (ret, m1, w1) ->
  w_out w1 = w_out w.
Proof.
  unfold process_stages.
  destruct (lookup_host_for_failover w hostname) as [r [hent|]].
  2:{ intros H; inversion H; subst; reflexivity. }
  destruct (negb (r =? EX_OK)).
  { intros H; inversion H; subst; reflexivity. }
  destruct (message_read _ _ _) as [[[r1 m0] w0]|] eqn:Er; cbn [bind];
    [|discriminate].
  apply message_read_out in Er.
  destruct (negb (r1 =? EX_OK)).
  { intros H; inversion H; subst; exact Er. }
  unfold message_filter_with_failover. intros H.
  apply message_filter_out in H. congruence.
Qed.

Lemma full_write_loop_done (fuel : nat) (k : sink) (buf : list Z)
    (n total : Z) :
  n <= total -> full_write_loop fuel k buf n total = (total, k).
Proof.
  intros H. destruct fuel; cbn [full_write_loop]; [reflexivity|].
  destruct (Z.ltb_spec total n); [lia | reflexivity].
Qed.

(** On a descriptor without a limit [full_write] puts all the bytes. *)
Lemma full_write_open (k : sink) (bs : list Z) :
  room k = None -> bs <> [] ->
  full_write k bs (len bs)
  = (len bs, {| written := written k ++ bs; room := None |}).
Proof.
  intros Hroom Hne. unfold full_write.
  assert (Hpos : 0 < len bs)
    by (destruct bs; [congruence | unfold len; simpl length; lia]).
  destruct (Z.to_nat (len bs)) as [|fuel] eqn:E; [lia|].
  cbn [full_write_loop].
  destruct (Z.ltb_spec 0 (len bs)); [|lia].
  replace (Z.to_nat (len bs - 0)) with (length bs) by (unfold len; lia).
  change (Z.to_nat 0) with O. rewrite skipn_O, firstn_all.
  unfold sys_write. rewrite Hroom.
  destruct (Z.ltb_spec (len bs) 0); [lia|].
  apply full_write_loop_done. lia.
Qed.

(** ** Raw mode: what the steps leave *)

Lemma malloc_in (w w' : world) (ok : bool) :
  malloc w = (ok, w') -> w_in w' = w_in w.
Proof.
  unfold malloc. destruct (w_malloc w); intros H; inversion H; reflexivity.
Qed.

Lemma filter_headers_in (w : world) (flags : Z) (m : message)
    (buf : list Z) (bufsiz : Z) r :
  filter_headers w flags m buf bufsiz = Ret r ->
  match r with
  | inl (_, _, w') => w_in w' = w_in w
  | inr (_, w') => w_in w' = w_in w
  end.
Proof.
  unfold filter_headers.
  destruct (_spamc_read_full_line (w_peer w) buf bufsiz)
    as [[[[fv b] l] s0]|]; cbn [bind]; [|discriminate].
  destruct (negb (fv =? EX_OK)).
  { intros H; inversion H; subst. unfold filter_failure. reflexivity. }
  destruct (sscanf (cstr b) "SPAMD/%s %d %*s") as [n items].
  destruct (negb (fits 20 _)); [discriminate|].
  destruct (negb (n =? 2)).
  { intros H; inversion H; subst. unfold filter_failure. reflexivity. }
  destruct (negb (Qle_bool 1 _)).
  { intros H; inversion H; subst. unfold filter_failure. reflexivity. }
  destruct (header_loop _ _ _ _ _ _) as [[[[fv1 m2] b2] s2]|];
    cbn [bind]; [|discriminate].
  destruct (negb (fv1 =? EX_OK));
    intros H; inversion H; subst; unfold filter_failure; reflexivity.
Qed.

(** The filter does not read the input of the call. *)
Lemma message_filter_in (w w' : world) addr hent port user (flags : Z)
    (m m' : message) (code : Z) :
  _message_filter w addr hent port user flags m = Ret (code, m', w') ->
  w_in w' = w_in w.
Proof.
  unfold _message_filter, filter_prologue.
  destruct (flag_set flags SPAMC_USE_SSL).
  { cbn [bind]. intros H; inversion H; subst; reflexivity. }
  destruct (malloc w) as [ok w0] eqn:E. apply malloc_in in E.
  destruct ok; cbn [negb].
  2:{ cbn [bind]. intros H; inversion H; subst. exact E. }
  destruct (build_request _ _ _ _) as [request|].
  2:{ cbn [bind]. intros H; inversion H; subst. exact E. }
  destruct (try_to_connect w0 addr hent port) as [[i w2]|] eqn:Ec;
    cbn [bind]; [|discriminate].
  apply try_to_connect_out in Ec. destruct Ec as (_ & _ & _ & Ec).
  destruct (negb (i =? EX_OK)).
  { cbn [bind]. intros H; inversion H; subst. congruence. }
  destruct (full_write (w_sent w2) request (len request)) as [x k].
  destruct (load _ _ _) as [body|]; cbn [bind]; [|discriminate].
  destruct (full_write k body _) as [x' k'].
  destruct (filter_headers _ _ _ _ _) as [r|] eqn:Eh; cbn [bind];
    [|discriminate].
  apply filter_headers_in in Eh.
  destruct r as [[[c1 m1] w1]|[m1 w1]].
  - intros H; inversion H; subst. rewrite Eh. worlds. congruence.
  - intros H; inversion H as [Hb]. revert Eh. worlds. intros Eh.
    assert (w_in w' = w_in w1); [|congruence].
    revert Hb. unfold filter_body.
    destruct (flag_set flags SPAMC_CHECK_ONLY).
    + destruct (_ =? EX_TOOBIG); intros Hb; inversion Hb; subst;
        reflexivity.
    + destruct (_ <? 0).
      { intros Hb; inversion Hb; subst; reflexivity. }
      destruct (full_read _ _ _) as [[n bs] s].
      destruct (_ >? _).
      { intros Hb; inversion Hb; subst; reflexivity. }
      destruct (negb _); intros Hb; inversion Hb; subst; reflexivity.
Qed.

(** What a read in raw mode leaves, by its code. *)
Lemma message_read_raw_state (w w' : world) (m m' : message) (code : Z) :
  message_read_raw w m = (code, m', w') ->
  (code = EX_OK /\ type m' = MESSAGE_RAW
   /\ raw m' = InRaw 0 /\ msg m' = InRaw 0
   /\ out m' = msg m' /\ out_len m' = msg_len m'
   /\ msg_len m' = raw_len m' /\ len (raw_block m') = raw_len m'
   /\ 0 < raw_len m' <= max_len m /\ is_spam m' = EX_TOOBIG
   /\ max_len m' = max_len m
   /\ exists w0,
        malloc w = (true, w0)
        /\ full_read (w_in w0) (max_len m + 1) (max_len m + 1)
           = (raw_len m', raw_block m', w_in w'))
  \/ (code <> EX_OK /\ type m' <> MESSAGE_RAW).
Proof.
  unfold message_read_raw.
  destruct (malloc w) as [ok w0] eqn:Em. destruct ok; cbn [negb].
  2:{ intros [= <- <- <-]. right. split; discriminate. }
  fields.
  destruct (full_read _ _ _) as [[n bs] s'] eqn:E. fields.
  destruct (Z.leb_spec n 0).
  { intros [= <- <- <-]. right. split; discriminate. }
  destruct (Z.gtb_spec n (max_len m)).
  { intros [= <- <- <-]. right. split; discriminate. }
  intros [= <- <- <-]. left. fields. worlds.
  pose proof (full_read_len _ _ _ _ _ _ E ltac:(lia)).
  repeat split; try reflexivity; try lia.
  exists w0. split; [reflexivity | exact E].
Qed.

Lemma full_read_eof (min l : Z) : full_read [] min l = (0, [], []).
Proof.
  unfold full_read. destruct (Z.to_nat min); cbn [full_read_loop];
    [reflexivity|].
  destruct (0 <? min); reflexivity.
Qed.

(** One chunk of input that fits the block is read whole. *)
Lemma full_read_one_chunk (bs : list Z) (min : Z) :
  bs <> [] -> len bs < min ->
  full_read [Bytes bs] min min = (len bs, bs, []).
Proof.
  intros Hne Hlt.
  assert (Hpos : 0 < len bs)
    by (destruct bs; [congruence | unfold len; simpl length; lia]).
  unfold full_read.
  destruct (Z.to_nat min) as [|[|fuel]] eqn:E; [lia | lia |].
  cbn [full_read_loop timeout_read sys_read].
  destruct (Z.ltb_spec 0 min); [|lia].
  replace (min - 0) with min by lia.
  destruct (Z.leb_spec (len bs) min); [|lia].
  destruct (Z.ltb_spec (len bs) 0); [lia|].
  destruct (Z.eqb_spec (len bs) 0); [lia|].
  replace (0 + len bs) with (len bs) by lia.
  destruct (Z.ltb_spec (len bs) min); [|lia].
  reflexivity.
Qed.

(** [message_write] of a message in raw mode whose [out] is the capture:
    on a descriptor without a limit the capture is written. *)
Lemma message_write_raw_capture (k : sink) (m : message) :
  room k = None -> type m = MESSAGE_RAW -> writable (is_spam m) ->
  out m = InRaw 0 -> out_len m = len (raw_block m) -> raw_block m <> [] ->
  message_write k m
  = Ret (len (raw_block m),
         {| written := written k ++ raw_block m; room := None |}).
Proof.
  intros Hroom Htype Hw Hout Hlen Hne.
  assert (Hload : write_from k m (out m) (out_len m)
                  = Ret (len (raw_block m),
                         {| written := written k ++ raw_block m;
                            room := None |})).
  { unfold write_from. rewrite Hout, Hlen. unfold load.
    rewrite slice_prefix by (pose proof (len_nonneg (raw_block m)); lia).
    unfold len at 1. rewrite Nat2Z.id, firstn_all. cbn [bind].
    rewrite full_write_open by assumption. reflexivity. }
  unfold message_write. rewrite Htype.
  destruct ((is_spam m =? EX_ISSPAM) || (is_spam m =? EX_NOTSPAM)) eqn:E1;
    [exact Hload|].
  destruct (negb (is_spam m =? EX_OUTPUTMESSAGE)
            && negb (is_spam m =? EX_TOOBIG)) eqn:E; [|exact Hload].
  exfalso. unfold writable in Hw.
  destruct Hw as [Hw | [Hw | [Hw | Hw]]]; rewrite Hw in E, E1;
    discriminate.
Qed.

Lemma full_read_loop_more_done (fuel : nat) (s : stream) (min l total : Z)
    (buf : list Z) :
  min <= total ->
  full_read_loop fuel s min l total buf = (total, buf, s).
Proof.
  intros H. destruct fuel; cbn [full_read_loop]; [reflexivity|].
  destruct (Z.ltb_spec total min); [lia | reflexivity].
Qed.

Lemma full_read_chunk_inv (bs blk : list Z) (min n : Z) (s' : stream) :
  full_read [Bytes bs] min min = (n, blk, s') -> 0 < n < min ->
  blk = bs /\ s' = [].
Proof.
  intros H Hn.
  destruct (Z.lt_ge_cases (len bs) min) as [Hlt|Hge].
  - destruct bs as [|b bs'].
    + revert H. unfold full_read.
      destruct (Z.to_nat min) as [|fuel] eqn:E; [lia|].
      cbn [full_read_loop timeout_read sys_read].
      destruct (Z.ltb_spec 0 min); [|lia].
      destruct (Z.leb_spec (len (@nil Z)) (min - 0));
        [|unfold len in *; simpl in *; lia].
      cbn. intros [= <- <- <-]. lia.
    + rewrite full_read_one_chunk in H by (try discriminate; assumption).
      injection H as <- <- <-. auto.
  - exfalso. revert H. unfold full_read.
    destruct (Z.to_nat min) as [|fuel] eqn:E; [lia|].
    cbn [full_read_loop timeout_read sys_read].
    destruct (Z.ltb_spec 0 min); [|lia].
    replace (min - 0) with min by lia.
    destruct (Z.leb_spec (len bs) min).
    + assert (Heq : len bs = min) by lia. rewrite Heq.
      destruct (Z.ltb_spec min 0); [lia|].
      destruct (Z.eqb_spec min 0); [lia|].
      rewrite full_read_loop_more_done by lia.
      intros [= <- <- <-]. lia.
    + rewrite Z.max_r by lia.
      destruct (Z.ltb_spec min 0); [lia|].
      destruct (Z.eqb_spec min 0); [lia|].
      rewrite full_read_loop_more_done by lia.
      intros [= <- <- <-]. lia.
Qed.

Lemma message_dump_loop_eof (fuel : nat) (k : sink) :
  message_dump_loop (S fuel) [] k = ([], k).
Proof. rewrite message_dump_loop_S, full_read_eof. reflexivity. Qed.

(** [clear_message] keeps [max_len], [timeout] and the two blocks of the
    struct it is given and nothing else of it: what the stack held where
    [message_process] has its [struct message] does not reach a read. *)
Lemma clear_message_keeps (m m' : message) :
  max_len m = max_len m' -> timeout m = timeout m' ->
  raw_block m = raw_block m' -> out_block m = out_block m' ->
  clear_message m = clear_message m'.
Proof.
  intros H1 H2 H3 H4. unfold clear_message. rewrite H1, H2, H3, H4.
  reflexivity.
Qed.

(** What [message_cleanup] does to a message whose [raw] is NULL or the
    block of the capture and whose [out] is NULL, [raw] or the block of
    the filter: the blocks are released and the struct is cleared. *)
Lemma message_cleanup_frees (m : message) :
  raw m = NULL \/ raw m = InRaw 0 ->
  out m = NULL \/ out m = raw m \/ out m = InOut ->
  message_cleanup m
  = Ret (clear_message (set_out_block (set_raw_block m []) [])).
Proof.
  intros [Hr|Hr] [Ho|[Ho|Ho]]; unfold message_cleanup;
    rewrite ?Ho, ?Hr; reflexivity.
Qed.

(** [message_cleanup] of a message whose [out] is a place inside the
    capture. *)
Lemma message_cleanup_inside (m : message) (off : Z) :
  raw m = InRaw 0 -> out m = InRaw off -> off <> 0 ->
  message_cleanup m = Fault.
Proof.
  intros Hr Ho Hoff. unfold message_cleanup. rewrite Ho, Hr.
  cbn [ptr_eqb negb andb free].
  destruct (Z.eqb_spec off 0); [contradiction|]. reflexivity.
Qed.

(** [message_cleanup] of a struct whose pointers were never assigned. *)
Lemma message_cleanup_uninit (m : message) :
  out m = Uninit -> message_cleanup m = Fault.
Proof. intros Ho. unfold message_cleanup. rewrite Ho. reflexivity. Qed.

Lemma message_process_failure (w w1 : world) (hostname : string)
    (port : Z) (user : option (list Z)) (max_size flags ret : Z)
    (m1 : message) :
  flag_set flags SPAMC_CHECK_ONLY = false ->
  process_stages w hostname port user max_size flags = Ret (ret, m1, w1) ->
  ret <> EX_OK ->
  message_process w hostname port user max_size flags
  = (w2 <- message_dump w1 m1 ;; _ <- message_cleanup m1 ;; Ret (ret, w2)).
Proof.
  intros Hflag Hst Hret.
  unfold message_process. rewrite Hst. cbn [bind].
  destruct (Z.eqb_spec ret EX_OK); [contradiction|]. cbn [negb].
  unfold process_fail. rewrite Hflag. reflexivity.
Qed.

(** The state after the three steps of a call in raw mode whose message
    was read: the capture is the input, the input is used up, and the
    filter has left either its failure or the body it received. *)
Lemma raw_stages_state (w w1 : world) (hostname : string)
    (port : Z) (user : option (list Z)) (max_size flags ret : Z)
    (m1 : message) (bs : list Z) :
  Z.land flags SPAMC_MODE_MASK = SPAMC_RAW_MODE ->
  flag_set flags SPAMC_CHECK_ONLY = false ->
  w_in w = [Bytes bs] ->
  process_stages w hostname port user max_size flags = Ret (ret, m1, w1) ->
  type m1 = MESSAGE_RAW ->
  raw_block m1 = bs /\ bs <> [] /\ w_in w1 = [] /\ w_out w1 = w_out w
  /\ raw m1 = InRaw 0
  /\ ((ret <> EX_OK /\ writable (is_spam m1) /\ out m1 = InRaw 0
       /\ out_len m1 = len bs)
      \/ (ret = EX_OK /\ is_spam m1 = EX_OUTPUTMESSAGE /\ out m1 = InOut
          /\ out_len m1 = len (out_block m1)
          /\ out_len m1 = content_length m1)).
Proof.
  intros Hmode Hflag Hin Hst Htype.
  pose proof (process_stages_out _ _ _ _ _ _ _ _ _ Hst) as Hout.
  revert Hst. unfold process_stages.
  destruct (lookup_host_for_failover w hostname) as [r [hent|]].
  2:{ intros [= <- <- <-]. discriminate. }
  destruct (negb (r =? EX_OK)).
  { intros [= <- <- <-]. discriminate. }
  unfold message_read. rewrite Hmode.
  change (SPAMC_RAW_MODE =? SPAMC_RAW_MODE) with true. cbn [bind].
  destruct (message_read_raw w _) as [[r1 m0] w0] eqn:Er.
  apply message_read_raw_state in Er.
  destruct Er as [(-> & Ht & Hraw & Hmsg & Ho & Hol & Hml & Hlen & Hn & Hs
                   & Hmax & w00 & Hmal & Hfr) | (Hr1 & Ht)].
  2:{ destruct (Z.eqb_spec r1 EX_OK); [contradiction|]. cbn [negb].
      intros [= <- <- <-]. contradiction. }
  cbn [negb Z.eqb EX_OK]. unfold message_filter_with_failover. intros Hf.
  pose proof (message_filter_in _ _ _ _ _ _ _ _ _ _ Hf) as Hin1.
  apply message_filter_state in Hf;
    [| exact Hflag | exact Ho | exact Hol
     | rewrite Hs; unfold writable; tauto].
  rewrite (malloc_in _ _ _ Hmal), Hin in Hfr.
  revert Hfr Hn. fields. intros Hfr Hn.
  apply full_read_chunk_inv in Hfr; [|lia].
  destruct Hfr as [Hblk Hrest].
  assert (Hcap : same_capture m0 m1).
  { destruct Hf as [(_ & Hf) | (_ & Hf & _)]; [apply Hf | exact Hf]. }
  destruct Hcap as (_ & _ & Hr1 & Hrl & Hrb & _ & _ & Hm1 & Hml1 & _).
  split; [congruence|].
  split.
  { intros ->. rewrite Hblk in Hlen. unfold len in Hlen; simpl in Hlen.
    lia. }
  split; [congruence|]. split; [exact Hout|]. split; [congruence|].
  destruct Hf as [(Hne & _ & _ & Ho1 & Hol1 & Hw1)
                 | (-> & _ & H1 & H2 & H3 & H4)].
  - left. split; [exact Hne|]. split; [exact Hw1|].
    split; [congruence|]. rewrite Hol1, Hml, <- Hlen, Hblk. reflexivity.
  - right. auto.
Qed.

(** ** The safe-fallback flag is not looked at *)

Lemma land_toggle (flags bit : Z) :
  Z.land SPAMC_SAFE_FALLBACK bit = 0 ->
  Z.land (toggle_safe_fallback flags) bit = Z.land flags bit.
Proof.
  intros H. unfold toggle_safe_fallback.
  apply Z.bits_inj'. intros n Hn.
  apply (f_equal (fun z => Z.testbit z n)) in H.
  rewrite Z.land_spec, Z.bits_0 in H.
  rewrite !Z.land_spec, Z.lxor_spec.
  destruct (Z.testbit flags n), (Z.testbit SPAMC_SAFE_FALLBACK n),
    (Z.testbit bit n); simpl in *; congruence.
Qed.

Lemma flag_set_toggle (flags bit : Z) :
  Z.land SPAMC_SAFE_FALLBACK bit = 0 ->
  flag_set (toggle_safe_fallback flags) bit = flag_set flags bit.
Proof. intros H. unfold flag_set. rewrite land_toggle by exact H. reflexivity. Qed.

Ltac toggle :=
  rewrite ?(flag_set_toggle _ SPAMC_CHECK_ONLY eq_refl),
          ?(flag_set_toggle _ SPAMC_REPORT_IFSPAM eq_refl),
          ?(flag_set_toggle _ SPAMC_REPORT eq_refl),
          ?(flag_set_toggle _ SPAMC_SYMBOLS eq_refl),
          ?(flag_set_toggle _ SPAMC_USE_SSL eq_refl),
          ?(land_toggle _ SPAMC_MODE_MASK eq_refl).

Lemma message_read_toggle (w : world) (flags : Z) (m : message) :
  message_read w (toggle_safe_fallback flags) m = message_read w flags m.
Proof. unfold message_read. toggle. reflexivity. Qed.

Lemma handle_header_toggle (m : message) (flags : Z) (buf : list Z) :
  _handle_spamd_header m (toggle_safe_fallback flags) buf
  = _handle_spamd_header m flags buf.
Proof. unfold _handle_spamd_header. toggle. reflexivity. Qed.

Lemma header_loop_toggle (flags bufsiz : Z) (fuel : nat) :
  forall (m : message) (s : stream) (buf : list Z),
    header_loop fuel (toggle_safe_fallback flags) m s buf bufsiz
    = header_loop fuel flags m s buf bufsiz.
Proof.
  induction fuel as [|fuel IH]; intros m s buf; [reflexivity|].
  rewrite !header_loop_S.
  destruct (_spamc_read_full_line s buf bufsiz) as [[[[fv b] l] s0]|];
    cbn [bind]; [|reflexivity].
  destruct (negb (fv =? EX_OK)); [reflexivity|].
  destruct (if l =? 0 then rd b 0 else Ret NUL); cbn [bind]; [|reflexivity].
  destruct ((l =? 0) && _); [reflexivity|].
  rewrite handle_header_toggle.
  destruct (_handle_spamd_header m flags (cstr b)) as [[code m']|];
    cbn [bind]; [|reflexivity].
  destruct (code <? 0); [reflexivity | apply IH].
Qed.

Lemma filter_headers_toggle (w : world) (flags : Z) (m : message)
    (buf : list Z) (bufsiz : Z) :
  filter_headers w (toggle_safe_fallback flags) m buf bufsiz
  = filter_headers w flags m buf bufsiz.
Proof.
  unfold filter_headers.
  destruct (_spamc_read_full_line (w_peer w) buf bufsiz)
    as [[[[fv b] l] s0]|]; cbn [bind]; [|reflexivity].
  destruct (negb (fv =? EX_OK)); [reflexivity|].
  destruct (sscanf (cstr b) "SPAMD/%s %d %*s") as [n items].
  destruct (negb (fits 20 _)); [reflexivity|].
  destruct (negb (n =? 2)); [reflexivity|].
  destruct (negb (Qle_bool 1 _)); [reflexivity|].
  rewrite header_loop_toggle. reflexivity.
Qed.

Lemma filter_body_toggle (w : world) (flags : Z) (m : message) :
  filter_body w (toggle_safe_fallback flags) m = filter_body w flags m.
Proof. unfold filter_body. toggle. reflexivity. Qed.

Lemma build_request_toggle (flags : Z) user (m : message) (bufsiz : Z) :
  build_request (toggle_safe_fallback flags) user m bufsiz
  = build_request flags user m bufsiz.
Proof. unfold build_request, request_line. toggle. reflexivity. Qed.

Lemma filter_prologue_toggle (w : world) addr hent port user (flags : Z)
    (m : message) :
  filter_prologue w addr hent port user (toggle_safe_fallback flags) m
  = filter_prologue w addr hent port user flags m.
Proof.
  unfold filter_prologue. toggle.
  destruct (flag_set flags SPAMC_USE_SSL); [reflexivity|].
  destruct (malloc w) as [ok w0]. destruct (negb ok); [reflexivity|].
  rewrite build_request_toggle.
  destruct (build_request _ _ _ _); [|reflexivity].
  destruct (try_to_connect _ _ _ _) as [[i w1]|]; cbn [bind]; [|reflexivity].
  destruct (negb (i =? EX_OK)); [reflexivity|].
  destruct (full_write _ _ _) as [x k].
  destruct (load _ _ _); cbn [bind]; [|reflexivity].
  destruct (full_write k _ _) as [x' k'].
  apply filter_headers_toggle.
Qed.

Lemma message_filter_toggle (w : world) addr hent port user (flags : Z)
    (m : message) :
  _message_filter w addr hent port user (toggle_safe_fallback flags) m
  = _message_filter w addr hent port user flags m.
Proof.
  unfold _message_filter. rewrite filter_prologue_toggle.
  destruct (filter_prologue _ _ _ _ _ _ _) as [[r|[m1 w1]]|]; cbn [bind];
    try reflexivity.
  rewrite filter_body_toggle. reflexivity.
Qed.

Lemma process_stages_toggle (w : world) hostname port user
    (max_size flags : Z) :
  process_stages w hostname port user max_size (toggle_safe_fallback flags)
  = process_stages w hostname port user max_size flags.
Proof.
  unfold process_stages.
  destruct (lookup_host_for_failover w hostname) as [ret [hent|]];
    [|reflexivity].
  destruct (negb (ret =? EX_OK)); [reflexivity|].
  rewrite message_read_toggle.
  destruct (message_read _ _ _) as [[[r m] w0]|]; cbn [bind]; [|reflexivity].
  destruct (negb (r =? EX_OK)); [reflexivity|].
  unfold message_filter_with_failover. apply message_filter_toggle.
Qed.

(** [message_process] does the same with the flag set and without it. *)
Lemma message_process_toggle (w : world) hostname port user
    (max_size flags : Z) :
  message_process w hostname port user max_size (toggle_safe_fallback flags)
  = message_process w hostname port user max_size flags.
Proof.
  unfold message_process. rewrite process_stages_toggle.
  destruct (process_stages _ _ _ _ _ _) as [[[ret m] w0]|]; cbn [bind];
    [|reflexivity].
  unfold process_fail. toggle. reflexivity.
Qed.

(* ------------------------------------------------------------------ *)
(** * Raw mode, end to end *)

(** X1.  Raw mode, not a check, output without a limit, the input one
    chunk of bytes: when the message has been read and the filter fails,
    with whatever code, the output receives the input bytes, all of them
    and nothing else, and the code of the filter is the outcome. *)
Theorem raw_failure_replays_input (w w1 : world) (hostname : string)
    (port : Z) (user : option (list Z)) (max_size flags ret : Z)
    (m1 : message) (bs : list Z) :
  Z.land flags SPAMC_MODE_MASK = SPAMC_RAW_MODE ->
  flag_set flags SPAMC_CHECK_ONLY = false ->
  room (w_out w) = None -> w_in w = [Bytes bs] ->
  process_stages w hostname port user max_size flags = Ret (ret, m1, w1) ->
  ret <> EX_OK -> type m1 = MESSAGE_RAW ->
  exists w2,
    message_process w hostname port user max_size flags = Ret (ret, w2)
    /\ written (w_out w2) = written (w_out w) ++ bs.
Proof.
  intros Hmode Hflag Hroom Hin Hst Hret Htype.
  destruct (raw_stages_state _ _ _ _ _ _ _ _ _ _ Hmode Hflag Hin Hst Htype)
    as (Hblk & Hne & Hrest & Hout & Hraw
        & [(_ & Hw & Ho & Hol) | (Hok & _)]);
    [|contradiction].
  rewrite (message_process_failure _ _ _ _ _ _ _ _ _ Hflag Hst Hret).
  rewrite (message_cleanup_frees m1) by (rewrite ?Ho, ?Hraw; auto).
  unfold message_dump. rewrite Htype.
  rewrite message_write_raw_capture;
    [| congruence | exact Htype | exact Hw | exact Ho | congruence
     | congruence].
  cbn [bind]. worlds. rewrite Hrest.
  change (pending []) with O. rewrite message_dump_loop_eof. cbn [bind].
  eexists. split; [reflexivity|]. worlds. cbn [written].
  rewrite Hout, Hblk. reflexivity.
Qed.

Lemma raw_failure_replays_input_witness :
  exists w2,
    message_process (sample_world (bytes "hello") [] all_refuse)
                    "spamd" 783 None 10 0
    = Ret (EX_UNAVAILABLE, w2)
    /\ written (w_out w2) = bytes "hello".
Proof.
  refine (raw_failure_replays_input
            (sample_world (bytes "hello") [] all_refuse) _
            "spamd" 783 None 10 0 EX_UNAVAILABLE _ (bytes "hello")
            eq_refl eq_refl eq_refl eq_refl _ _ _).
  - vm_compute. reflexivity.
  - discriminate.
  - reflexivity.
Defined.

(* ------------------------------------------------------------------ *)
(** * Dot-stuffing, there and back *)

Lemma stuffed_step (c0 : Z) (t : list Z) :
  stuffed (c0 :: t)
  = match t with
    | c1 :: t' =>
        if (c0 =? LF) && (c1 =? chr ".")
        then c0 :: c1 :: chr "." :: stuffed t'
        else c0 :: stuffed t
    | [] => [c0]
    end.
Proof. reflexivity. Qed.

Lemma skipn_rd (o : list Z) (i : Z) :
  0 <= i < len o ->
  exists c, rd o i = Ret c
            /\ skipn (Z.to_nat i) o = c :: skipn (Z.to_nat (i + 1)) o.
Proof.
  intros H. destruct (rd_in_range o i H) as [c Hc]. exists c.
  split; [exact Hc|]. apply rd_inv in Hc. destruct Hc as [_ Hc].
  replace (Z.to_nat (i + 1)) with (S (Z.to_nat i)) by lia.
  revert Hc. generalize (Z.to_nat i). clear H. intros n. revert o.
  induction n as [|n IH]; intros [|a o]; simpl; try discriminate.
  - intros [= ->]. reflexivity.
  - intros H. apply IH in H. exact H.
Qed.

Lemma skipn_end (o : list Z) (i : Z) :
  len o <= i -> skipn (Z.to_nat i) o = [].
Proof. intros H. apply skipn_all2. unfold len in H. lia. Qed.

(** One buffer: the bytes stored are a piece of the stuffed body, and the
    body goes on where the buffer stopped. *)
Lemma fill_buffer_stuffed (o : list Z) (jlimit : Z) (fuel : nat) :
  forall (i j : Z) (buffer : list Z),
    0 <= i <= len o ->
    exists i' e,
      fill_buffer fuel o (len o) jlimit i j buffer
      = Ret (i', j + len e, buffer ++ e)
      /\ i <= i' <= len o /\ i' - i <= len e
      /\ stuffed (skipn (Z.to_nat i) o)
         = e ++ stuffed (skipn (Z.to_nat i') o).
Proof.
  induction fuel as [|fuel IH]; intros i j buffer Hi.
  - exists i, []. cbn [fill_buffer]. rewrite app_nil_r.
    change (len (@nil Z)) with 0. rewrite Z.add_0_r.
    split; [reflexivity|]. split; [lia|]. split; [lia | reflexivity].
  - rewrite fill_buffer_S.
    assert (Hstop : exists i' e,
               Ret (i, j, buffer) = Ret (i', j + len e, buffer ++ e)
               /\ i <= i' <= len o /\ i' - i <= len e
               /\ stuffed (skipn (Z.to_nat i) o)
                  = e ++ stuffed (skipn (Z.to_nat i') o)).
    { exists i, []. rewrite app_nil_r.
      change (len (@nil Z)) with 0. rewrite Z.add_0_r.
      split; [reflexivity|]. split; [lia|]. split; [lia | reflexivity]. }
    destruct (Z.ltb_spec i (len o)) as [Hlt|Hge]; [|exact Hstop].
    destruct (Z.ltb_spec j jlimit) as [Hj|Hj]; [|exact Hstop].
    cbn [andb].
    destruct (skipn_rd o i ltac:(lia)) as (c0 & Hc0 & Hs0).
    rewrite Hc0.
    destruct (Z.ltb_spec (i + 1) (len o)) as [Hlt1|Hge1].
    + destruct (skipn_rd o (i + 1) ltac:(lia)) as (c1 & Hc1 & Hs1).
      cbn [bind]. rewrite Hc1.
      replace (i + 1 + 1) with (i + 2) in Hs1 by lia.
      destruct (c0 =? LF) eqn:E0; cbn [bind].
      * destruct (c1 =? chr ".") eqn:E1.
        -- destruct (Z.gtb_spec j (jlimit - 4)); [exact Hstop|].
           destruct (IH (i + 2) (j + 3) (buffer ++ [c0; c1; chr "."])
                        ltac:(lia)) as (i' & e & He & Hr & Hle & Hst).
           exists i', ([c0; c1; chr "."] ++ e).
           rewrite He, <- app_assoc, len_app.
           change (len [c0; c1; chr "."]) with 3.
           split; [f_equal; f_equal; f_equal; lia|].
           split; [lia|]. split; [lia|].
           rewrite Hs0, stuffed_step, Hs1, E0, E1. cbn [andb].
           rewrite Hst. reflexivity.
        -- destruct (IH (i + 1) (j + 1) (buffer ++ [c0]) ltac:(lia))
             as (i' & e & He & Hr & Hle & Hst).
           exists i', ([c0] ++ e).
           rewrite He, <- app_assoc, len_app. change (len [c0]) with 1.
           split; [f_equal; f_equal; f_equal; lia|].
           split; [lia|]. split; [lia|].
           rewrite Hs1 in Hst.
           rewrite Hs0, stuffed_step, Hs1, E0, E1. cbn [andb].
           rewrite Hst. reflexivity.
      * destruct (IH (i + 1) (j + 1) (buffer ++ [c0]) ltac:(lia))
          as (i' & e & He & Hr & Hle & Hst).
        exists i', ([c0] ++ e).
        rewrite He, <- app_assoc, len_app. change (len [c0]) with 1.
        split; [f_equal; f_equal; f_equal; lia|].
        split; [lia|]. split; [lia|].
        rewrite Hs1 in Hst.
        rewrite Hs0, stuffed_step, Hs1, E0. cbn [andb].
        rewrite Hst. reflexivity.
    + cbn [bind].
      destruct (IH (i + 1) (j + 1) (buffer ++ [c0]) ltac:(lia))
        as (i' & e & He & Hr & Hle & Hst).
      exists i', ([c0] ++ e).
      rewrite He, <- app_assoc, len_app. change (len [c0]) with 1.
      split; [f_equal; f_equal; f_equal; lia|].
      split; [lia|]. split; [lia|].
      rewrite (skipn_end o (i + 1)) in Hst by lia.
      rewrite Hs0, stuffed_step, (skipn_end o (i + 1)) by lia.
      rewrite <- app_assoc, <- Hst. reflexivity.
Qed.

Lemma sink_open_eta (k : sink) :
  room k = None -> k = {| written := written k ++ []; room := None |}.
Proof. destruct k as [wr0 r]. cbn. intros ->. rewrite app_nil_r. reflexivity. Qed.

(** The loop over the body on a descriptor without a limit: the buffers,
    one behind the other, are the stuffed body. *)
Lemma write_stuffed_open (o : list Z) (fuel : nat) :
  forall (k : sink) (i total : Z),
    room k = None -> 0 <= i <= len o ->
    (Z.to_nat (len o - i) <= fuel)%nat ->
    write_stuffed fuel k o (len o) i total
    = Ret (total + len (stuffed (skipn (Z.to_nat i) o)),
           {| written := written k ++ stuffed (skipn (Z.to_nat i) o);
              room := None |}).
Proof.
  induction fuel as [|fuel IH]; intros k i total Hroom Hi Hf.
  - cbn [write_stuffed]. rewrite (skipn_end o i) by lia. cbn [stuffed].
    change (len (@nil Z)) with 0. rewrite Z.add_0_r.
    rewrite <- sink_open_eta by exact Hroom. reflexivity.
  - rewrite write_stuffed_S.
    destruct (Z.ltb_spec i (len o)) as [Hlt|Hge].
    2:{ rewrite (skipn_end o i) by lia. cbn [stuffed].
        change (len (@nil Z)) with 0. rewrite Z.add_0_r.
        rewrite <- sink_open_eta by exact Hroom. reflexivity. }
    destruct (fill_buffer_stuffed o (1024 - 4) (Z.to_nat (1024 - 4)) i 0 []
                ltac:(lia)) as (i' & e & He & Hr & Hle & Hst).
    pose proof He as Hprog. rewrite He. cbn [bind app].
    change (Z.to_nat (1024 - 4)) with (S (Z.to_nat (1024 - 5))) in Hprog.
    apply fill_buffer_progress in Hprog; [|lia..].
    assert (Hne : e <> []).
    { intros ->. change (len (@nil Z)) with 0 in Hle. lia. }
    rewrite Z.add_0_l, (full_write_open k e Hroom Hne).
    rewrite IH; [|reflexivity | lia | lia].
    cbn [written]. rewrite Hst, len_app, <- app_assoc.
    f_equal. f_equal. lia.
Qed.

(** The stuffing of the writing loop is the doubling of the dots at the
    start of the lines, the first line apart. *)
Lemma stuffed_spec_bounded (n : nat) :
  forall B : list Z, (length B <= n)%nat -> stuffed B = spec_stuff false B.
Proof.
  induction n as [|n IH]; intros B Hn.
  - destruct B; [reflexivity | simpl in Hn; lia].
  - destruct B as [|c0 [|c1 t']]; [reflexivity | reflexivity |].
    rewrite stuffed_step. cbn [spec_stuff andb app].
    destruct (c0 =? LF) eqn:E0; cbn [andb].
    + destruct (Z.eqb_spec c1 (chr ".")) as [E1|E1].
      * subst c1. change (chr "." =? LF) with false.
        rewrite (IH t') by (simpl in Hn; lia). reflexivity.
      * rewrite (IH (c1 :: t')) by (simpl in Hn |- *; lia).
        cbn [spec_stuff andb app]. reflexivity.
    + rewrite (IH (c1 :: t')) by (simpl in Hn |- *; lia).
      cbn [spec_stuff andb app]. reflexivity.
Qed.

Lemma stuffed_spec (B : list Z) : stuffed B = spec_stuff false B.
Proof. apply (stuffed_spec_bounded (length B)). apply le_n. Qed.

Lemma spec_stuff_first_line (B : list Z) :
  hd 0 B <> chr "." -> spec_stuff true B = spec_stuff false B.
Proof.
  destruct B as [|c t]; [reflexivity|]. cbn [hd spec_stuff andb].
  intros Hc. destruct (Z.eqb_spec c (chr ".")); [contradiction|].
  reflexivity.
Qed.

Lemma rd_app_r (l1 l2 : list Z) (k : Z) :
  0 <= k -> rd (l1 ++ l2) (len l1 + k) = rd l2 k.
Proof.
  intros Hk. unfold rd.
  pose proof (len_nonneg l1).
  destruct (Z.ltb_spec (len l1 + k) 0); [lia|].
  destruct (Z.ltb_spec k 0); [lia|].
  replace (Z.to_nat (len l1 + k)) with (length l1 + Z.to_nat k)%nat
    by (unfold len; lia).
  rewrite nth_error_app2 by lia.
  replace (length l1 + Z.to_nat k - length l1)%nat with (Z.to_nat k) by lia.
  reflexivity.
Qed.

Lemma wr_app_mid (l1 l2 : list Z) (x v : Z) :
  wr (l1 ++ x :: l2) (len l1) v = l1 ++ v :: l2.
Proof.
  unfold wr, len. rewrite Nat2Z.id.
  induction l1 as [|a l1 IH]; simpl; [reflexivity|]. rewrite IH. reflexivity.
Qed.

Lemma len_shift (G : list Z) (c : Z) : len (shift G c) = len G.
Proof.
  destruct G as [|g G0]; [reflexivity|]. unfold shift. rewrite len_app.
  unfold len. simpl length. lia.
Qed.

Lemma rd_layout (pre D G rest : list Z) (k : Z) :
  0 <= k ->
  rd (pre ++ D ++ G ++ rest) (len pre + (len D + len G) + k) = rd rest k.
Proof.
  intros Hk.
  replace (pre ++ D ++ G ++ rest) with ((pre ++ D ++ G) ++ rest)
    by (rewrite <- !app_assoc; reflexivity).
  replace (len pre + (len D + len G) + k) with (len (pre ++ D ++ G) + k)
    by (rewrite !len_app; lia).
  apply rd_app_r. exact Hk.
Qed.

Lemma scan_eq (b b' : list Z) (i i' j j' p : Z) :
  b = b' -> i = i' -> j = j' ->
  {| s_buf := b; s_i := i; s_j := j; s_prev := p |}
  = {| s_buf := b'; s_i := i'; s_j := j'; s_prev := p |}.
Proof. intros -> -> ->. reflexivity. Qed.

(** A round that copies. *)
Lemma copy_char_layout (pre D G rest : list Z) (p c : Z) :
  copy_char (len pre) (layout pre D G (c :: rest) p)
  = Ret (GoOn (layout pre (D ++ [c]) (shift G c) rest c)).
Proof.
  unfold copy_char, layout. cbn [s_buf s_i s_j s_prev].
  replace (len pre + (len D + len G)) with (len pre + (len D + len G) + 0)
    by lia.
  rewrite rd_layout by lia.
  change (rd (c :: rest) 0) with (Ret c). cbn [bind].
  f_equal. f_equal. apply scan_eq.
  - replace (len pre + len D) with (len (pre ++ D))
      by (rewrite len_app; reflexivity).
    destruct G as [|g G0].
    + cbn [app shift].
      replace (pre ++ D ++ c :: rest) with ((pre ++ D) ++ c :: rest)
        by (rewrite <- app_assoc; reflexivity).
      rewrite wr_app_mid. rewrite <- !app_assoc. reflexivity.
    + cbn [shift].
      replace (pre ++ D ++ (g :: G0) ++ c :: rest)
        with ((pre ++ D) ++ g :: (G0 ++ c :: rest))
        by (rewrite <- !app_assoc; reflexivity).
      rewrite wr_app_mid. rewrite <- !app_assoc. reflexivity.
  - rewrite len_app, len_shift. change (len [c]) with 1. lia.
  - rewrite len_app. change (len [c]) with 1. lia.
Qed.

Lemma unstuff_body_copy (pre D G rest : list Z) (p c : Z) :
  (p = LF -> c <> chr ".") ->
  unstuff_body (len pre) (layout pre D G (c :: rest) p)
  = Ret (GoOn (layout pre (D ++ [c]) (shift G c) rest c)).
Proof.
  intros Hp. unfold unstuff_body.
  change (s_prev (layout pre D G (c :: rest) p)) with p.
  destruct (Z.eqb_spec p LF) as [Hlf|Hlf]; [|apply copy_char_layout].
  change (s_buf (layout pre D G (c :: rest) p))
    with (pre ++ D ++ G ++ c :: rest).
  change (s_i (layout pre D G (c :: rest) p)) with (len D + len G).
  replace (len pre + (len D + len G)) with (len pre + (len D + len G) + 0)
    at 1 by lia.
  rewrite rd_layout by lia.
  change (rd (c :: rest) 0) with (Ret c). cbn [bind].
  destruct (Z.eqb_spec c (chr ".")) as [Hc|Hc]; [|apply copy_char_layout].
  exfalso. exact (Hp Hlf Hc).
Qed.

(** A round that drops the first of two dots. *)
Lemma unstuff_body_drop (pre D G rest : list Z) :
  unstuff_body (len pre) (layout pre D G (chr "." :: chr "." :: rest) LF)
  = Ret (GoOn (layout pre D (G ++ [chr "."]) (chr "." :: rest) (chr "."))).
Proof.
  unfold unstuff_body.
  change (s_prev (layout pre D G (chr "." :: chr "." :: rest) LF)) with LF.
  change (LF =? LF) with true. cbn match.
  change (s_buf (layout pre D G (chr "." :: chr "." :: rest) LF))
    with (pre ++ D ++ G ++ chr "." :: chr "." :: rest).
  change (s_i (layout pre D G (chr "." :: chr "." :: rest) LF))
    with (len D + len G).
  change (s_j (layout pre D G (chr "." :: chr "." :: rest) LF))
    with (len D).
  replace (len pre + (len D + len G)) with (len pre + (len D + len G) + 0)
    at 1 by lia.
  rewrite !rd_layout by lia.
  change (rd (chr "." :: chr "." :: rest) 0) with (Ret (chr ".")).
  change (rd (chr "." :: chr "." :: rest) 1) with (Ret (chr ".")).
  cbn [bind]. change (chr "." =? chr ".") with true.
  change (chr "." =? CR) with false. change (chr "." =? LF) with false.
  cbn [bind]. cbn match.
  f_equal. f_equal. unfold layout. apply scan_eq.
  - rewrite <- !app_assoc. reflexivity.
  - rewrite len_app. change (len [chr "."]) with 1. lia.
  - reflexivity.
Qed.

(** The round that meets the lone dot. *)
Lemma unstuff_body_lone (pre D G post : list Z) :
  lone_dot post = true ->
  unstuff_body (len pre) (layout pre D G post LF)
  = Ret (LoneDot (layout pre D G post LF)).
Proof.
  intros Hpost. destruct post as [|c [|c1 t]]; try discriminate.
  cbn [lone_dot] in Hpost. apply andb_prop in Hpost.
  destruct Hpost as [Hc H1]. apply Z.eqb_eq in Hc. subst c.
  unfold unstuff_body.
  change (s_prev (layout pre D G (chr "." :: c1 :: t) LF)) with LF.
  change (LF =? LF) with true. cbn match.
  change (s_buf (layout pre D G (chr "." :: c1 :: t) LF))
    with (pre ++ D ++ G ++ chr "." :: c1 :: t).
  change (s_i (layout pre D G (chr "." :: c1 :: t) LF))
    with (len D + len G).
  replace (len pre + (len D + len G)) with (len pre + (len D + len G) + 0)
    at 1 by lia.
  rewrite !rd_layout by lia.
  change (rd (chr "." :: c1 :: t) 0) with (Ret (chr ".")).
  change (rd (chr "." :: c1 :: t) 1) with (Ret c1).
  cbn [bind]. change (chr "." =? chr ".") with true. cbn match.
  destruct (Z.eqb_spec c1 CR) as [Hcr|Hcr].
  - subst c1. change (CR =? LF) with false in H1. cbn [orb andb] in H1.
    change (CR =? CR) with true in H1. cbn [andb] in H1.
    destruct t as [|c2 t']; [discriminate H1|]. cbn [hd] in H1.
    change (rd (chr "." :: CR :: c2 :: t') 2) with (Ret c2).
    cbn [bind]. rewrite H1. reflexivity.
  - cbn [andb] in H1. rewrite orb_false_r in H1. cbn [bind]. rewrite H1.
    reflexivity.
Qed.

Lemma unstuff_loop_S (fuel : nat) (base msg_len : Z) (s : scan) :
  unstuff_loop (S fuel) base msg_len s
  = (if s_i s <? msg_len then
       r <- unstuff_body base s ;;
       match r with
       | GoOn s' => unstuff_loop fuel base msg_len s'
       | LoneDot s' => Ret (LoneDot s')
       end
     else Ret (GoOn s)).
Proof. reflexivity. Qed.

Lemma unstuff_loop_round (fuel : nat) (base msg_len : Z) (s s' : scan) :
  s_i s < msg_len -> unstuff_body base s = Ret (GoOn s') ->
  unstuff_loop (S fuel) base msg_len s = unstuff_loop fuel base msg_len s'.
Proof.
  intros Hi Hb. rewrite unstuff_loop_S.
  destruct (Z.ltb_spec (s_i s) msg_len); [|lia]. rewrite Hb. reflexivity.
Qed.

(** The loop on a stuffed body and the lone dot behind it: it stops at
    the dot and has the body, unstuffed, at the start of the block. *)
Lemma unstuff_loop_stuffed (pre post : list Z) (msg_len : Z) :
  lone_dot post = true ->
  forall (n : nat) (R : list Z),
    (length R <= n)%nat ->
    forall (fuel : nat) (D G : list Z) (p : Z),
      (p = LF -> hd 0 R <> chr ".") ->
      last (p :: R) 0 = LF ->
      (length (stuffed R) < fuel)%nat ->
      len D + len G + len (stuffed R) + len post = msg_len ->
      exists G',
        unstuff_loop fuel (len pre) msg_len
                     (layout pre D G (stuffed R ++ post) p)
        = Ret (LoneDot (layout pre (D ++ R) G' post LF))
        /\ len R + len G' = len G + len (stuffed R).
Proof.
  intros Hpost.
  assert (Hpos : 2 <= len post).
  { destruct post as [|c [|c1 t]]; try discriminate.
    unfold len. simpl length. lia. }
  induction n as [|n IH]; intros R Hn fuel D G p Hp Hlast Hfuel Hlen.
  - destruct R; [|simpl in Hn; lia].
    cbn [last] in Hlast. subst p. cbn [stuffed app] in *.
    destruct fuel as [|fuel]; [simpl in Hfuel; lia|].
    exists G. rewrite unstuff_loop_S.
    change (s_i (layout pre D G post LF)) with (len D + len G).
    change (len (@nil Z)) with 0 in Hlen.
    destruct (Z.ltb_spec (len D + len G) msg_len); [|lia].
    rewrite unstuff_body_lone by exact Hpost. cbn [bind].
    rewrite app_nil_r. split; [reflexivity|].
    change (len (@nil Z)) with 0. lia.
  - destruct R as [|c0 t].
    { apply (IH []); [simpl; lia | assumption..]. }
    rewrite stuffed_step in *.
    destruct t as [|c1 t'].
    + (* the last byte of the body *)
      cbn [last] in Hlast. subst c0.
      destruct fuel as [|fuel]; [simpl in Hfuel; lia|].
      cbn [app].
      rewrite (unstuff_loop_round fuel _ _ _
                 (layout pre (D ++ [LF]) (shift G LF) post LF)).
      2:{ change (s_i (layout pre D G (LF :: post) p)) with (len D + len G).
          change (len [LF]) with 1 in Hlen. lia. }
      2:{ apply unstuff_body_copy. intros _. discriminate. }
      destruct (IH [] ltac:(simpl; lia) fuel (D ++ [LF]) (shift G LF) LF)
        as (G' & Hrun & HG').
      * intros _. cbn [hd]. discriminate.
      * reflexivity.
      * simpl in Hfuel |- *. lia.
      * rewrite len_app, len_shift. cbn [stuffed].
        change (len [LF]) with 1 in *. change (len (@nil Z)) with 0. lia.
      * exists G'. cbn [stuffed app] in Hrun. rewrite Hrun.
        rewrite app_nil_r. split; [reflexivity|].
        rewrite len_shift in HG'. cbn [stuffed] in HG'.
        change (len (@nil Z)) with 0 in HG'. change (len [LF]) with 1. lia.
    + destruct ((c0 =? LF) && (c1 =? chr ".")) eqn:Epair.
      * (* a line feed and a dot: three rounds *)
        apply andb_prop in Epair. destruct Epair as [E0 E1].
        apply Z.eqb_eq in E0, E1. subst c0 c1.
        assert (Hl3 : len (LF :: chr "." :: chr "." :: stuffed t')
                      = 3 + len (stuffed t'))
          by (unfold len; simpl length; lia).
        rewrite Hl3 in Hlen.
        destruct fuel as [|[|[|fuel]]]; try (simpl in Hfuel; lia).
        cbn [app].
        rewrite (unstuff_loop_round _ _ _ _
                   (layout pre (D ++ [LF]) (shift G LF)
                           (chr "." :: chr "." :: stuffed t' ++ post) LF)).
        2:{ change (s_i (layout pre D G
                           (LF :: chr "." :: chr "." :: stuffed t' ++ post) p))
              with (len D + len G).
            pose proof (len_nonneg (stuffed t')). lia. }
        2:{ apply unstuff_body_copy. intros _. discriminate. }
        rewrite (unstuff_loop_round _ _ _ _
                   (layout pre (D ++ [LF]) (shift G LF ++ [chr "."])
                           (chr "." :: stuffed t' ++ post) (chr "."))).
        2:{ change (s_i (layout pre (D ++ [LF]) (shift G LF)
                           (chr "." :: chr "." :: stuffed t' ++ post) LF))
              with (len (D ++ [LF]) + len (shift G LF)).
            rewrite len_app, len_shift. change (len [LF]) with 1.
            pose proof (len_nonneg (stuffed t')). lia. }
        2:{ apply unstuff_body_drop. }
        rewrite (unstuff_loop_round _ _ _ _
                   (layout pre ((D ++ [LF]) ++ [chr "."])
                           (shift (shift G LF ++ [chr "."]) (chr "."))
                           (stuffed t' ++ post) (chr "."))).
        2:{ change (s_i (layout pre (D ++ [LF]) (shift G LF ++ [chr "."])
                           (chr "." :: stuffed t' ++ post) (chr ".")))
              with (len (D ++ [LF]) + len (shift G LF ++ [chr "."])).
            rewrite !len_app, len_shift. change (len [LF]) with 1.
            change (len [chr "."]) with 1.
            pose proof (len_nonneg (stuffed t')). lia. }
        2:{ apply unstuff_body_copy. intros H; discriminate H. }
        destruct (IH t' ltac:(simpl in Hn; lia) fuel
                     ((D ++ [LF]) ++ [chr "."])
                     (shift (shift G LF ++ [chr "."]) (chr ".")) (chr "."))
          as (G' & Hrun & HG').
        -- intros H; discriminate H.
        -- exact Hlast.
        -- simpl in Hfuel. lia.
        -- rewrite !len_app, !len_shift, len_app, len_shift.
           change (len [LF]) with 1. change (len [chr "."]) with 1. lia.
        -- exists G'. rewrite Hrun. rewrite <- !app_assoc. cbn [app].
           split; [reflexivity|].
           rewrite !len_shift, len_app, len_shift in HG'.
           change (len [chr "."]) with 1 in HG'.
           rewrite Hl3.
           replace (len (LF :: chr "." :: t')) with (2 + len t')
             by (unfold len; simpl length; lia).
           lia.
      * (* any other byte: one round *)
        assert (Hl1 : len (c0 :: stuffed (c1 :: t'))
                      = 1 + len (stuffed (c1 :: t')))
          by (unfold len; simpl length; lia).
        rewrite Hl1 in Hlen.
        destruct fuel as [|fuel]; [simpl in Hfuel; lia|].
        cbn [app].
        rewrite (unstuff_loop_round _ _ _ _
                   (layout pre (D ++ [c0]) (shift G c0)
                           (stuffed (c1 :: t') ++ post) c0)).
        2:{ change (s_i (layout pre D G
                           (c0 :: stuffed (c1 :: t') ++ post) p))
              with (len D + len G).
            pose proof (len_nonneg (stuffed (c1 :: t'))). lia. }
        2:{ apply unstuff_body_copy. exact Hp. }
        destruct (IH (c1 :: t') ltac:(simpl in Hn |- *; lia) fuel
                     (D ++ [c0]) (shift G c0) c0)
          as (G' & Hrun & HG').
        -- intros H0 H1. cbn [hd] in H1. subst c0 c1.
           discriminate Epair.
        -- exact Hlast.
        -- cbn [length] in Hfuel. lia.
        -- rewrite len_app, len_shift. change (len [c0]) with 1. lia.
        -- exists G'. rewrite Hrun. rewrite <- app_assoc. cbn [app].
           split; [reflexivity|].
           rewrite len_shift in HG'. rewrite Hl1.
           replace (len (c0 :: c1 :: t')) with (1 + len (c1 :: t'))
             by (unfold len; simpl length; lia).
           lia.
Qed.

Lemma slice_mid (l1 l2 l3 : list Z) (off n : Z) :
  off = len l1 -> n = len l2 -> slice (l1 ++ l2 ++ l3) off n = Ret l2.
Proof.
  intros -> ->. unfold slice.
  destruct (Z.leb_spec (len l2) 0) as [Hz|Hz].
  - destruct l2; [reflexivity|]. unfold len in Hz. simpl length in Hz. lia.
  - pose proof (len_nonneg l1). pose proof (len_nonneg l3).
    destruct (Z.leb_spec 0 (len l1)); [|lia].
    rewrite !len_app.
    destruct (Z.leb_spec (len l1 + len l2) (len l1 + (len l2 + len l3)));
      [|lia].
    cbn [andb]. unfold len. rewrite !Nat2Z.id.
    rewrite skipn_app, skipn_all, Nat.sub_diag. cbn [app skipn].
    rewrite firstn_app, firstn_all, Nat.sub_diag. cbn [firstn].
    rewrite app_nil_r. reflexivity.
Qed.

(** What [message_write] puts out for a BSMTP message whose block holds
    [pre], the body and, further on, [rest]. *)
Lemma message_write_bsmtp (k : sink) (m : message) (P B G rest : list Z) :
  room k = None ->
  is_spam m = EX_TOOBIG -> type m = MESSAGE_BSMTP ->
  raw_block m = P ++ B ++ G ++ rest ->
  pre m = InRaw 0 -> pre_len m = len P ->
  out m = InRaw (len P) -> out_len m = len B ->
  post m = InRaw (len P + (len B + len G)) -> post_len m = len rest ->
  P <> [] -> rest <> [] ->
  message_write k m
  = Ret (len P + len (stuffed B) + len rest,
         {| written := written k ++ P ++ stuffed B ++ rest;
            room := None |}).
Proof.
  intros Hroom Hs Ht Hblk Hpre Hprel Hout Houtl Hpost Hpostl HP Hne.
  unfold message_write. rewrite Hs, Ht.
  change ((EX_TOOBIG =? EX_ISSPAM) || (EX_TOOBIG =? EX_NOTSPAM)) with false.
  change (negb (EX_TOOBIG =? EX_OUTPUTMESSAGE)
          && negb (EX_TOOBIG =? EX_TOOBIG)) with false.
  cbn match. unfold write_from.
  rewrite Hpre, Hprel, Hout, Houtl, Hpost, Hpostl. unfold load.
  rewrite Hblk.
  assert (HsP : slice (P ++ B ++ G ++ rest) 0 (len P) = Ret P)
    by (apply (slice_mid [] P (B ++ G ++ rest)); reflexivity).
  rewrite HsP. cbn [bind]. rewrite (full_write_open k P Hroom HP).
  assert (HsB : slice (P ++ B ++ G ++ rest) (len P) (len B) = Ret B)
    by (apply (slice_mid P B (G ++ rest)); reflexivity).
  rewrite HsB. cbn [bind].
  rewrite (write_stuffed_open B (Z.to_nat (len B)) _ 0 (len P));
    [| reflexivity | pose proof (len_nonneg B); lia | lia].
  change (Z.to_nat 0) with O. cbn [skipn bind written].
  assert (HsE : slice (P ++ B ++ G ++ rest) (len P + (len B + len G)) (len rest)
                = Ret rest).
  { replace (P ++ B ++ G ++ rest) with ((P ++ B ++ G) ++ rest ++ [])
      by (rewrite app_nil_r, <- !app_assoc; reflexivity).
    apply slice_mid; [rewrite !len_app|]; reflexivity. }
  rewrite HsE. cbn [bind].
  rewrite full_write_open; [| reflexivity | exact Hne].
  cbn [written]. rewrite <- !app_assoc. reflexivity.
Qed.

(** X3.  A transcript is [P], a stuffed body and the lone dot with what
    follows it, and the DATA search ends [pre] behind [P]; the body does
    not start with a dot and is empty or ends in a line feed.  Then the
    read returns [EX_OK] and leaves the body, unstuffed, as [msg], and
    writing the message it leaves puts the bytes of the transcript on an
    output without a limit, all of them and no other. *)
Theorem bsmtp_round_trip (w w1 : world) (m : message)
    (T P B rest : list Z) (s' : stream) :
  malloc w = (true, w1) ->
  full_read (w_in w1) (max_len m + 1) (max_len m + 1) = (len T, T, s') ->
  len T <= max_len m ->
  T = P ++ spec_stuff true B ++ rest ->
  find_data (Z.to_nat (len T - 6)) T (len T) 0 = Ret (Some (len P)) ->
  hd 0 B <> chr "." ->
  last (LF :: B) 0 = LF ->
  lone_dot rest = true ->
  exists m',
    message_read_bsmtp w m = Ret (EX_OK, m', set_w_in w1 s')
    /\ load m' (msg m') (msg_len m') = Ret B
    /\ forall k,
         room k = None ->
         message_write k m'
         = Ret (len T, {| written := written k ++ T; room := None |}).
Proof.
  intros Hmalloc Hread Hmax HT Hfd Hhd Hlast Hpost.
  rewrite spec_stuff_first_line, <- stuffed_spec in HT by exact Hhd.
  assert (Hpost2 : 2 <= len rest).
  { destruct rest as [|c [|c1 t]]; try discriminate.
    unfold len. simpl length. lia. }
  assert (HlenT : len T = len P + (len (stuffed B) + len rest))
    by (rewrite HT, !len_app; reflexivity).
  pose proof (len_nonneg P) as HP0.
  pose proof (len_nonneg (stuffed B)) as HS0.
  assert (HP6 : 6 <= len P) by (apply find_data_range in Hfd; lia).
  destruct (unstuff_loop_stuffed P rest (len T - len P) Hpost
              (length B) B (le_n _) (Z.to_nat (len T - len P)) [] [] LF)
    as (G' & Hrun & HG').
  { intros _. exact Hhd. }
  { exact Hlast. }
  { unfold len in *. lia. }
  { change (len (@nil Z)) with 0. lia. }
  change (len (@nil Z)) with 0 in HG'.
  unfold message_read_bsmtp. rewrite Hmalloc. cbn [negb].
  cbn -[Z.to_nat find_data unstuff_loop Z.sub full_read scan_start].
  rewrite Hread.
  cbn -[Z.to_nat find_data unstuff_loop Z.sub scan_start].
  destruct (Z.leb_spec (len T) 0); [lia|].
  destruct (Z.gtb_spec (len T) (max_len m)); [lia|].
  rewrite Hfd. cbn [bind].
  replace (scan_start T) with (layout P [] [] (stuffed B ++ rest) LF)
    by (rewrite HT; reflexivity).
  rewrite Hrun. cbn [bind].
  eexists. split; [reflexivity|].
  split.
  - cbn -[Z.sub].
    replace (P ++ B ++ G' ++ rest) with (P ++ B ++ (G' ++ rest))
      by reflexivity.
    apply slice_mid; reflexivity.
  - intros k Hroom.
    rewrite (message_write_bsmtp k _ P B G' rest); cbn -[Z.sub];
      try reflexivity; try assumption.
    + rewrite HlenT, HT. f_equal. f_equal. lia.
    + lia.
    + intros ->. change (len (@nil Z)) with 0 in HP6. lia.
    + intros ->. discriminate Hpost.
Qed.

Lemma bsmtp_round_trip_witness :
  exists m',
    message_read_bsmtp (sample_world sample_transcript [] all_accept)
                       (sample_message 100)
    = Ret (EX_OK, m',
           set_w_in (sample_world sample_transcript [] all_accept) [])
    /\ load m' (msg m') (msg_len m') = Ret sample_body
    /\ forall k,
         room k = None ->
         message_write k m'
         = Ret (len sample_transcript,
                {| written := written k ++ sample_transcript;
                   room := None |}).
Proof.
  apply (bsmtp_round_trip (sample_world sample_transcript [] all_accept)
           (sample_world sample_transcript [] all_accept)
           (sample_message 100) sample_transcript sample_pre sample_body
           sample_post []).
  - reflexivity.
  - vm_compute. reflexivity.
  - vm_compute. discriminate.
  - reflexivity.
  - vm_compute. reflexivity.
  - vm_compute. discriminate.
  - reflexivity.
  - reflexivity.
Defined.

(** X4.  The buffer of [message_write] does not show in what is written:
    on an output without a limit the loop over a body of any length puts
    out the body with every dot that follows a line feed doubled, and
    adds the number of these bytes to the total. *)
Theorem body_written_through_buffer (k : sink) (o : list Z) (total : Z) :
  room k = None ->
  write_stuffed (Z.to_nat (len o)) k o (len o) 0 total
  = Ret (total + len (spec_stuff false o),
         {| written := written k ++ spec_stuff false o; room := None |}).
Proof.
  intros Hroom. rewrite <- stuffed_spec.
  apply (write_stuffed_open o (Z.to_nat (len o)) k 0 total Hroom).
  - pose proof (len_nonneg o). lia.
  - lia.
Qed.

Lemma body_written_through_buffer_witness :
  write_stuffed (Z.to_nat (len dotted_lines)) open_sink dotted_lines
                (len dotted_lines) 0 0
  = Ret (0 + len (spec_stuff false dotted_lines),
         {| written := written open_sink ++ spec_stuff false dotted_lines;
            room := None |}).
Proof. apply (body_written_through_buffer open_sink dotted_lines 0). reflexivity. Defined.
(* ------------------------------------------------------------------ *)
(** * full_read and full_write *)


(** One [read]: the bytes it brings are the next bytes of the
    descriptor, no more than asked for. *)
Lemma sys_read_bytes (s s' : stream) (nbytes n : Z) (bs : list Z) :
  sys_read s nbytes = (n, bs, s') ->
  bytes_of s = bs ++ bytes_of s'
  /\ ((n = -1 /\ bs = []) \/ (n = len bs /\ (0 <= nbytes -> n <= nbytes))).
Proof.
  unfold sys_read. destruct s as [|[bs1|] s1].
  - intros [= <- <- <-]. split; [reflexivity|]. right. cbn. lia.
  - destruct (Z.leb_spec (len bs1) nbytes) as [Hle|Hgt].
    + intros [= <- <- <-]. split; [reflexivity|]. right. lia.
    + intros [= <- <- <-]. cbn [bytes_of]. split.
      * rewrite app_assoc, firstn_skipn. reflexivity.
      * right. unfold len in *. rewrite length_firstn. lia.
  - intros [= <- <- <-]. split; [reflexivity|]. left. auto.
Qed.

Lemma full_read_loop_bytes (fuel : nat) :
  forall (s s' : stream) (min l total n : Z) (buf bs : list Z),
    total = len buf -> total <= l ->
    full_read_loop fuel s min l total buf = (n, bs, s') ->
    buf ++ bytes_of s = bs ++ bytes_of s'
    /\ len bs <= l
    /\ (n = -1 \/ n = len bs).
Proof.
  induction fuel as [|fuel IH]; intros s s' min l total n buf bs Ht Hl;
    cbn [full_read_loop].
  - intros [= <- <- <-]. split; [reflexivity | lia].
  - destruct (Z.ltb_spec total min).
    2:{ intros [= <- <- <-]. split; [reflexivity | lia]. }
    unfold timeout_read.
    destruct (sys_read s (l - total)) as [[thistime bs0] s0] eqn:E.
    apply sys_read_bytes in E. destruct E as (Hb & Hn).
    pose proof (len_nonneg bs0) as Hb0.
    destruct (Z.ltb_spec thistime 0).
    { intros [= <- <- <-]. destruct Hn as [[_ ->]|[Hn _]]; [|lia].
      rewrite Hb. split; [reflexivity | lia]. }
    destruct Hn as [[Hn _]|[Hn Hle]]; [lia|]. specialize (Hle ltac:(lia)).
    destruct (Z.eqb_spec thistime 0) as [Hz|Hz].
    { intros [= <- <- <-].
      assert (bs0 = []) as ->
          by (destruct bs0; [reflexivity | unfold len in *; simpl in *; lia]).
      rewrite Hb. split; [reflexivity | lia]. }
    intros Hrun. apply IH in Hrun.
    + destruct Hrun as (Hc & Hlb & Hr). rewrite <- Hc, Hb, app_assoc.
      split; [reflexivity|]. split; [lia | exact Hr].
    + rewrite len_app. lia.
    + lia.
Qed.

(** X5.  [full_read] stores at most [len] bytes and loses none: the bytes
    it stored, followed by what the descriptor still holds, are what the
    descriptor held; the value returned is the number of bytes stored,
    or -1. *)
Theorem full_read_keeps_every_byte (s s' : stream) (min l n : Z)
    (bs : list Z) :
  0 <= l ->
  full_read s min l = (n, bs, s') ->
  bytes_of s = bs ++ bytes_of s'
  /\ len bs <= l
  /\ (n = -1 \/ n = len bs).
Proof.
  intros Hl H. unfold full_read in H.
  apply full_read_loop_bytes in H; [exact H | reflexivity | exact Hl].
Qed.


Lemma sys_read_ready (s s' : stream) (nbytes n : Z) (bs : list Z) :
  ready s = true -> 0 < nbytes ->
  sys_read s nbytes = (n, bs, s') ->
  ready s' = true /\ ((s = [] /\ n = 0 /\ s' = []) \/ 0 < n).
Proof.
  intros Hr Hn. unfold sys_read. destruct s as [|[bs1|] s1].
  - intros [= <- <- <-]. auto.
  - cbn [ready] in Hr. apply andb_prop in Hr. destruct Hr as [Hne Hr].
    apply negb_true_iff in Hne. apply Z.eqb_neq in Hne.
    pose proof (len_nonneg bs1).
    destruct (Z.leb_spec (len bs1) nbytes) as [Hle|Hgt].
    + intros [= <- <- <-]. split; [exact Hr|]. right. lia.
    + intros [= <- <- <-]. split; [|right; lia].
      cbn [ready]. rewrite Hr, andb_true_r.
      apply negb_true_iff, Z.eqb_neq. unfold len in *.
      rewrite length_skipn. lia.
  - discriminate Hr.
Qed.

Lemma full_read_loop_ready (fuel : nat) :
  forall (s s' : stream) (min l total n : Z) (buf bs : list Z),
    ready s = true -> 0 <= total -> min <= l ->
    (Z.to_nat (min - total) <= fuel)%nat ->
    full_read_loop fuel s min l total buf = (n, bs, s') ->
    ready s' = true /\ total <= n /\ (min <= n \/ s' = []).
Proof.
  induction fuel as [|fuel IH]; intros s s' min l total n buf bs Hr Ht Hl Hf;
    cbn [full_read_loop].
  - intros [= <- <- <-]. split; [exact Hr|]. lia.
  - destruct (Z.ltb_spec total min).
    2:{ intros [= <- <- <-]. split; [exact Hr|]. lia. }
    unfold timeout_read.
    destruct (sys_read s (l - total)) as [[thistime bs0] s0] eqn:E.
    apply sys_read_ready in E; [|exact Hr|lia].
    destruct E as (Hr0 & [(-> & -> & ->)|Hpos]).
    + cbn. intros [= <- <- <-]. split; [reflexivity|]. split; [lia|].
      right. reflexivity.
    + destruct (Z.ltb_spec thistime 0); [lia|].
      destruct (Z.eqb_spec thistime 0); [lia|].
      intros Hrun. apply IH in Hrun; try assumption; try lia.
      destruct Hrun as (H1 & H2 & H3). split; [exact H1|]. split; [lia|].
      exact H3.
Qed.

(** X6.  On a descriptor whose reads all bring bytes until the end of
    input, [full_read] completes short reads: it returns at least [min]
    bytes, or reaches the end of input and returns all there was. *)
Theorem full_read_completes_short_reads (s s' : stream) (min l n : Z)
    (bs : list Z) :
  ready s = true -> 0 <= min <= l ->
  full_read s min l = (n, bs, s') ->
  n = len bs /\ bytes_of s = bs ++ bytes_of s' /\ ready s' = true
  /\ ((min <= n <= l)
      \/ (n < min /\ s' = [] /\ bs = bytes_of s)).
Proof.
  intros Hr Hm H. pose proof H as H0. unfold full_read in H, H0.
  apply full_read_loop_bytes in H; [|reflexivity|lia].
  apply full_read_loop_ready in H0; try assumption; try lia.
  destruct H as (Hb & Hle & Hn). destruct H0 as (Hr' & Hn0 & Hmin).
  cbn [app] in Hb.
  destruct Hn as [Hn|Hn]; [lia|].
  split; [exact Hn|]. split; [exact Hb|]. split; [exact Hr'|].
  destruct (Z.lt_ge_cases n min) as [Hlt|Hge].
  - right. destruct Hmin as [Hmin| ->]; [lia|].
    cbn [bytes_of] in Hb. rewrite app_nil_r in Hb. auto.
  - left. lia.
Qed.


Lemma firstn_firstn_skipn (l : list Z) (a b c : nat) :
  (b <= c)%nat ->
  firstn a l ++ firstn b (firstn c (skipn a l)) = firstn (a + b) l.
Proof.
  intros Hbc. rewrite firstn_firstn, Nat.min_l by exact Hbc.
  revert l. induction a as [|a IH]; intros l; cbn [Nat.add].
  - reflexivity.
  - destruct l as [|x l]; cbn [firstn skipn app].
    + rewrite firstn_nil. reflexivity.
    + rewrite IH. reflexivity.
Qed.

Lemma full_write_loop_prefix (buf w0 : list Z) (n : Z) (fuel : nat) :
  forall (k k' : sink) (total t : Z),
    0 <= total <= n -> n <= len buf ->
    (Z.to_nat (n - total) <= fuel)%nat ->
    written k = w0 ++ firstn (Z.to_nat total) buf ->
    full_write_loop fuel k buf n total = (t, k') ->
    exists c,
      total <= c <= n
      /\ written k' = w0 ++ firstn (Z.to_nat c) buf
      /\ ((t = n /\ c = n) \/ (t < 0 /\ c < n))
      /\ (takes k (n - total) -> t = n).
Proof.
  induction fuel as [|fuel IH]; intros k k' total t Ht Hn Hf Hw.
  - cbn [full_write_loop]. intros [= <- <-]. exists total.
    split; [lia|]. split; [exact Hw|]. split; [left; lia | intros _; lia].
  - rewrite full_write_loop_S.
    destruct (Z.ltb_spec total n) as [Hlt|Hge].
    2:{ intros [= <- <-]. exists total.
        split; [lia|]. split; [exact Hw|].
        split; [left; lia | intros _; lia]. }
    set (bs := firstn (Z.to_nat (n - total)) (skipn (Z.to_nat total) buf)).
    assert (Hbs : len bs = n - total).
    { unfold bs, len in *. rewrite length_firstn, length_skipn. lia. }
    fold bs. destruct (sys_write k bs) as [thistime k1] eqn:Esw.
    assert (Hsw : (thistime < 0 /\ k1 = k
                   /\ exists r, room k = Some r /\ r <= 0)
                  \/ (0 < thistime <= n - total
                      /\ written k1
                         = written k ++ firstn (Z.to_nat thistime) bs
                      /\ (takes k (n - total) ->
                          thistime = n - total))).
    { revert Esw. unfold sys_write, takes.
      destruct (room k) as [r|] eqn:Er.
      - destruct (Z.leb_spec r 0) as [Hr|Hr].
        + intros [= <- <-]. left. split; [lia|]. split; [reflexivity|].
          exists r. auto.
        + intros [= <- <-]. right. cbn [written].
          split; [lia|]. split; [reflexivity|]. intros Hfit. lia.
      - intros [= <- <-]. right. cbn [written]. split; [lia|].
        split; [|intros _; lia].
        unfold len. rewrite Nat2Z.id, firstn_all. reflexivity. }
    destruct Hsw as [(Hneg & -> & r & Er & Hr) | (Hpos & Hw1 & Hfit)].
    + destruct (Z.ltb_spec thistime 0); [|lia].
      intros [= <- <-]. exists total.
      split; [lia|]. split; [exact Hw|]. split; [right; lia|].
      unfold takes. rewrite Er. intros; lia.
    + destruct (Z.ltb_spec thistime 0); [lia|].
      intros Hrun. apply IH in Hrun.
      * destruct Hrun as (c & Hc & Hw' & Ht' & Htk).
        exists c. split; [lia|]. split; [exact Hw'|].
        split; [exact Ht'|]. intros Hk. specialize (Hfit Hk).
        destruct Ht' as [Ht'|Ht']; [lia|]. exfalso.
        assert (total + thistime = n) by lia.
        destruct Hc as [Hc1 Hc2]. lia.
      * lia.
      * exact Hn.
      * lia.
      * rewrite Hw1, Hw, <- app_assoc. f_equal. unfold bs.
        replace (Z.to_nat (total + thistime))
          with (Z.to_nat total + Z.to_nat thistime)%nat by lia.
        apply firstn_firstn_skipn. lia.
Qed.

(** X7.  [full_write] writes all [len] bytes and returns [len], or it
    returns a negative value after it has written fewer; what it has
    written is always the start of the buffer, in order.  A descriptor
    that takes [len] more bytes gets them all. *)
Theorem full_write_all_or_error (k k' : sink) (buf : list Z) (n t : Z) :
  0 <= n <= len buf ->
  full_write k buf n = (t, k') ->
  exists c,
    0 <= c <= n
    /\ written k' = written k ++ firstn (Z.to_nat c) buf
    /\ ((t = n /\ c = n) \/ (t < 0 /\ c < n))
    /\ (takes k n -> t = n).
Proof.
  intros Hn H. unfold full_write in H.
  apply (full_write_loop_prefix buf (written k)) in H; try lia.
  - destruct H as (c & Hc & Hw & Ht & Htk). exists c.
    rewrite Z.sub_0_r in Htk. auto.
  - change (Z.to_nat 0) with O. cbn [firstn]. rewrite app_nil_r.
    reflexivity.
Qed.

Lemma full_read_keeps_every_byte_witness :
  bytes_of chunked_input
  = bytes "hello" ++ bytes_of [Bytes (bytes " world")]
  /\ len (bytes "hello") <= 8
  /\ (5 = -1 \/ 5 = len (bytes "hello")).
Proof.
  apply (full_read_keeps_every_byte chunked_input [Bytes (bytes " world")]
           4 8 5 (bytes "hello")); [lia | reflexivity].
Defined.

Lemma full_read_completes_short_reads_witness :
  5 = len (bytes "hello")
  /\ bytes_of chunked_input
     = bytes "hello" ++ bytes_of [Bytes (bytes " world")]
  /\ ready [Bytes (bytes " world")] = true
  /\ ((4 <= 5 <= 8)
      \/ (5 < 4 /\ [Bytes (bytes " world")] = []
          /\ bytes "hello" = bytes_of chunked_input)).
Proof.
  apply (full_read_completes_short_reads chunked_input
           [Bytes (bytes " world")] 4 8 5 (bytes "hello"));
    [reflexivity | lia | reflexivity].
Defined.

Lemma full_write_all_or_error_witness :
  exists c,
    0 <= c <= 5
    /\ written {| written := bytes "hel"; room := Some 0 |}
       = written narrow_sink ++ firstn (Z.to_nat c) (bytes "hello")
    /\ ((-1 = 5 /\ c = 5) \/ (-1 < 0 /\ c < 5))
    /\ (takes narrow_sink 5 -> -1 = 5).
Proof.
  apply (full_write_all_or_error narrow_sink
           {| written := bytes "hel"; room := Some 0 |} (bytes "hello") 5 (-1));
    [vm_compute; split; discriminate | reflexivity].
Defined.

(* ------------------------------------------------------------------ *)
(** * What passes through when the filter is not reached *)



(** X8.  When the host cannot be resolved, [message_process] goes to
    [FAIL] with a struct of which only [type] was assigned, and
    [message_cleanup] there passes its [out] and [raw] to [free]: the
    call has no defined outcome, in a check and otherwise, whatever the
    input is. *)
Theorem lookup_failure_leaves_no_outcome (w : world) (hostname : string)
    (port : Z) (user : option (list Z)) (max_size flags : Z)
    (e : h_errno_t) :
  w_dns w hostname = inl e ->
  message_process w hostname port user max_size flags = Fault.
Proof.
  intros Hdns.
  unfold message_process, process_stages, lookup_host_for_failover,
    _lookup_host.
  rewrite Hdns. cbn [bind].
  set (code := match e with
               | HOST_NOT_FOUND | NO_ADDRESS | NO_RECOVERY => EX_NOHOST
               | TRY_AGAIN => EX_TEMPFAIL
               | H_OTHER _ => EX_OSERR
               end).
  assert (Hc : negb (code =? EX_OK) = true) by (destruct e; reflexivity).
  rewrite Hc. unfold process_fail.
  destruct (flag_set flags SPAMC_CHECK_ONLY).
  - destruct (full_write _ _ 4) as [n k].
    rewrite message_cleanup_uninit by reflexivity. reflexivity.
  - destruct (message_dump w _) as [w2|]; cbn [bind]; [|reflexivity].
    rewrite message_cleanup_uninit by reflexivity. reflexivity.
Qed.

Lemma lookup_failure_leaves_no_outcome_witness :
  message_process (lost_world chunked_input) "spamd" 783 None 100 0 = Fault.
Proof.
  apply (lookup_failure_leaves_no_outcome (lost_world chunked_input)
           "spamd" 783 None 100 0 HOST_NOT_FOUND); reflexivity.
Defined.







(* ------------------------------------------------------------------ *)
(** * The line reader *)

Lemma sys_read_one (s : stream) (c : Z) (cs : list Z) :
  ready s = true -> bytes_of s = c :: cs ->
  exists s1,
    sys_read s 1 = (1, [c], s1) /\ ready s1 = true /\ bytes_of s1 = cs.
Proof.
  destruct s as [|[bs|] s0]; cbn [ready bytes_of]; try discriminate.
  intros Hr Hb. apply andb_prop in Hr. destruct Hr as [Hne Hr].
  destruct bs as [|b bs']; [discriminate Hne|].
  cbn [app] in Hb. injection Hb as -> Hb.
  unfold sys_read. destruct bs' as [|b' bs''].
  - exists s0. cbn. auto.
  - exists (Bytes (b' :: bs'') :: s0).
    destruct (Z.leb_spec (len (c :: b' :: bs'')) 1) as [Hle|Hgt].
    + unfold len in Hle. simpl length in Hle. lia.
    + cbn. rewrite Hr. auto.
Qed.

Lemma wr_at_end (done tail : list Z) (v : Z) :
  wr (done ++ tail) (len done) v = done ++ v :: tl tail.
Proof.
  destruct tail as [|x tail]; [|apply wr_app_mid].
  rewrite app_nil_r. unfold wr, len. rewrite Nat2Z.id. cbn [tl].
  induction done as [|a done IH]; simpl; [reflexivity|].
  rewrite IH. reflexivity.
Qed.

Lemma rd_at (done tail : list Z) (c : Z) :
  rd (done ++ c :: tail) (len done) = Ret c.
Proof.
  replace (len done) with (len done + 0) by lia.
  rewrite rd_app_r by lia. reflexivity.
Qed.

Lemma read_line_loop_S (fuel : nat) (s : stream) (buf : list Z)
    (l bufsiz : Z) :
  read_line_loop (S fuel) s buf l bufsiz
  = (if l <? bufsiz - 1 then
       let '(bytesread, bs, s') := timeout_read s 1 in
       let buf := match bs with
                  | c :: _ => wr buf l c
                  | [] => buf
                  end in
       c <- rd buf l ;;
       if c =? LF then
         let buf := wr buf l NUL in
         cr <- (if l >? 0 then
                  c' <- rd buf (l - 1) ;; Ret (c' =? CR)
                else Ret false) ;;
         if cr then Ret (EX_OK, wr buf (l - 1) NUL, l - 1, s')
         else Ret (EX_OK, buf, l, s')
       else if bytesread <=? 0 then Ret (EX_IOERR, buf, l, s')
       else read_line_loop fuel s' buf (l + 1) bufsiz
     else Ret (EX_TOOBIG, buf, l, s)).
Proof. reflexivity. Qed.

Lemma chomp_cr_snoc (d : list Z) (x : Z) :
  chomp_cr (d ++ [x]) = if x =? CR then d else d ++ [x].
Proof.
  unfold chomp_cr. rewrite rev_app_distr. cbn [rev app].
  rewrite rev_involutive. reflexivity.
Qed.

(** The round that meets the line feed. *)
Lemma read_line_loop_end (fuel : nat) (s : stream) (done tail rest : list Z)
    (bufsiz : Z) :
  ready s = true -> bytes_of s = LF :: rest -> len done < bufsiz - 1 ->
  exists buf' s',
    read_line_loop (S fuel) s (done ++ tail) (len done) bufsiz
    = Ret (EX_OK, buf', len (chomp_cr done), s')
    /\ firstn (length (chomp_cr done)) buf' = chomp_cr done
    /\ nth_error buf' (length (chomp_cr done)) = Some NUL
    /\ ready s' = true /\ bytes_of s' = rest.
Proof.
  intros Hr Hb Hlen.
  destruct (sys_read_one s LF rest Hr Hb) as (s1 & E & Hr1 & Hb1).
  rewrite read_line_loop_S.
  destruct (Z.ltb_spec (len done) (bufsiz - 1)); [|lia].
  unfold timeout_read. rewrite E.
  rewrite !wr_at_end. cbn [tl]. rewrite rd_at. cbn [bind].
  change (LF =? LF) with true. cbn match.
  destruct done as [|d0 d] using rev_ind.
  - change (len (@nil Z)) with 0. change (0 >? 0) with false.
    cbn [bind app]. exists (NUL :: tl tail), s1.
    split; [reflexivity|]. cbn. auto.
  - clear IHd. rewrite len_app in *. change (len [d0]) with 1 in *.
    pose proof (len_nonneg d).
    destruct (Z.gtb_spec (len d + 1) 0); [|lia].
    replace (len d + 1 - 1) with (len d) by lia.
    rewrite <- app_assoc. cbn [app]. rewrite rd_at. cbn [bind].
    rewrite chomp_cr_snoc.
    destruct (d0 =? CR).
    + rewrite wr_app_mid. exists (d ++ NUL :: NUL :: tl tail), s1.
      split; [reflexivity|]. split.
      * rewrite firstn_app, firstn_all, Nat.sub_diag. cbn [firstn].
        apply app_nil_r.
      * split; [|auto]. rewrite nth_error_app2, Nat.sub_diag by lia.
        reflexivity.
    + exists (d ++ d0 :: NUL :: tl tail), s1.
      rewrite len_app. change (len [d0]) with 1.
      split; [reflexivity|]. split.
      * replace (d ++ d0 :: NUL :: tl tail)
          with ((d ++ [d0]) ++ NUL :: tl tail)
          by (rewrite <- app_assoc; reflexivity).
        rewrite firstn_app, firstn_all, Nat.sub_diag. cbn [firstn].
        apply app_nil_r.
      * split; [|auto].
        replace (d ++ d0 :: NUL :: tl tail)
          with ((d ++ [d0]) ++ NUL :: tl tail)
          by (rewrite <- app_assoc; reflexivity).
        rewrite nth_error_app2, Nat.sub_diag by lia. reflexivity.
Qed.

(** The rounds up to the line feed. *)
Lemma read_line_loop_line (bufsiz : Z) (rest : list Z) :
  forall (l done tail : list Z) (s : stream) (fuel : nat),
    ready s = true -> bytes_of s = l ++ LF :: rest -> ~ In LF l ->
    len done + len l < bufsiz - 1 -> (length l < fuel)%nat ->
    exists buf' s',
      read_line_loop fuel s (done ++ tail) (len done) bufsiz
      = Ret (EX_OK, buf', len (chomp_cr (done ++ l)), s')
      /\ firstn (length (chomp_cr (done ++ l))) buf' = chomp_cr (done ++ l)
      /\ nth_error buf' (length (chomp_cr (done ++ l))) = Some NUL
      /\ ready s' = true /\ bytes_of s' = rest.
Proof.
  induction l as [|c l IH]; intros done tail s fuel Hr Hb Hno Hlen Hf.
  - destruct fuel as [|fuel]; [simpl in Hf; lia|].
    rewrite app_nil_r. change (len (@nil Z)) with 0 in Hlen.
    apply read_line_loop_end; [assumption | exact Hb | lia].
  - destruct fuel as [|fuel]; [simpl in Hf; lia|].
    cbn [app] in Hb.
    destruct (sys_read_one s c (l ++ LF :: rest) Hr Hb)
      as (s1 & E & Hr1 & Hb1).
    assert (Hl1 : len (c :: l) = 1 + len l)
      by (unfold len; simpl length; lia).
    rewrite Hl1 in Hlen. pose proof (len_nonneg l).
    rewrite read_line_loop_S.
    destruct (Z.ltb_spec (len done) (bufsiz - 1)); [|lia].
    unfold timeout_read. rewrite E.
    rewrite wr_at_end, rd_at. cbn [bind].
    destruct (Z.eqb_spec c LF) as [Hc|Hc].
    { exfalso. apply Hno. left. auto. }
    change (1 <=? 0) with false. cbn match.
    replace (done ++ c :: tl tail) with ((done ++ [c]) ++ tl tail)
      by (rewrite <- app_assoc; reflexivity).
    replace (len done + 1) with (len (done ++ [c]))
      by (rewrite len_app; reflexivity).
    replace (done ++ c :: l) with ((done ++ [c]) ++ l)
      by (rewrite <- app_assoc; reflexivity).
    apply IH; try assumption.
    + intros Hin. apply Hno. right. exact Hin.
    + rewrite len_app. change (len [c]) with 1. lia.
    + simpl in Hf. lia.
Qed.

(** X11.  [_spamc_read_full_line] takes one line from the descriptor and
    no more: when the bytes to come are a line without a line feed,
    shorter than [bufsiz - 1], a line feed and the rest, it returns
    [EX_OK] with the line in [buf], without the carriage return at its
    end if it has one and closed by a NUL, [len] its length, and the rest
    still to be read. *)
Theorem read_full_line_takes_one_line (s : stream) (buf line rest : list Z)
    (bufsiz : Z) :
  ready s = true -> bytes_of s = line ++ LF :: rest -> ~ In LF line ->
  len line < bufsiz - 1 ->
  exists buf' s',
    _spamc_read_full_line s buf bufsiz
    = Ret (EX_OK, buf', len (chomp_cr line), s')
    /\ firstn (length (chomp_cr line)) buf' = chomp_cr line
    /\ nth_error buf' (length (chomp_cr line)) = Some NUL
    /\ ready s' = true /\ bytes_of s' = rest.
Proof.
  intros Hr Hb Hno Hlen. unfold _spamc_read_full_line.
  apply (read_line_loop_line bufsiz rest line [] buf s); try assumption.
  unfold len in Hlen. lia.
Qed.

(** The rounds of a line that does not end in time. *)
Lemma read_line_loop_long (bufsiz : Z) (rest : list Z) :
  forall (l done tail : list Z) (s : stream) (fuel : nat),
    ready s = true -> bytes_of s = l ++ rest -> ~ In LF l ->
    len done + len l = bufsiz - 1 -> (length l <= fuel)%nat ->
    exists buf' s',
      read_line_loop fuel s (done ++ tail) (len done) bufsiz
      = Ret (EX_TOOBIG, buf', bufsiz - 1, s')
      /\ firstn (length (done ++ l)) buf' = done ++ l
      /\ ready s' = true /\ bytes_of s' = rest.
Proof.
  induction l as [|c l IH]; intros done tail s fuel Hr Hb Hno Hlen Hf.
  - change (len (@nil Z)) with 0 in Hlen. rewrite app_nil_r.
    exists (done ++ tail), s. split.
    + destruct fuel as [|fuel]; cbn [read_line_loop].
      * f_equal. f_equal. f_equal. f_equal. lia.
      * destruct (Z.ltb_spec (len done) (bufsiz - 1)); [lia|].
        f_equal. f_equal. f_equal. f_equal. lia.
    + split; [|auto].
      rewrite firstn_app, firstn_all, Nat.sub_diag. cbn [firstn].
      apply app_nil_r.
  - destruct fuel as [|fuel]; [simpl in Hf; lia|].
    cbn [app] in Hb.
    destruct (sys_read_one s c (l ++ rest) Hr Hb) as (s1 & E & Hr1 & Hb1).
    assert (Hl1 : len (c :: l) = 1 + len l)
      by (unfold len; simpl length; lia).
    rewrite Hl1 in Hlen. pose proof (len_nonneg l).
    rewrite read_line_loop_S.
    destruct (Z.ltb_spec (len done) (bufsiz - 1)); [|lia].
    unfold timeout_read. rewrite E.
    rewrite wr_at_end, rd_at. cbn [bind].
    destruct (Z.eqb_spec c LF) as [Hc|Hc].
    { exfalso. apply Hno. left. auto. }
    change (1 <=? 0) with false. cbn match.
    replace (done ++ c :: tl tail) with ((done ++ [c]) ++ tl tail)
      by (rewrite <- app_assoc; reflexivity).
    replace (len done + 1) with (len (done ++ [c]))
      by (rewrite len_app; reflexivity).
    replace (done ++ c :: l) with ((done ++ [c]) ++ l)
      by (rewrite <- app_assoc; reflexivity).
    apply IH; try assumption.
    + intros Hin. apply Hno. right. exact Hin.
    + rewrite len_app. change (len [c]) with 1. lia.
    + simpl in Hf. lia.
Qed.

(** X12.  A line of [bufsiz - 1] bytes or more does not fit:
    [_spamc_read_full_line] stops after [bufsiz - 1] bytes without a line
    feed and returns [EX_TOOBIG]; what follows these bytes is still to be
    read. *)
Theorem read_full_line_too_long (s : stream) (buf line rest : list Z)
    (bufsiz : Z) :
  ready s = true -> bytes_of s = line ++ rest -> ~ In LF line ->
  len line = bufsiz - 1 ->
  exists buf' s',
    _spamc_read_full_line s buf bufsiz
    = Ret (EX_TOOBIG, buf', bufsiz - 1, s')
    /\ firstn (length line) buf' = line
    /\ ready s' = true /\ bytes_of s' = rest.
Proof.
  intros Hr Hb Hno Hlen. unfold _spamc_read_full_line.
  apply (read_line_loop_long bufsiz rest line [] buf s); try assumption.
  unfold len in Hlen. lia.
Qed.

Lemma read_full_line_takes_one_line_witness :
  exists buf' s',
    _spamc_read_full_line status_stream [] 8188
    = Ret (EX_OK, buf', len (chomp_cr (bytes "SPAMD/1.1 0 EX_OK" ++ [CR])), s')
    /\ firstn (length (chomp_cr (bytes "SPAMD/1.1 0 EX_OK" ++ [CR]))) buf'
       = chomp_cr (bytes "SPAMD/1.1 0 EX_OK" ++ [CR])
    /\ nth_error buf' (length (chomp_cr (bytes "SPAMD/1.1 0 EX_OK" ++ [CR])))
       = Some NUL
    /\ ready s' = true /\ bytes_of s' = bytes "Spam".
Proof.
  apply (read_full_line_takes_one_line status_stream []
           (bytes "SPAMD/1.1 0 EX_OK" ++ [CR]) (bytes "Spam") 8188).
  - reflexivity.
  - reflexivity.
  - vm_compute. intuition discriminate.
  - reflexivity.
Defined.

Lemma read_full_line_too_long_witness :
  exists buf' s',
    _spamc_read_full_line status_stream [] 6
    = Ret (EX_TOOBIG, buf', 6 - 1, s')
    /\ firstn (length (bytes "SPAMD")) buf' = bytes "SPAMD"
    /\ ready s' = true
    /\ bytes_of s' = bytes "/1.1 0 EX_OK" ++ [CR; LF] ++ bytes "Spam".
Proof.
  apply (read_full_line_too_long status_stream [] (bytes "SPAMD")
           (bytes "/1.1 0 EX_OK" ++ [CR; LF] ++ bytes "Spam") 6).
  - reflexivity.
  - reflexivity.
  - vm_compute. intuition discriminate.
  - reflexivity.
Defined.

(* ------------------------------------------------------------------ *)
(** * The parser of decimal numbers *)

Lemma digit_run_digits (ds : list Z) :
  forallb isdigit ds = true ->
  forall (acc : Z) (t : list Z),
    starts_with_digit t = false ->
    digit_run acc (ds ++ t) = (digits_value acc ds, t).
Proof.
  induction ds as [|c ds IH]; intros Hd acc t Ht; cbn [app].
  - destruct t as [|x t]; [reflexivity|]. cbn [starts_with_digit] in Ht.
    cbn [digit_run digits_value]. rewrite Ht. reflexivity.
  - cbn [forallb] in Hd. apply andb_prop in Hd. destruct Hd as [Hc Hd].
    cbn [digit_run digits_value]. rewrite Hc. apply IH; assumption.
Qed.

Lemma digits_value_bound (ds : list Z) :
  forallb isdigit ds = true ->
  forall acc : Z,
    0 <= acc ->
    acc * 10 ^ len ds <= digits_value acc ds < (acc + 1) * 10 ^ len ds.
Proof.
  induction ds as [|c ds IH]; intros Hd acc Hacc.
  - change (len (@nil Z)) with 0. cbn [digits_value]. lia.
  - cbn [forallb] in Hd. apply andb_prop in Hd. destruct Hd as [Hc Hd].
    unfold isdigit in Hc. apply andb_prop in Hc. destruct Hc as [Hc0 Hc9].
    apply Z.leb_le in Hc0, Hc9.
    change (chr "0") with 48 in *. change (chr "9") with 57 in *.
    cbn [digits_value].
    replace (len (c :: ds)) with (1 + len ds)
      by (unfold len; simpl length; lia).
    pose proof (len_nonneg ds).
    rewrite Z.pow_add_r by lia. change (10 ^ 1) with 10.
    specialize (IH Hd (acc * 10 + (c - 48)) ltac:(lia)).
    assert (HP : 0 < 10 ^ len ds) by (apply Z.pow_pos_nonneg; lia).
    remember (10 ^ len ds) as P. remember (digits_value _ ds) as V.
    assert (H1 : 0 <= (c - 48) * P) by nia.
    assert (H2 : (c - 48 + 1) * P <= 10 * P) by nia.
    split; nia.
Qed.

Lemma pow10_mono (a b : Z) : 0 <= a <= b -> 10 ^ a <= 10 ^ b.
Proof. intros H. apply Z.pow_le_mono_r; lia. Qed.

Lemma count_divider_pow (cp : list Z) :
  forall d : Z,
    0 < d -> d * 10 ^ len cp < 2 ^ 31 ->
    count_divider d cp = d * 10 ^ len cp.
Proof.
  induction cp as [|c cp IH]; intros d Hd Hb.
  - change (len (@nil Z)) with 0. cbn [count_divider]. lia.
  - replace (len (c :: cp)) with (1 + len cp) in *
      by (unfold len; simpl length; lia).
    pose proof (len_nonneg cp).
    rewrite Z.pow_add_r in * by lia. change (10 ^ 1) with 10 in *.
    assert (0 < 10 ^ len cp) by (apply Z.pow_pos_nonneg; lia).
    cbn [count_divider].
    assert (Hw : int_wrap (d * 10) = d * 10).
    { unfold int_wrap. rewrite Z.mod_small; [lia|].
      change (2 ^ 31) with 2147483648 in *.
      change (2 ^ 32) with 4294967296. nia. }
    rewrite Hw, IH; [lia | lia | lia].
Qed.

Lemma strtol_digits (ds t : list Z) :
  ds <> [] -> forallb isdigit ds = true -> len ds <= 18 ->
  starts_with_digit t = false ->
  strtol (ds ++ t) = (digits_value 0 ds, t).
Proof.
  intros Hne Hd Hlen Ht. destruct ds as [|c ds]; [congruence|].
  pose proof Hd as Hd'. cbn [forallb] in Hd'. apply andb_prop in Hd'.
  destruct Hd' as [Hc _].
  assert (Hc' : 48 <= c <= 57).
  { unfold isdigit in Hc. apply andb_prop in Hc. destruct Hc as [H0 H9].
    apply Z.leb_le in H0, H9. exact (conj H0 H9). }
  unfold strtol. cbn [app skip_space].
  assert (Hsp : isspace c = false).
  { unfold isspace. change (chr " ") with 32.
    destruct (Z.eqb_spec c 32); [lia|].
    destruct (Z.leb_spec 9 c); [|reflexivity].
    destruct (Z.leb_spec c 13); [lia | reflexivity]. }
  rewrite Hsp. unfold take_sign.
  change (chr "-") with 45. change (chr "+") with 43.
  destruct (Z.eqb_spec c 45); [lia|]. destruct (Z.eqb_spec c 43); [lia|].
  cbn [starts_with_digit]. rewrite Hc.
  change (c :: ds ++ t) with ((c :: ds) ++ t).
  rewrite digit_run_digits by assumption.
  pose proof (digits_value_bound (c :: ds) Hd 0 ltac:(lia)) as Hb.
  assert (10 ^ len (c :: ds) <= 10 ^ 18)
    by (apply pow10_mono; pose proof (len_nonneg (c :: ds)); lia).
  unfold clamp_long, LONG_MAX, LONG_MIN.
  change (2 ^ 63 - 1) with 9223372036854775807.
  change (- 2 ^ 63) with (-9223372036854775808).
  change (10 ^ 18) with 1000000000000000000 in *.
  destruct (Z.gtb_spec (digits_value 0 (c :: ds)) 9223372036854775807);
    [lia|].
  destruct (Z.ltb_spec (digits_value 0 (c :: ds)) (-9223372036854775808));
    [lia|].
  reflexivity.
Qed.

Lemma strtol_neg_digits (ds t : list Z) :
  ds <> [] -> forallb isdigit ds = true -> len ds <= 18 ->
  starts_with_digit t = false ->
  strtol (chr "-" :: ds ++ t) = (- digits_value 0 ds, t).
Proof.
  intros Hne Hd Hlen Ht. destruct ds as [|c ds]; [congruence|].
  pose proof Hd as Hd'. cbn [forallb] in Hd'. apply andb_prop in Hd'.
  destruct Hd' as [Hc _].
  unfold strtol. cbn [app skip_space].
  change (isspace (chr "-")) with false. cbn match. unfold take_sign.
  change (chr "-" =? chr "-") with true. cbn match.
  cbn [starts_with_digit]. rewrite Hc.
  change (c :: ds ++ t) with ((c :: ds) ++ t).
  rewrite digit_run_digits by assumption.
  pose proof (digits_value_bound (c :: ds) Hd 0 ltac:(lia)) as Hb.
  assert (10 ^ len (c :: ds) <= 10 ^ 18)
    by (apply pow10_mono; pose proof (len_nonneg (c :: ds)); lia).
  unfold clamp_long, LONG_MAX, LONG_MIN.
  change (2 ^ 63 - 1) with 9223372036854775807.
  change (- 2 ^ 63) with (-9223372036854775808).
  change (10 ^ 18) with 1000000000000000000 in *.
  destruct (Z.gtb_spec (- digits_value 0 (c :: ds)) 9223372036854775807);
    [lia|].
  destruct (Z.ltb_spec (- digits_value 0 (c :: ds)) (-9223372036854775808));
    [lia|].
  reflexivity.
Qed.

(** The digits behind the dot, as the second [strtol] reads them. *)
Lemma strtol_fraction (fp : list Z) :
  forallb isdigit fp = true -> len fp <= 18 ->
  fst (strtol fp) = digits_value 0 fp.
Proof.
  intros Hd Hlen. destruct fp as [|c fp]; [reflexivity|].
  replace (strtol (c :: fp)) with (strtol ((c :: fp) ++ []))
    by (rewrite app_nil_r; reflexivity).
  rewrite strtol_digits; [reflexivity | discriminate | assumption
                          | assumption | reflexivity].
Qed.

Lemma digit_not_minus (c : Z) : isdigit c = true -> (c =? chr "-") = false.
Proof.
  unfold isdigit. change (chr "0") with 48. change (chr "-") with 45.
  intros H. apply andb_prop in H. destruct H as [H _].
  apply Z.leb_le in H. apply Z.eqb_neq. lia.
Qed.

(** X13.  For a numeral that fits the array, with at least one digit
    before the dot and at most nine behind it,
    [_locale_safe_string_to_float] returns the number the numeral
    denotes (as a rational, before it is rounded to a [float]); the sign
    also holds for a numeral such as [-0.5], whose digits before the dot
    are zero. *)
Theorem locale_safe_float_of_numeral (neg : bool) (ip fp : list Z) :
  ip <> [] -> forallb isdigit ip = true -> forallb isdigit fp = true ->
  len fp <= 9 -> len (numeral neg ip fp) <= 19 ->
  (_locale_safe_string_to_float (numeral neg ip fp) 20
   == numeral_value neg ip fp)%Q.
Proof.
  intros Hne Hip Hfp Hfp9 Hlen.
  pose proof (len_nonneg ip) as Hip0. pose proof (len_nonneg fp) as Hfp0.
  assert (Hdot : starts_with_digit (chr "." :: fp) = false) by reflexivity.
  assert (Hip18 : len ip <= 18).
  { unfold numeral in Hlen. rewrite !len_app in Hlen.
    replace (len (chr "." :: fp)) with (1 + len fp) in Hlen
      by (unfold len; simpl length; lia).
    pose proof (len_nonneg (if neg then [chr "-"] else [])). lia. }
  assert (Hpow : 0 < 10 ^ len fp) by (apply Z.pow_pos_nonneg; lia).
  assert (Hdiv : count_divider 1 fp = 10 ^ len fp).
  { rewrite count_divider_pow; [lia | lia |].
    assert (10 ^ len fp <= 10 ^ 9) by (apply pow10_mono; lia).
    change (10 ^ 9) with 1000000000 in *.
    change (2 ^ 31) with 2147483648. lia. }
  pose proof (digits_value_bound fp Hfp 0 ltac:(lia)) as Hfv.
  unfold _locale_safe_string_to_float.
  change (Z.to_nat (20 - 1)) with 19%nat.
  rewrite firstn_all2 by (unfold len in Hlen; lia).
  unfold numeral_value, numeral. destruct neg; cbn [app].
  - change (chr "-" =? chr "-") with true.
    rewrite strtol_neg_digits by assumption.
    change (negb (chr "." =? chr ".")) with false. cbn match.
    rewrite strtol_fraction by (assumption || lia).
    destruct (Qeq_bool (inject_Z (digits_value 0 fp)) 0) eqn:Ez.
    + apply Qeq_bool_iff in Ez. rewrite inject_Z_opp, Ez.
      unfold Qdiv. ring.
    + rewrite Hdiv, inject_Z_opp. unfold Qdiv. ring.
  - destruct ip as [|c ip']; [congruence|].
    pose proof Hip as Hc. cbn [forallb] in Hc. apply andb_prop in Hc.
    destruct Hc as [Hc _]. cbn [app].
    rewrite (digit_not_minus c Hc).
    change (c :: ip' ++ chr "." :: fp) with ((c :: ip') ++ chr "." :: fp).
    rewrite strtol_digits by assumption.
    change (negb (chr "." =? chr ".")) with false. cbn match.
    rewrite strtol_fraction by (assumption || lia).
    destruct (Qeq_bool (inject_Z (digits_value 0 fp)) 0) eqn:Ez.
    + apply Qeq_bool_iff in Ez. rewrite Ez. unfold Qdiv. ring.
    + rewrite Hdiv. unfold Qdiv. ring.
Qed.

Lemma locale_safe_float_of_numeral_witness :
  (_locale_safe_string_to_float (numeral true (bytes "0") (bytes "5")) 20
   == numeral_value true (bytes "0") (bytes "5"))%Q.
Proof.
  apply (locale_safe_float_of_numeral true (bytes "0") (bytes "5"));
    [discriminate | reflexivity | reflexivity
     | vm_compute; discriminate | vm_compute; discriminate].
Defined.

(* ------------------------------------------------------------------ *)
(** * One address *)

Lemma connect_loop_round_addr (fuel : nat) (w : world) (a p : Z)
    (inaddrlist : list Z) (hostnum port numloops : Z)
    (origerr : option errno_t) :
  numloops < MAX_CONNECT_RETRIES ->
  connect_loop (S fuel) w (Some (a, p)) inaddrlist hostnum port numloops
               origerr
  = match w_connect w (connects (w_log w)) a with
    | Some e =>
        connect_loop fuel
          (log (log w (EvConnect a p)) (EvSleep CONNECT_RETRY_SLEEP))
          (Some (a, p)) inaddrlist hostnum port (numloops + 1) (Some e)
    | None => Ret (true, origerr, log w (EvConnect a p))
    end.
Proof.
  intros Hn. cbn [connect_loop].
  destruct (Z.ltb_spec numloops MAX_CONNECT_RETRIES); [|lia].
  cbn. reflexivity.
Qed.

(** X14.  With the address that [lookup_host] stores, the first of the
    host's address list with the port asked for, [try_to_connect] dials
    this one address for every attempt: up to three times, a second of
    sleep after each failure, and never another address of the host.  It
    returns [EX_OK] at the first attempt that succeeds; after three
    failures it closes the socket and returns the class of the last
    error. *)
Theorem single_address_is_retried (w : world) (hostname : string)
    (port a : Z) (others : list Z) :
  w_dns w hostname = inr (a :: others) -> w_socket w = None ->
  lookup_host w hostname port = Ret (EX_OK, (a, port))
  /\ let fails := fun k : nat => w_connect w (connects (w_log w) + k)%nat a in
     match fails 0%nat, fails 1%nat, fails 2%nat with
     | None, _, _ =>
         try_to_connect w (Some (a, port)) None 0
         = Ret (EX_OK,
                set_w_log w (w_log w ++ [EvSocket; EvConnect a port]))
     | Some _, None, _ =>
         try_to_connect w (Some (a, port)) None 0
         = Ret (EX_OK,
                set_w_log w (w_log w ++ [EvSocket;
                                         EvConnect a port; EvSleep 1;
                                         EvConnect a port]))
     | Some _, Some _, None =>
         try_to_connect w (Some (a, port)) None 0
         = Ret (EX_OK,
                set_w_log w (w_log w ++ [EvSocket;
                                         EvConnect a port; EvSleep 1;
                                         EvConnect a port; EvSleep 1;
                                         EvConnect a port]))
     | Some _, Some _, Some e =>
         try_to_connect w (Some (a, port)) None 0
         = Ret (connect_error_code e,
                set_w_log w (w_log w ++ [EvSocket;
                                         EvConnect a port; EvSleep 1;
                                         EvConnect a port; EvSleep 1;
                                         EvConnect a port; EvSleep 1;
                                         EvClose]))
     end.
Proof.
  intros Hdns Hsock. split.
  { unfold lookup_host, _lookup_host. rewrite Hdns. reflexivity. }
  intros fails.
  unfold try_to_connect.
  cbn [w_socket log set_w_log]. rewrite Hsock.
  change (Z.to_nat MAX_CONNECT_RETRIES) with 3%nat.
  assert (Hlog : forall (x : world) (l1 l2 : list net_event),
             set_w_log (set_w_log x l1) l2 = set_w_log x l2)
    by reflexivity.
  assert (Hlt : forall k, k = 0 \/ k = 1 \/ k = 2 ->
                          k < MAX_CONNECT_RETRIES)
    by (unfold MAX_CONNECT_RETRIES; lia).
  rewrite (connect_loop_round_addr _ _ _ _ _ _ _ 0 _ (Hlt 0 ltac:(lia))).
  unfold log, CONNECT_RETRY_SLEEP.
  cbn [w_log w_connect set_w_log]. rewrite ?Hlog.
  rewrite <- ?app_assoc. cbn [app].
  rewrite connects_app. change (connects [EvSocket]) with 0%nat.
  fold (fails 0%nat).
  destruct (fails 0%nat) as [e0|]; [|reflexivity].
  rewrite (connect_loop_round_addr _ _ _ _ _ _ _ (0 + 1) _
             (Hlt 1 ltac:(lia))).
  unfold log, CONNECT_RETRY_SLEEP.
  cbn [w_log w_connect set_w_log]. rewrite ?Hlog.
  rewrite <- ?app_assoc. cbn [app].
  rewrite connects_app.
  change (connects [EvSocket; EvConnect a port; EvSleep 1]) with 1%nat.
  fold (fails 1%nat).
  destruct (fails 1%nat) as [e1|]; [|reflexivity].
  rewrite (connect_loop_round_addr _ _ _ _ _ _ _ (0 + 1 + 1) _
             (Hlt 2 ltac:(lia))).
  unfold log, CONNECT_RETRY_SLEEP.
  cbn [w_log w_connect set_w_log]. rewrite ?Hlog.
  rewrite <- ?app_assoc. cbn [app].
  rewrite connects_app.
  change (connects [EvSocket; EvConnect a port; EvSleep 1;
                    EvConnect a port; EvSleep 1])
    with 2%nat.
  fold (fails 2%nat).
  destruct (fails 2%nat) as [e2|]; [|reflexivity].
  cbn [connect_loop bind].
  unfold log, CONNECT_RETRY_SLEEP.
  cbn [w_log w_connect set_w_log]. rewrite ?Hlog.
  rewrite <- ?app_assoc. cbn [app]. reflexivity.
Qed.

Lemma single_address_is_retried_witness :
  lookup_host (sample_world [] [] all_refuse) "spamd" 783
  = Ret (EX_OK, (1, 783))
  /\ try_to_connect (sample_world [] [] all_refuse) (Some (1, 783)) None 0
     = Ret (connect_error_code ECONNREFUSED,
            set_w_log (sample_world [] [] all_refuse)
              (w_log (sample_world [] [] all_refuse)
               ++ [EvSocket;
                   EvConnect 1 783; EvSleep 1;
                   EvConnect 1 783; EvSleep 1;
                   EvConnect 1 783; EvSleep 1;
                   EvClose])).
Proof.
  exact (single_address_is_retried (sample_world [] [] all_refuse)
           "spamd" 783 1 [2; 3] eq_refl eq_refl).
Defined.


(* ------------------------------------------------------------------ *)
(** * Header lines *)

Lemma digit_not_space (c : Z) : isdigit c = true -> isspace c = false.
Proof.
  unfold isdigit, isspace. change (chr "0") with 48. change (chr "9") with 57.
  change (chr " ") with 32.
  intros H. apply andb_prop in H. destruct H as [H0 H9].
  apply Z.leb_le in H0, H9.
  destruct (Z.eqb_spec c 32); [lia|].
  destruct (Z.leb_spec 9 c); [|reflexivity].
  destruct (Z.leb_spec c 13); [lia | reflexivity].
Qed.

Lemma digit_no_sign (c : Z) (t : list Z) :
  isdigit c = true -> take_sign (c :: t) = (false, c :: t).
Proof.
  unfold isdigit, take_sign. change (chr "0") with 48.
  change (chr "-") with 45. change (chr "+") with 43.
  intros H. apply andb_prop in H. destruct H as [H0 _].
  apply Z.leb_le in H0.
  destruct (Z.eqb_spec c 45); [lia|]. destruct (Z.eqb_spec c 43); [lia|].
  reflexivity.
Qed.

(** What [sscanf] makes of a Content-length line. *)
Lemma sscanf_content_length (ds : list Z) :
  ds <> [] -> forallb isdigit ds = true ->
  sscanf (bytes "Content-length: " ++ ds) "Content-length: %d"
  = (1, [SInt (int_wrap (digits_value 0 ds))]).
Proof.
  intros Hne Hd. destruct ds as [|c ds]; [congruence|].
  pose proof Hd as Hc. cbn [forallb] in Hc. apply andb_prop in Hc.
  destruct Hc as [Hc _].
  unfold sscanf.
  change (parse_format FPlain (bytes "Content-length: %d"))
    with (map DLit (bytes "Content-length:") ++ [DSpace; DInt]).
  change (bytes "Content-length: " ++ c :: ds)
    with (bytes "Content-length:" ++ chr " " :: c :: ds).
  change (sscanf_run (map DLit (bytes "Content-length:") ++ [DSpace; DInt])
            (bytes "Content-length:" ++ chr " " :: c :: ds) false [])
    with (sscanf_run [DSpace; DInt] (chr " " :: c :: ds) false []).
  cbn [sscanf_run].
  change (skip_space (chr " " :: c :: ds)) with (skip_space (c :: ds)).
  cbn [skip_space]. rewrite (digit_not_space c Hc).
  cbn [skip_space]. rewrite (digit_not_space c Hc).
  rewrite (digit_no_sign c ds Hc). cbn [starts_with_digit]. rewrite Hc.
  replace (digit_run 0 (c :: ds)) with (digits_value 0 (c :: ds), @nil Z).
  2:{ rewrite <- (digit_run_digits (c :: ds) Hd 0 []) by reflexivity.
      rewrite app_nil_r. reflexivity. }
  reflexivity.
Qed.


(* ------------------------------------------------------------------ *)
(** * A response that is well formed *)





(** A Content-length line, as [_handle_spamd_header] takes it. *)
Lemma handle_content_length (m : message) (flags : Z) (ds : list Z) :
  ds <> [] -> forallb isdigit ds = true -> digits_value 0 ds < 2 ^ 31 ->
  _handle_spamd_header m flags (bytes "Content-length: " ++ ds)
  = Ret (EX_OK, set_content_length m (digits_value 0 ds)).
Proof.
  intros Hne Hd Hlt.
  pose proof (digits_value_bound ds Hd 0 ltac:(lia)) as Hb.
  assert (Hw : int_wrap (digits_value 0 ds) = digits_value 0 ds).
  { unfold int_wrap. change (2 ^ 31) with 2147483648 in *.
    change (2 ^ 32) with 4294967296. rewrite Z.mod_small; lia. }
  unfold _handle_spamd_header.
  change (sscanf (bytes "Content-length: " ++ ds) "Spam: %5s ; %20s / %20s")
    with (0, @nil scanned).
  cbn [nth_error fits andb negb]. change (0 =? 3) with false. cbn match.
  rewrite sscanf_content_length by assumption.
  change (1 =? 1) with true. cbn [nth_error item_int]. cbn match.
  rewrite Hw.
  change (content_length (set_content_length m (digits_value 0 ds)))
    with (digits_value 0 ds).
  destruct (Z.ltb_spec (digits_value 0 ds) 0); [lia | reflexivity].
Qed.

(** X15.  A header line [Content-length: n], with [n] in decimal digits
    and below 2^31, sets [content_length] to [n] and nothing else, and
    returns [EX_OK]. *)
Theorem content_length_header_sets_length (m : message) (flags : Z)
    (ds : list Z) :
  ds <> [] -> forallb isdigit ds = true -> digits_value 0 ds < 2 ^ 31 ->
  _handle_spamd_header m flags (bytes "Content-length: " ++ ds)
  = Ret (EX_OK, set_content_length m (digits_value 0 ds)).
Proof. intros Hne Hd Hlt. apply handle_content_length; assumption. Qed.

Lemma content_length_header_sets_length_witness :
  _handle_spamd_header hello_message 0 (bytes "Content-length: " ++ bytes "42")
  = Ret (EX_OK, set_content_length hello_message
                  (digits_value 0 (bytes "42"))).
Proof.
  apply (content_length_header_sets_length hello_message 0 (bytes "42"));
    [discriminate | reflexivity | reflexivity].
Defined.

(* ------------------------------------------------------------------ *)
(** * What the codec leaves, whatever the flags *)

Lemma verdict_writable (code : Z) : verdict_so_far code -> writable code.
Proof. unfold verdict_so_far, writable. tauto. Qed.

(** A header line, once [out] is the block of the response: the capture
    stays, and so does [out]. *)
Lemma handle_header_any (m m' : message) (flags code : Z) (buf : list Z) :
  out m = InOut ->
  _handle_spamd_header m flags buf = Ret (code, m') ->
  same_capture m m' /\ out m' = InOut
  /\ (verdict_so_far (is_spam m) -> verdict_so_far (is_spam m')).
Proof.
  intros Hout. unfold _handle_spamd_header.
  destruct (sscanf buf "Spam: %5s ; %20s / %20s") as [n items].
  destruct (negb _); [discriminate|].
  destruct (n =? 3).
  - assert (Hv : forall b : bool,
               verdict_so_far (if b then EX_ISSPAM else EX_NOTSPAM))
      by (intros []; unfold verdict_so_far; tauto).
    destruct (flag_set flags SPAMC_CHECK_ONLY).
    + destruct (snprintf _ _) as [stored k]. fields. rewrite Hout.
      unfold store. cbn [bind]. intros [= <- <-]. fields.
      split; [repeat split|]. split; [exact Hout|]. intros _. apply Hv.
    + intros [= <- <-]. fields.
      split; [repeat split|]. split; [exact Hout|]. intros _. apply Hv.
  - destruct (sscanf buf "Content-length: %d") as [n2 items2].
    destruct (n2 =? 1).
    + fields. destruct (_ <? 0); intros [= <- <-]; fields;
        (split; [repeat split|]); tauto.
    + intros [= <- <-]. split; [repeat split|]. tauto.
Qed.

Lemma header_loop_any (flags : Z) (bufsiz : Z) (fuel : nat) :
  forall m s buf code m' buf' s',
    out m = InOut ->
    header_loop fuel flags m s buf bufsiz = Ret (code, m', buf', s') ->
    same_capture m m' /\ out m' = InOut
    /\ (verdict_so_far (is_spam m) -> verdict_so_far (is_spam m')).
Proof.
  induction fuel as [|fuel IH]; intros m s buf code m' buf' s' Hout;
    [discriminate|].
  rewrite header_loop_S.
  destruct (_spamc_read_full_line s buf bufsiz) as [[[[fv b] l] s0]|];
    cbn [bind]; [|discriminate].
  destruct (negb (fv =? EX_OK)).
  { intros H; inversion H; subst.
    split; [apply same_capture_refl | auto]. }
  destruct (if l =? 0 then rd b 0 else Ret NUL) as [c0|]; cbn [bind];
    [|discriminate].
  destruct ((l =? 0) && (c0 =? NUL)).
  { intros H; inversion H; subst.
    split; [apply same_capture_refl | auto]. }
  destruct (_handle_spamd_header m flags (cstr b)) as [[code0 m0]|] eqn:E;
    cbn [bind]; [|discriminate].
  apply handle_header_any in E; [|exact Hout].
  destruct E as (E1 & E2 & E3).
  destruct (code0 <? 0).
  { intros H; inversion H; subst. auto. }
  intros H. apply IH in H; [|exact E2]. destruct H as (H1 & H2 & H3).
  split; [eapply same_capture_trans; eauto|].
  split; [exact H2 | auto].
Qed.

Lemma filter_headers_any (w : world) (flags : Z) (m : message)
    (buf : list Z) (bufsiz : Z) r :
  out m = InOut -> writable (is_spam m) ->
  filter_headers w flags m buf bufsiz = Ret r ->
  match r with
  | inl res => failed_state m res
  | inr (m', _) =>
      same_capture m m' /\ out m' = InOut /\ verdict_so_far (is_spam m')
  end.
Proof.
  intros Hout Hw. unfold filter_headers.
  destruct (_spamc_read_full_line (w_peer w) buf bufsiz)
    as [[[[fv b] l] s0]|]; cbn [bind]; [|discriminate].
  destruct (Z.eqb_spec fv EX_OK) as [->|Hfv]; cbn [negb].
  2:{ intros [= <-]. apply filter_failure_state;
        [exact Hfv | apply same_capture_refl | exact Hw]. }
  destruct (sscanf (cstr b) "SPAMD/%s %d %*s") as [n items].
  destruct (negb (fits 20 _)); [discriminate|].
  destruct (negb (n =? 2)).
  { intros [= <-]. apply filter_failure_state;
      [discriminate | apply same_capture_refl | exact Hw]. }
  destruct (negb (Qle_bool 1 _)).
  { intros [= <-]. apply filter_failure_state;
      [discriminate | apply same_capture_refl | exact Hw]. }
  destruct (header_loop _ _ _ _ _ _) as [[[[fv1 m2] b2] s2]|] eqn:E;
    cbn [bind]; [|discriminate].
  apply header_loop_any in E; [|exact Hout].
  destruct E as (E1 & E2 & E3).
  assert (Hv2 : verdict_so_far (is_spam m2)).
  { apply E3. fields. unfold verdict_so_far. tauto. }
  assert (Hcap : same_capture m m2).
  { eapply same_capture_trans; [|exact E1]. repeat split. }
  destruct (Z.eqb_spec fv1 EX_OK) as [->|Hfv1]; cbn [negb].
  - intros [= <-]. auto.
  - intros [= <-]. apply filter_failure_state;
      [exact Hfv1 | exact Hcap | apply verdict_writable; exact Hv2].
Qed.

Lemma filter_prologue_any (w : world) addr hent port user (flags : Z)
    (m : message) r :
  out m = msg m -> out_len m = msg_len m -> writable (is_spam m) ->
  filter_prologue w addr hent port user flags m = Ret r ->
  match r with
  | inl res => failed_state m res
  | inr (m', _) =>
      same_capture m m' /\ out m' = InOut /\ verdict_so_far (is_spam m')
  end.
Proof.
  intros Hout Hlen Hw. unfold filter_prologue.
  destruct (flag_set flags SPAMC_USE_SSL).
  { intros [= <-]. unfold failed_state.
    split; [discriminate|]. split; [apply same_capture_refl|]. auto. }
  assert (Hw0 : writable EX_TOOBIG) by (unfold writable; tauto).
  destruct (malloc w) as [ok w0]. destruct ok; cbn [negb].
  2:{ intros [= <-]. apply filter_failure_state;
        [discriminate | repeat split | exact Hw0]. }
  destruct (build_request _ _ _ _) as [request|].
  2:{ intros [= <-].
      apply (filter_failure_state w0 m _ false EX_OSERR);
        [discriminate | repeat split | exact Hw0]. }
  destruct (try_to_connect w0 addr hent port) as [[i w2]|]; cbn [bind];
    [|discriminate].
  destruct (Z.eqb_spec i EX_OK) as [->|Hi]; cbn [negb].
  2:{ intros [= <-].
      apply (filter_failure_state w2 m _ false i);
        [exact Hi | repeat split | exact Hw0]. }
  destruct (full_write (w_sent w2) request (len request)) as [x k].
  destruct (load _ _ _) as [body|]; cbn [bind]; [|discriminate].
  destruct (full_write k body _) as [x' k'].
  intros H. apply filter_headers_any in H; [|reflexivity|exact Hw0].
  destruct r as [[[c1 m1] w1]|[m1 w1]].
  - unfold failed_state in *. revert H. fields.
    intros (H1 & H2 & H3 & H4 & H5).
    split; [exact H1|]. split; [|auto].
    eapply same_capture_trans; [|exact H2]. repeat split.
  - revert H. fields. intros (H1 & H2 & H3).
    split; [|auto]. eapply same_capture_trans; [|exact H1]. repeat split.
Qed.

Ltac fail_case :=
  match goal with
  | Hfs : forall res : Z * message * world, failed_state _ res -> _
    |- Ret ?r = _ -> _ =>
      intros [= <- <- <-]; apply (Hfs r)
  end.

(** The end of a call, whatever the flags. *)
Lemma message_filter_any (w w' : world) addr hent port user
    (flags code : Z) (m m' : message) :
  out m = msg m -> out_len m = msg_len m -> writable (is_spam m) ->
  _message_filter w addr hent port user flags m = Ret (code, m', w') ->
  same_capture m m'
  /\ (code <> EX_OK ->
      out m' = msg m /\ out_len m' = msg_len m /\ writable (is_spam m'))
  /\ (code = EX_OK ->
      out m' = InOut
      /\ if flag_set flags SPAMC_CHECK_ONLY
         then is_spam m' = EX_ISSPAM \/ is_spam m' = EX_NOTSPAM
         else is_spam m' = EX_OUTPUTMESSAGE).
Proof.
  intros Hout Hlen Hw. unfold _message_filter.
  destruct (filter_prologue _ _ _ _ _ _ _) as [r|] eqn:E; cbn [bind];
    [|discriminate].
  apply filter_prologue_any in E; try assumption.
  assert (Hfs : forall res : Z * message * world,
             failed_state m res ->
             let '(c, m1, _) := res in
             same_capture m m1
             /\ (c <> EX_OK ->
                 out m1 = msg m /\ out_len m1 = msg_len m
                 /\ writable (is_spam m1))
             /\ (c = EX_OK ->
                 out m1 = InOut
                 /\ if flag_set flags SPAMC_CHECK_ONLY
                    then is_spam m1 = EX_ISSPAM \/ is_spam m1 = EX_NOTSPAM
                    else is_spam m1 = EX_OUTPUTMESSAGE)).
  { intros [[c m1] w1] (H1 & H2 & H3 & H4 & H5).
    split; [exact H2|]. split; [auto | contradiction]. }
  destruct r as [[[c1 m1] w1]|[m1 w1]].
  - intros [= <- <- <-]. exact (Hfs _ E).
  - destruct E as (E1 & E2 & E3).
    unfold filter_body.
    destruct (flag_set flags SPAMC_CHECK_ONLY).
    + destruct (Z.eqb_spec (is_spam m1) EX_TOOBIG) as [Ht|Ht].
      * fail_case.
        apply filter_failure_state;
          [discriminate | exact E1 | apply verdict_writable; exact E3].
      * intros [= <- <- <-]. split; [exact E1|].
        split; [intros Hc; contradiction Hc; reflexivity|]. intros _.
        split; [exact E2|]. unfold verdict_so_far in E3. tauto.
    + assert (Hw1 : writable EX_OUTPUTMESSAGE) by (unfold writable; tauto).
      assert (Hc1 : same_capture m (set_is_spam m1 EX_OUTPUTMESSAGE)).
      { eapply same_capture_trans; [exact E1|]. repeat split. }
      fields.
      destruct (Z.ltb_spec (content_length m1) 0) as [Hneg|Hpos].
      { fail_case.
        apply filter_failure_state; [discriminate | exact Hc1 | exact Hw1]. }
      destruct (full_read _ _ _) as [[n bs] s] eqn:Er.
      destruct (Z.gtb_spec (n + out_len m1)
                  (max_len m1 + EXPANSION_ALLOWANCE)).
      { fail_case.
        apply filter_failure_state; [discriminate | | exact Hw1].
        eapply same_capture_trans; [exact Hc1|]. repeat split. }
      destruct (Z.eqb_spec (out_len m1 + n) (content_length m1))
        as [Heq|Hne]; cbn [negb].
      * intros [= <- <- <-]. fields.
        split; [eapply same_capture_trans; [exact E1|]; repeat split|].
        split; [intros Hc; contradiction Hc; reflexivity|]. intros _.
        split; [exact E2 | reflexivity].
      * fail_case.
        apply filter_failure_state; [discriminate | | exact Hw1].
        eapply same_capture_trans; [exact Hc1|]. repeat split.
Qed.

(** X16.  The codec never changes the capture, and every failure, with
    whichever flags, leaves the message as it was read: [raw], [pre],
    [msg] and [post] and the block they point into stay as they were,
    and after a failure [out] is [msg] again and [is_spam] a value with
    which [message_write] writes. *)
Theorem filter_leaves_message_as_read (w w' : world) addr hent port user
    (flags code : Z) (m m' : message) :
  out m = msg m -> out_len m = msg_len m -> writable (is_spam m) ->
  _message_filter w addr hent port user flags m = Ret (code, m', w') ->
  same_capture m m'
  /\ (code <> EX_OK ->
      out m' = msg m /\ out_len m' = msg_len m /\ writable (is_spam m')).
Proof.
  intros Hout Hlen Hw H.
  destruct (message_filter_any _ _ _ _ _ _ _ _ _ _ Hout Hlen Hw H)
    as (H1 & H2 & _).
  auto.
Qed.

Lemma filter_headers_code (w : world) (flags : Z) (m : message)
    (buf : list Z) (bufsiz : Z) (c : Z) (m' : message) (w' : world) :
  filter_headers w flags m buf bufsiz = Ret (inl (c, m', w')) ->
  c <> EX_OK.
Proof.
  unfold filter_headers.
  destruct (_spamc_read_full_line (w_peer w) buf bufsiz)
    as [[[[fv b] l] s0]|]; cbn [bind]; [|discriminate].
  destruct (Z.eqb_spec fv EX_OK) as [->|Hfv]; cbn [negb].
  2:{ intros [= <- <- <-]. exact Hfv. }
  destruct (sscanf (cstr b) "SPAMD/%s %d %*s") as [n items].
  destruct (negb (fits 20 _)); [discriminate|].
  destruct (negb (n =? 2)); [intros [= <- <- <-]; discriminate|].
  destruct (negb (Qle_bool 1 _)); [intros [= <- <- <-]; discriminate|].
  destruct (header_loop _ _ _ _ _ _) as [[[[fv1 m2] b2] s2]|];
    cbn [bind]; [|discriminate].
  destruct (Z.eqb_spec fv1 EX_OK) as [->|Hfv1]; cbn [negb];
    [discriminate|].
  intros [= <- <- <-]. exact Hfv1.
Qed.

Lemma filter_headers_verdict (w : world) (flags : Z) (m : message)
    (buf : list Z) (bufsiz : Z) (m' : message) (w' : world) :
  out m = InOut ->
  filter_headers w flags m buf bufsiz = Ret (inr (m', w')) ->
  verdict_so_far (is_spam m').
Proof.
  intros Hout. unfold filter_headers.
  destruct (_spamc_read_full_line (w_peer w) buf bufsiz)
    as [[[[fv b] l] s0]|]; cbn [bind]; [|discriminate].
  destruct (negb (fv =? EX_OK)); [discriminate|].
  destruct (sscanf (cstr b) "SPAMD/%s %d %*s") as [n items].
  destruct (negb (fits 20 _)); [discriminate|].
  destruct (negb (n =? 2)); [discriminate|].
  destruct (negb (Qle_bool 1 _)); [discriminate|].
  destruct (header_loop _ _ _ _ _ _) as [[[[fv1 m2] b2] s2]|] eqn:E;
    cbn [bind]; [|discriminate].
  apply header_loop_any in E; [|exact Hout].
  destruct E as (_ & _ & E3).
  destruct (negb (fv1 =? EX_OK)); [discriminate|].
  intros [= <- <-]. apply E3. fields. unfold verdict_so_far. tauto.
Qed.

Lemma filter_prologue_cases (w : world) addr hent port user (flags : Z)
    (m : message) r :
  filter_prologue w addr hent port user flags m = Ret r ->
  match r with
  | inl (c, _, _) => c <> EX_OK
  | inr (m', _) => verdict_so_far (is_spam m')
  end.
Proof.
  unfold filter_prologue.
  destruct (flag_set flags SPAMC_USE_SSL);
    [intros [= <-]; discriminate|].
  destruct (malloc w) as [ok w0]. destruct ok; cbn [negb];
    [|intros [= <-]; discriminate].
  destruct (build_request _ _ _ _) as [request|];
    [|intros [= <-]; discriminate].
  destruct (try_to_connect w0 addr hent port) as [[i w2]|]; cbn [bind];
    [|discriminate].
  destruct (Z.eqb_spec i EX_OK) as [->|Hi]; cbn [negb];
    [|intros [= <-]; exact Hi].
  destruct (full_write (w_sent w2) request (len request)) as [x k].
  destruct (load _ _ _) as [body|]; cbn [bind]; [|discriminate].
  destruct (full_write k body _) as [x' k'].
  intros H. destruct r as [[[c1 m1] w1]|[m1 w1]].
  - eapply filter_headers_code; exact H.
  - eapply filter_headers_verdict; [|exact H]. reflexivity.
Qed.

(** A check that succeeds has a verdict. *)
Lemma check_filter_verdict (w w' : world) addr hent port user
    (flags : Z) (m m' : message) :
  flag_set flags SPAMC_CHECK_ONLY = true ->
  _message_filter w addr hent port user flags m = Ret (EX_OK, m', w') ->
  is_spam m' = EX_ISSPAM \/ is_spam m' = EX_NOTSPAM.
Proof.
  intros Hflag. unfold _message_filter.
  destruct (filter_prologue _ _ _ _ _ _ _) as [r|] eqn:E; cbn [bind];
    [|discriminate].
  apply filter_prologue_cases in E.
  destruct r as [[[c1 m1] w1]|[m1 w1]].
  - intros [= -> <- <-]. contradiction E. reflexivity.
  - unfold filter_body. rewrite Hflag.
    destruct (Z.eqb_spec (is_spam m1) EX_TOOBIG) as [Ht|Ht].
    + discriminate.
    + intros [= <- <-]. unfold verdict_so_far in E. tauto.
Qed.

(** X17.  A check-only call of the filter that returns [EX_OK] has a
    verdict: [is_spam] is [EX_ISSPAM] or [EX_NOTSPAM], not the
    [EX_TOOBIG] it is given at the start, whatever the daemon sends.  A
    response whose headers bring no verdict ends the call with a failure
    code. *)
Theorem check_only_filter_has_a_verdict (w w' : world) addr hent port user
    (flags : Z) (m m' : message) :
  flag_set flags SPAMC_CHECK_ONLY = true ->
  _message_filter w addr hent port user flags m = Ret (EX_OK, m', w') ->
  is_spam m' = EX_ISSPAM \/ is_spam m' = EX_NOTSPAM.
Proof. intros Hflag Hrun. exact (check_filter_verdict _ _ _ _ _ _ _ _ _ Hflag Hrun). Qed.

Lemma filter_leaves_message_as_read_witness :
  exists m' w',
    _message_filter (sample_world (bytes "hello") [] all_refuse)
                    None (Some [1; 2; 3]) 783 None 0 hello_message
    = Ret (EX_UNAVAILABLE, m', w')
    /\ same_capture hello_message m'
    /\ (EX_UNAVAILABLE <> EX_OK ->
        out m' = msg hello_message /\ out_len m' = msg_len hello_message
        /\ writable (is_spam m')).
Proof.
  do 2 eexists.
  refine ((fun H => conj H
             (filter_leaves_message_as_read
                (sample_world (bytes "hello") [] all_refuse) _
                None (Some [1; 2; 3]) 783 None 0 EX_UNAVAILABLE
                hello_message _ eq_refl eq_refl _ H)) _).
  - left. reflexivity.
  - vm_compute. reflexivity.
Defined.

Lemma check_only_filter_has_a_verdict_witness :
  exists m' w',
    _message_filter (sample_world (bytes "hello") spam_verdict_response
                                  all_accept)
                    None (Some [1; 2; 3]) 783 None SPAMC_CHECK_ONLY
                    hello_message
    = Ret (EX_OK, m', w')
    /\ (is_spam m' = EX_ISSPAM \/ is_spam m' = EX_NOTSPAM).
Proof.
  do 2 eexists.
  refine ((fun H => conj H
             (check_only_filter_has_a_verdict
                (sample_world (bytes "hello") spam_verdict_response
                              all_accept) _
                None (Some [1; 2; 3]) 783 None SPAMC_CHECK_ONLY
                hello_message _ eq_refl H)) _).
  vm_compute. reflexivity.
Defined.

(* ------------------------------------------------------------------ *)
(** * The request and the obsolete entry point *)

(** The request is built when it is shorter than the buffer, and
    refused otherwise. *)
Lemma build_request_text (flags : Z) (username : option (list Z))
    (m : message) (bufsiz : Z) :
  build_request flags username m bufsiz
  = if len (request_text flags username (msg_len m)) >=? bufsiz
    then None
    else Some (request_text flags username (msg_len m)).
Proof.
  unfold build_request, request_text, add_part.
  set (l1 := request_line flags).
  set (l3 := bytes "Content-length: " ++ decimal (msg_len m) ++ [CR; LF]).
  change (len (@nil Z)) with 0.
  pose proof (len_nonneg l1). pose proof (len_nonneg l3).
  destruct username as [u|].
  - set (l2 := bytes "User: " ++ u ++ [CR; LF]).
    pose proof (len_nonneg l2).
    rewrite !len_app. change (len [CR; LF]) with 2.
    destruct (Z.geb_spec (0 + len l1) bufsiz);
      [destruct (Z.geb_spec (len l1 + (len l2 + (len l3 + 2))) bufsiz);
       [reflexivity | lia]|].
    cbn [app]. destruct (Z.geb_spec (len l1 + len l2) bufsiz);
      [destruct (Z.geb_spec (len l1 + (len l2 + (len l3 + 2))) bufsiz);
       [reflexivity | lia]|].
    rewrite len_app.
    destruct (Z.geb_spec (len l1 + len l2 + len l3) bufsiz);
      [destruct (Z.geb_spec (len l1 + (len l2 + (len l3 + 2))) bufsiz);
       [reflexivity | lia]|].
    rewrite !len_app.
    destruct (Z.geb_spec (len l1 + len l2 + len l3 + 2) bufsiz);
      destruct (Z.geb_spec (len l1 + (len l2 + (len l3 + 2))) bufsiz);
      try lia; [reflexivity|].
    rewrite <- !app_assoc. reflexivity.
  - cbn [app]. rewrite !len_app. change (len [CR; LF]) with 2.
    destruct (Z.geb_spec (0 + len l1) bufsiz);
      [destruct (Z.geb_spec (len l1 + (len l3 + 2)) bufsiz);
       [reflexivity | lia]|].
    destruct (Z.geb_spec (len l1 + len l3) bufsiz);
      [destruct (Z.geb_spec (len l1 + (len l3 + 2)) bufsiz);
       [reflexivity | lia]|].
    rewrite !len_app.
    destruct (Z.geb_spec (len l1 + len l3 + 2) bufsiz);
      destruct (Z.geb_spec (len l1 + (len l3 + 2)) bufsiz);
      try lia; [reflexivity|].
    rewrite <- !app_assoc. reflexivity.
Qed.

(** X18.  A request that does not fit the buffer of 8188 bytes, as with
    a long user name, never reaches the network: the call returns
    [EX_OSERR] with [out] the message again, and apart from the block it
    took and gave back the world is as it was: no socket is made. *)
Theorem long_request_never_reaches_the_network (w w1 : world) addr hent port
    (user : option (list Z)) (flags : Z) (m : message) :
  flag_set flags SPAMC_USE_SSL = false -> malloc w = (true, w1) ->
  8188 <= len (request_text flags user (msg_len m)) ->
  exists m',
    _message_filter w addr hent port user flags m = Ret (EX_OSERR, m', w1)
    /\ out m' = msg m /\ out_len m' = msg_len m
    /\ same_capture m m'.
Proof.
  intros Hssl Hmalloc Hlen.
  unfold _message_filter, filter_prologue. rewrite Hssl, Hmalloc.
  cbn [negb]. rewrite build_request_text. fields.
  change (8192 - 4) with 8188.
  destruct (Z.geb_spec (len (request_text flags user (msg_len m))) 8188);
    [|lia].
  cbn [bind]. eexists. split; [reflexivity|].
  unfold restore_out. fields. repeat split.
Qed.

Lemma long_request_never_reaches_the_network_witness :
  exists m',
    _message_filter (sample_world (bytes "hello") [] all_accept)
                    None (Some [1; 2; 3]) 783 (Some long_name) 0
                    hello_message
    = Ret (EX_OSERR, m', sample_world (bytes "hello") [] all_accept)
    /\ out m' = msg hello_message /\ out_len m' = msg_len hello_message
    /\ same_capture hello_message m'.
Proof.
  apply (long_request_never_reaches_the_network
           (sample_world (bytes "hello") [] all_accept)
           (sample_world (bytes "hello") [] all_accept)
           None (Some [1; 2; 3]) 783 (Some long_name) 0 hello_message);
    [reflexivity | reflexivity | vm_compute; discriminate].
Defined.

(** X19.  The obsolete entry point [process_message] does the same
    whatever [my_safe_fallback] is: the flag it sets is never looked
    at. *)
Theorem process_message_ignores_safe_fallback (w : world)
    (hostname : string) (port : Z) (user : option (list Z)) (max_size : Z)
    (my_check_only a b : bool) :
  process_message w hostname port user max_size my_check_only a
  = process_message w hostname port user max_size my_check_only b.
Proof.
  assert (H : forall c,
             process_message w hostname port user max_size c true
             = process_message w hostname port user max_size c false).
  { intros c. unfold process_message. destruct c.
    - change (Z.lor (Z.lor SPAMC_RAW_MODE SPAMC_CHECK_ONLY)
                    SPAMC_SAFE_FALLBACK)
        with (toggle_safe_fallback (Z.lor SPAMC_RAW_MODE SPAMC_CHECK_ONLY)).
      apply message_process_toggle.
    - change (Z.lor SPAMC_RAW_MODE SPAMC_SAFE_FALLBACK)
        with (toggle_safe_fallback SPAMC_RAW_MODE).
      apply message_process_toggle. }
  destruct a, b; try reflexivity; [apply H | symmetry; apply H].
Qed.

(* ------------------------------------------------------------------ *)
(** * A transcript that passes through *)

(** What [message_read_bsmtp] leaves of a transcript with a stuffed body
    and its lone dot. *)
Lemma message_read_bsmtp_frame (w w1 : world) (m : message)
    (T P B rest : list Z) (s' : stream) :
  malloc w = (true, w1) ->
  full_read (w_in w1) (max_len m + 1) (max_len m + 1) = (len T, T, s') ->
  len T <= max_len m ->
  T = P ++ spec_stuff true B ++ rest ->
  find_data (Z.to_nat (len T - 6)) T (len T) 0 = Ret (Some (len P)) ->
  hd 0 B <> chr "." ->
  last (LF :: B) 0 = LF ->
  lone_dot rest = true ->
  exists m' G,
    message_read_bsmtp w m = Ret (EX_OK, m', set_w_in w1 s')
    /\ bsmtp_frame m' P B G rest
    /\ raw m' = InRaw 0
    /\ out m' = msg m' /\ out_len m' = msg_len m'
    /\ is_spam m' = EX_TOOBIG
    /\ len T = len P + (len (stuffed B) + len rest)
    /\ T = P ++ stuffed B ++ rest.
Proof.
  intros Hmalloc Hread Hmax HT Hfd Hhd Hlast Hpost.
  rewrite spec_stuff_first_line, <- stuffed_spec in HT by exact Hhd.
  assert (Hpost2 : 2 <= len rest).
  { destruct rest as [|c [|c1 t]]; try discriminate.
    unfold len. simpl length. lia. }
  assert (HlenT : len T = len P + (len (stuffed B) + len rest))
    by (rewrite HT, !len_app; reflexivity).
  pose proof (len_nonneg P) as HP0.
  pose proof (len_nonneg (stuffed B)) as HS0.
  assert (HP6 : 6 <= len P) by (apply find_data_range in Hfd; lia).
  destruct (unstuff_loop_stuffed P rest (len T - len P) Hpost
              (length B) B (le_n _) (Z.to_nat (len T - len P)) [] [] LF)
    as (G' & Hrun & HG').
  { intros _. exact Hhd. }
  { exact Hlast. }
  { unfold len in *. lia. }
  { change (len (@nil Z)) with 0. lia. }
  change (len (@nil Z)) with 0 in HG'.
  unfold message_read_bsmtp. rewrite Hmalloc. cbn [negb].
  cbn -[Z.to_nat find_data unstuff_loop Z.sub full_read scan_start].
  rewrite Hread.
  cbn -[Z.to_nat find_data unstuff_loop Z.sub scan_start].
  destruct (Z.leb_spec (len T) 0); [lia|].
  destruct (Z.gtb_spec (len T) (max_len m)); [lia|].
  rewrite Hfd. cbn [bind].
  replace (scan_start T) with (layout P [] [] (stuffed B ++ rest) LF)
    by (rewrite HT; reflexivity).
  rewrite Hrun. cbn [bind].
  eexists. exists G'.
  split; [reflexivity|]. unfold bsmtp_frame. cbn -[Z.sub].
  repeat split; try reflexivity; try assumption. f_equal. lia.
Qed.

(** [message_write] of a framed message that has no verdict. *)
Lemma message_write_frame (k : sink) (m : message) (P B G rest : list Z) :
  room k = None ->
  is_spam m = EX_TOOBIG \/ is_spam m = EX_OUTPUTMESSAGE ->
  bsmtp_frame m P B G rest ->
  out m = msg m -> out_len m = msg_len m ->
  P <> [] -> rest <> [] ->
  message_write k m
  = Ret (len P + len (stuffed B) + len rest,
         {| written := written k ++ P ++ stuffed B ++ rest;
            room := None |}).
Proof.
  intros Hroom Hs (Ht & Hblk & Hpre & Hprel & Hmsg & Hmsgl & Hpost & Hpostl)
         Hout Houtl HP Hne.
  rewrite Hmsg in Hout. rewrite Hmsgl in Houtl.
  unfold message_write. rewrite Ht.
  assert (Hsel : (is_spam m =? EX_ISSPAM) || (is_spam m =? EX_NOTSPAM)
                 = false
                 /\ negb (is_spam m =? EX_OUTPUTMESSAGE)
                    && negb (is_spam m =? EX_TOOBIG) = false)
    by (destruct Hs as [-> | ->]; split; reflexivity).
  destruct Hsel as [-> ->].
  unfold write_from.
  rewrite Hpre, Hprel, Hout, Houtl, Hpost, Hpostl. unfold load.
  rewrite Hblk.
  assert (HsP : slice (P ++ B ++ G ++ rest) 0 (len P) = Ret P)
    by (apply (slice_mid [] P (B ++ G ++ rest)); reflexivity).
  rewrite HsP. cbn [bind]. rewrite (full_write_open k P Hroom HP).
  assert (HsB : slice (P ++ B ++ G ++ rest) (len P) (len B) = Ret B)
    by (apply (slice_mid P B (G ++ rest)); reflexivity).
  rewrite HsB. cbn [bind].
  rewrite (write_stuffed_open B (Z.to_nat (len B)) _ 0 (len P));
    [| reflexivity | pose proof (len_nonneg B); lia | lia].
  change (Z.to_nat 0) with O. cbn [skipn bind written].
  assert (HsE : slice (P ++ B ++ G ++ rest) (len P + (len B + len G))
                      (len rest)
                = Ret rest).
  { replace (P ++ B ++ G ++ rest) with ((P ++ B ++ G) ++ rest ++ [])
      by (rewrite app_nil_r, <- !app_assoc; reflexivity).
    apply slice_mid; [rewrite !len_app|]; reflexivity. }
  rewrite HsE. cbn [bind].
  rewrite full_write_open; [| reflexivity | exact Hne].
  cbn [written]. rewrite <- !app_assoc. reflexivity.
Qed.

Lemma frame_kept (m m' : message) (P B G rest : list Z) :
  same_capture m m' -> bsmtp_frame m P B G rest -> bsmtp_frame m' P B G rest.
Proof.
  unfold same_capture, bsmtp_frame.
  intros (H1 & H2 & H3 & H4 & H5 & H6 & H7 & H8 & H9 & H10 & H11)
         (F1 & F2 & F3 & F4 & F5 & F6 & F7 & F8).
  repeat split; congruence.
Qed.

(** X20.  BSMTP mode, not a check, output without a limit.  The input is
    a transcript that fits: a start up to the DATA line, a body with the
    dots at the start of its lines doubled, whose first line has no dot
    at its start, and the lone dot with what follows.  When the message
    has been read and the filter fails before any verdict line, with
    whatever code, [message_dump] at [FAIL] writes the transcript to the
    output, byte for byte.  [message_cleanup] then finds [out] set back
    to [msg], a place inside the capture, and passes it to [free]: the
    call has no defined outcome. *)
Theorem bsmtp_failure_replays_transcript (w w1 : world) (hostname : string)
    (port : Z) (user : option (list Z)) (max_size flags ret : Z)
    (m1 : message) (T P B rest : list Z) :
  Z.land flags SPAMC_MODE_MASK = SPAMC_BSMTP_MODE ->
  flag_set flags SPAMC_CHECK_ONLY = false ->
  room (w_out w) = None -> w_in w = [Bytes T] ->
  len T <= max_size ->
  T = P ++ spec_stuff true B ++ rest ->
  find_data (Z.to_nat (len T - 6)) T (len T) 0 = Ret (Some (len P)) ->
  hd 0 B <> chr "." ->
  last (LF :: B) 0 = LF ->
  lone_dot rest = true ->
  process_stages w hostname port user max_size flags = Ret (ret, m1, w1) ->
  ret <> EX_OK -> type m1 = MESSAGE_BSMTP ->
  is_spam m1 = EX_TOOBIG \/ is_spam m1 = EX_OUTPUTMESSAGE ->
  (exists w2,
      message_dump w1 m1 = Ret w2
      /\ written (w_out w2) = written (w_out w) ++ T)
  /\ message_cleanup m1 = Fault
  /\ message_process w hostname port user max_size flags = Fault.
Proof.
  intros Hmode Hflag Hroom Hin Hmax HT Hfd Hhd Hlast Hpost Hst Hret Htype
         Hspam.
  pose proof (process_stages_out _ _ _ _ _ _ _ _ _ Hst) as Hout.
  assert (HP6 : 6 <= len P) by (apply find_data_range in Hfd; lia).
  assert (HTne : T <> []).
  { intros Hnil. rewrite Hnil in HT. symmetry in HT.
    apply app_eq_nil in HT. destruct HT as [HPnil _]. rewrite HPnil in HP6.
    change (len (@nil Z)) with 0 in HP6. lia. }
  assert (Hstate : exists m0 G,
             bsmtp_frame m0 P B G rest
             /\ raw m0 = InRaw 0
             /\ same_capture m0 m1
             /\ out m1 = msg m0 /\ out_len m1 = msg_len m0
             /\ w_in w1 = []
             /\ T = P ++ stuffed B ++ rest).
  { revert Hst. unfold process_stages.
    destruct (lookup_host_for_failover w hostname) as [r [hent|]].
    2:{ intros [= <- <- <-]. discriminate. }
    destruct (negb (r =? EX_OK)).
    { intros [= <- <- <-]. discriminate. }
    unfold message_read. rewrite Hmode.
    change (SPAMC_BSMTP_MODE =? SPAMC_RAW_MODE) with false.
    change (SPAMC_BSMTP_MODE =? SPAMC_BSMTP_MODE) with true. cbn match.
    destruct (malloc w) as [ok w0] eqn:Emal.
    destruct ok.
    2:{ unfold message_read_bsmtp. rewrite Emal. cbn [negb bind].
        change (negb (EX_OSERR =? EX_OK)) with true. cbn match.
        intros [= <- <- <-]. discriminate. }
    pose proof (malloc_in _ _ _ Emal) as Hin0.
    destruct (message_read_bsmtp_frame w w0
                (set_max_len (set_type stack_message MESSAGE_NONE) max_size)
                T P B rest [] Emal)
      as (m0 & G & Hrd & Hfr & Hraw0 & Ho & Hol & Hs & _ & HT');
      try assumption.
    { rewrite Hin0, Hin. fields.
      apply full_read_one_chunk; [exact HTne | lia]. }
    rewrite Hrd. cbn [bind]. change (negb (EX_OK =? EX_OK)) with false.
    cbn match. unfold message_filter_with_failover. intros Hf.
    pose proof (message_filter_in _ _ _ _ _ _ _ _ _ _ Hf) as Hin1.
    apply message_filter_any in Hf;
      [| exact Ho | exact Hol | rewrite Hs; unfold writable; tauto].
    destruct Hf as (Hcap & Hfail & _).
    destruct (Hfail Hret) as (Ho1 & Hol1 & _).
    exists m0, G. split; [exact Hfr|]. split; [exact Hraw0|].
    split; [exact Hcap|].
    split; [exact Ho1|]. split; [exact Hol1|].
    split; [rewrite Hin1; reflexivity | exact HT']. }
  destruct Hstate as (m0 & G & Hfr & Hraw0 & Hcap & Ho1 & Hol1 & Hrest & HT').
  pose proof (frame_kept _ _ _ _ _ _ Hcap Hfr) as Hfr1.
  assert (Hmsg1 : msg m1 = msg m0 /\ msg_len m1 = msg_len m0
                  /\ raw m1 = raw m0).
  { destruct Hcap as (_ & _ & Hr & _ & _ & _ & _ & Hm & Hl & _). auto. }
  destruct Hmsg1 as (Hm1 & Hl1 & Hr1).
  assert (Hdump : exists w2,
             message_dump w1 m1 = Ret w2
             /\ written (w_out w2) = written (w_out w) ++ T).
  { unfold message_dump. rewrite Htype.
    rewrite (message_write_frame (w_out w1) m1 P B G rest);
      [| congruence | exact Hspam | exact Hfr1 | congruence | congruence
       | intros Hnil; rewrite Hnil in HP6;
         change (len (@nil Z)) with 0 in HP6; lia
       | intros Hnil; rewrite Hnil in Hpost; discriminate Hpost].
    cbn [bind]. worlds. rewrite Hrest.
    change (pending []) with O. rewrite message_dump_loop_eof. cbn [bind].
    eexists. split; [reflexivity|]. worlds. cbn [written].
    rewrite Hout, HT'. reflexivity. }
  assert (Hclean : message_cleanup m1 = Fault).
  { destruct Hfr as (_ & _ & _ & _ & Hmsg0 & _).
    apply (message_cleanup_inside m1 (len P)); [congruence | congruence | lia]. }
  split; [exact Hdump|]. split; [exact Hclean|].
  rewrite (message_process_failure _ _ _ _ _ _ _ _ _ Hflag Hst Hret).
  destruct Hdump as (w2 & Hd & _). rewrite Hd. cbn [bind].
  rewrite Hclean. reflexivity.
Qed.

Lemma bsmtp_failure_replays_transcript_witness :
  (exists w2,
      message_dump
        (snd (refused_stages sample_transcript 100 SPAMC_BSMTP_MODE))
        (snd (fst (refused_stages sample_transcript 100 SPAMC_BSMTP_MODE)))
      = Ret w2
      /\ written (w_out w2)
         = written (w_out (sample_world sample_transcript [] all_refuse))
           ++ sample_transcript)
  /\ message_cleanup
       (snd (fst (refused_stages sample_transcript 100 SPAMC_BSMTP_MODE)))
     = Fault
  /\ message_process (sample_world sample_transcript [] all_refuse)
                     "spamd" 783 None 100 SPAMC_BSMTP_MODE = Fault.
Proof.
  apply (bsmtp_failure_replays_transcript
           (sample_world sample_transcript [] all_refuse)
           (snd (refused_stages sample_transcript 100 SPAMC_BSMTP_MODE))
           "spamd" 783 None 100 SPAMC_BSMTP_MODE EX_UNAVAILABLE
           (snd (fst (refused_stages sample_transcript 100
                                     SPAMC_BSMTP_MODE)))
           sample_transcript sample_pre sample_body sample_post).
  - reflexivity.
  - reflexivity.
  - reflexivity.
  - reflexivity.
  - vm_compute. discriminate.
  - reflexivity.
  - vm_compute. reflexivity.
  - vm_compute. discriminate.
  - vm_compute. reflexivity.
  - reflexivity.
  - vm_compute. reflexivity.
  - discriminate.
  - vm_compute. reflexivity.
  - left. vm_compute. reflexivity.
Defined.

(* ------------------------------------------------------------------ *)
(** * A transcript that cannot be framed *)




(* ------------------------------------------------------------------ *)
(** * The verdict line *)

Lemma word_inv (w : list Z) :
  word w = true ->
  exists c w', w = c :: w' /\ isspace c = false
               /\ forallb (fun c => negb (isspace c)) w = true.
Proof.
  unfold word. intros H. apply andb_prop in H. destruct H as [Hne Hw].
  destruct w as [|c w']; [discriminate Hne|].
  exists c, w'. split; [reflexivity|]. split; [|exact Hw].
  cbn [forallb] in Hw. apply andb_prop in Hw. destruct Hw as [Hc _].
  apply negb_true_iff in Hc. exact Hc.
Qed.

Lemma take_word_word (w rest : list Z) (n : nat) :
  forallb (fun c => negb (isspace c)) w = true ->
  (length w <= n)%nat ->
  match rest with [] => True | c :: _ => isspace c = true end ->
  take_word n (w ++ rest) = (w, rest).
Proof.
  revert n. induction w as [|c w IH]; intros n Hw Hn Hrest.
  - cbn [app]. destruct n as [|n]; [destruct rest; reflexivity|].
    destruct rest as [|x rest]; [reflexivity|].
    cbn [take_word]. rewrite Hrest. reflexivity.
  - destruct n as [|n]; [simpl in Hn; lia|].
    cbn [forallb] in Hw. apply andb_prop in Hw. destruct Hw as [Hc Hw].
    apply negb_true_iff in Hc.
    cbn [app take_word]. rewrite Hc. rewrite IH; [reflexivity | exact Hw | |
                                                   exact Hrest].
    simpl in Hn. lia.
Qed.

Lemma skip_space_word (w rest : list Z) :
  word w = true -> skip_space (w ++ rest) = w ++ rest.
Proof.
  intros H. destruct (word_inv w H) as (c & w' & -> & Hc & _).
  cbn [app skip_space]. rewrite Hc. reflexivity.
Qed.

Lemma sscanf_run_word (fmt : list directive) (w rest : list Z) (width : Z)
    (conv : bool) (items : list scanned) :
  word w = true -> len w <= width ->
  match rest with [] => True | c :: _ => isspace c = true end ->
  sscanf_run (DStr (Some width) true :: fmt) (w ++ rest) conv items
  = sscanf_run fmt rest true (items ++ [SStr w]).
Proof.
  intros Hw Hlen Hrest.
  destruct (word_inv w Hw) as (c & w' & E & Hc & Ww).
  subst w. cbn [sscanf_run app skip_space]. rewrite Hc.
  change (c :: w' ++ rest) with ((c :: w') ++ rest).
  rewrite take_word_word; [| exact Ww | unfold len in Hlen; lia | exact Hrest].
  reflexivity.
Qed.

Lemma sscanf_run_space (fmt : list directive) (s : list Z) (conv : bool)
    (items : list scanned) :
  sscanf_run (DSpace :: fmt) s conv items
  = sscanf_run fmt (skip_space s) conv items.
Proof. reflexivity. Qed.

Lemma skip_space_blank (s : list Z) :
  skip_space (chr " " :: s) = skip_space s.
Proof. reflexivity. Qed.

(** What [sscanf] makes of a verdict line. *)
Lemma sscanf_spam_line (v s t : list Z) :
  word v = true -> word s = true -> word t = true ->
  len v <= 5 -> len s <= 20 -> len t <= 20 ->
  sscanf (spam_line v s t) "Spam: %5s ; %20s / %20s"
  = (3, [SStr v; SStr s; SStr t]).
Proof.
  intros Hv Hs Ht Lv Ls Lt.
  unfold sscanf, spam_line.
  change (parse_format FPlain (bytes "Spam: %5s ; %20s / %20s"))
    with (map DLit (bytes "Spam:")
          ++ [DSpace; DStr (Some 5) true; DSpace; DLit (chr ";"); DSpace;
              DStr (Some 20) true; DSpace; DLit (chr "/"); DSpace;
              DStr (Some 20) true]).
  change (sscanf_run
            (map DLit (bytes "Spam:")
             ++ [DSpace; DStr (Some 5) true; DSpace; DLit (chr ";"); DSpace;
                 DStr (Some 20) true; DSpace; DLit (chr "/"); DSpace;
                 DStr (Some 20) true])
            (bytes "Spam: " ++ v ++ bytes " ; " ++ s ++ bytes " / " ++ t)
            false [])
    with (sscanf_run
            [DSpace; DStr (Some 5) true; DSpace; DLit (chr ";"); DSpace;
             DStr (Some 20) true; DSpace; DLit (chr "/"); DSpace;
             DStr (Some 20) true]
            (chr " " :: v ++ bytes " ; " ++ s ++ bytes " / " ++ t)
            false []).
  rewrite sscanf_run_space, skip_space_blank, skip_space_word by exact Hv.
  rewrite sscanf_run_word; [| exact Hv | exact Lv | reflexivity].
  rewrite sscanf_run_space.
  change (skip_space (bytes " ; " ++ s ++ bytes " / " ++ t))
    with (chr ";" :: chr " " :: s ++ bytes " / " ++ t).
  change (sscanf_run
            (DLit (chr ";") :: DSpace :: DStr (Some 20) true :: DSpace
             :: DLit (chr "/") :: DSpace :: [DStr (Some 20) true])
            (chr ";" :: chr " " :: s ++ bytes " / " ++ t) true
            ([] ++ [SStr v]))
    with (sscanf_run
            (DSpace :: DStr (Some 20) true :: DSpace
             :: DLit (chr "/") :: DSpace :: [DStr (Some 20) true])
            (chr " " :: s ++ bytes " / " ++ t) true [SStr v]).
  rewrite sscanf_run_space, skip_space_blank, skip_space_word by exact Hs.
  rewrite sscanf_run_word; [| exact Hs | exact Ls | reflexivity].
  rewrite sscanf_run_space.
  change (skip_space (bytes " / " ++ t)) with (chr "/" :: chr " " :: t).
  change (sscanf_run
            (DLit (chr "/") :: DSpace :: [DStr (Some 20) true])
            (chr "/" :: chr " " :: t) true ([SStr v] ++ [SStr s]))
    with (sscanf_run (DSpace :: [DStr (Some 20) true])
                     (chr " " :: t) true [SStr v; SStr s]).
  rewrite sscanf_run_space, skip_space_blank.
  rewrite <- (app_nil_r t) at 1.
  rewrite skip_space_word by exact Ht.
  rewrite sscanf_run_word; [| exact Ht | exact Lt | exact I].
  reflexivity.
Qed.

(** X22.  A verdict line [Spam: v ; s / t], with [v] a word of at most
    five bytes and [s] and [t] words of at most nineteen, is accepted
    with [EX_OK]: [is_spam] becomes [EX_ISSPAM] when [v] is the word
    [true] in whichever case, and [EX_NOTSPAM] for any other word;
    [score] and [threshold] are the numbers that
    [_locale_safe_string_to_float] reads from [s] and [t]. *)
Theorem spam_header_sets_verdict (m : message) (flags : Z)
    (v s t : list Z) :
  word v = true -> word s = true -> word t = true ->
  len v <= 5 -> len s <= 19 -> len t <= 19 ->
  flag_set flags SPAMC_CHECK_ONLY = false \/ out m = InOut ->
  exists m',
    _handle_spamd_header m flags (spam_line v s t) = Ret (EX_OK, m')
    /\ is_spam m' = (if strcaseeq (bytes "true") v
                     then EX_ISSPAM else EX_NOTSPAM)
    /\ score m' = _locale_safe_string_to_float s 20
    /\ threshold m' = _locale_safe_string_to_float t 20
    /\ content_length m' = content_length m
    /\ same_capture m m'.
Proof.
  intros Hv Hs Ht Lv Ls Lt Hout.
  unfold _handle_spamd_header.
  rewrite sscanf_spam_line by (assumption || lia).
  cbn [nth_error fits item_str].
  destruct (Z.leb_spec (len v + 1) 6); [|lia].
  destruct (Z.leb_spec (len s + 1) 20); [|lia].
  destruct (Z.leb_spec (len t + 1) 20); [|lia].
  cbn [andb negb]. change (3 =? 3) with true. cbn match.
  destruct (flag_set flags SPAMC_CHECK_ONLY).
  - destruct Hout as [Hout|Hout]; [discriminate Hout|].
    destruct (snprintf _ _) as [stored k]. fields. rewrite Hout.
    unfold store. cbn [bind]. eexists. split; [reflexivity|]. fields.
    repeat split.
  - eexists. split; [reflexivity|]. fields. repeat split.
Qed.

Lemma spam_header_sets_verdict_witness :
  exists m',
    _handle_spamd_header hello_message 0
      (spam_line (bytes "TRUE") (bytes "15.5") (bytes "5.0"))
    = Ret (EX_OK, m')
    /\ is_spam m' = (if strcaseeq (bytes "true") (bytes "TRUE")
                     then EX_ISSPAM else EX_NOTSPAM)
    /\ score m' = _locale_safe_string_to_float (bytes "15.5") 20
    /\ threshold m' = _locale_safe_string_to_float (bytes "5.0") 20
    /\ content_length m' = content_length hello_message
    /\ same_capture hello_message m'.
Proof.
  apply (spam_header_sets_verdict hello_message 0
           (bytes "TRUE") (bytes "15.5") (bytes "5.0"));
    try reflexivity; try (vm_compute; discriminate).
  left. reflexivity.
Defined.








(* ------------------------------------------------------------------ *)
(** * A call that fails copies its input *)








(* ------------------------------------------------------------------ *)
(** * The way out of a failed check *)

(** C5.  A check-only call in BSMTP mode whose connections are all
    refused.  The three steps end with [EX_UNAVAILABLE]; the filter has
    set [out] back to [msg], which in this mode is a place inside the
    capture, behind the DATA line.  At [FAIL] the record [0/0] goes to
    the output, and then [message_cleanup] finds [out] neither NULL nor
    [raw] and passes it to [free]: the call does not get to its
    [return EX_NOTSPAM].  The same call in raw mode, where [msg] is
    [raw], does return [EX_NOTSPAM] with the record written; and a check
    whose host cannot be resolved reaches [message_cleanup] with
    pointers that were never assigned. *)
Theorem check_only_failure_frees_inside_capture :
  code_of (process_stages (sample_world sample_transcript [] all_refuse)
             "spamd" 783 None 100 (Z.lor SPAMC_CHECK_ONLY SPAMC_BSMTP_MODE))
  = Some EX_UNAVAILABLE
  /\ process_stages (sample_world sample_transcript [] all_refuse)
       "spamd" 783 None 100 (Z.lor SPAMC_CHECK_ONLY SPAMC_BSMTP_MODE)
     = Ret (refused_stages sample_transcript 100
              (Z.lor SPAMC_CHECK_ONLY SPAMC_BSMTP_MODE))
  /\ raw (snd (fst (refused_stages sample_transcript 100
                      (Z.lor SPAMC_CHECK_ONLY SPAMC_BSMTP_MODE))))
     = InRaw 0
  /\ out (snd (fst (refused_stages sample_transcript 100
                      (Z.lor SPAMC_CHECK_ONLY SPAMC_BSMTP_MODE))))
     = InRaw (len sample_pre)
  /\ 0 < len sample_pre
  /\ message_cleanup
       (snd (fst (refused_stages sample_transcript 100
                    (Z.lor SPAMC_CHECK_ONLY SPAMC_BSMTP_MODE))))
     = Fault
  /\ message_process (sample_world sample_transcript [] all_refuse)
       "spamd" 783 None 100 (Z.lor SPAMC_CHECK_ONLY SPAMC_BSMTP_MODE)
     = Fault
  /\ output_of (message_process
                  (sample_world sample_transcript [] all_refuse)
                  "spamd" 783 None 100 SPAMC_CHECK_ONLY)
     = Some (EX_NOTSPAM, bytes "0/0" ++ [LF])
  /\ message_process (lost_world chunked_input) "spamd" 783 None 100
                     SPAMC_CHECK_ONLY
     = Fault.
Proof.
  split; [vm_compute; reflexivity|].
  split; [vm_compute; reflexivity|].
  split; [vm_compute; reflexivity|].
  split; [vm_compute; reflexivity|].
  split; [vm_compute; reflexivity|].
  split; [vm_compute; reflexivity|].
  split; [vm_compute; reflexivity|].
  split; vm_compute; reflexivity.
Qed.

(* ------------------------------------------------------------------ *)
(** * Raw mode: a call that succeeds *)




